(** * Persistence and change detection of the issue extractor

    A shallow embedding of [src/storage.py] (class [IssueStorage]) and
    [src/tracker.py] (class [ChangeTracker]), with the properties of the
    canonical hasher, the metadata store, the document writer and the
    change tracker stated and proved over it.

    Conventions of the embedding:
    - a Python [str] is a [string] whose characters are the code points
      below 256;
    - a Python [int] is a [Z];
    - JSON-like Python data (what [json.load] returns, what an issue
      dictionary may hold) is a [value]; a [dict] keeps its insertion
      order, as in Python;
    - a call that may raise returns a [result]; code that touches the disk
      is a function from [world] to a [result] and the next [world]. *)

From Stdlib Require Import ZArith List Ascii String Bool Lia.
From Stdlib Require Import DecimalString DecimalZ DecimalPos.
From Stdlib Require Import Sorted Permutation.
From stdpp Require Import base list strings gmap sorting.

Local Open Scope Z_scope.

(** ** Exceptions and results *)

Inductive exn : Type :=
| KeyError (key : string)
| TypeError
| AttributeError
| ValueError
| JSONDecodeError
| FileNotFoundError
| FileExistsError
| IsADirectoryError
| NotADirectoryError
| OSError.

Inductive result (A : Type) : Type :=
| Ok (a : A)
| Raise (e : exn).
Arguments Ok {A} a.
Arguments Raise {A} e.

Definition rbind {A B} (m : result A) (k : A -> result B) : result B :=
  match m with
  | Ok a => k a
  | Raise e => Raise e
  end.

Notation "x <- m ;; k" := (rbind m (fun x => k))
  (at level 100, m at next level, right associativity).

Definition is_ok {A} (m : result A) : bool :=
  match m with Ok _ => true | Raise _ => false end.

Fixpoint rmap {A B} (f : A -> result B) (l : list A) : result (list B) :=
  match l with
  | [] => Ok []
  | x :: l' => y <- f x ;; ys <- rmap f l' ;; Ok (y :: ys)
  end.

(** ** Python values *)

#[warnings="-register-all"]
Inductive value : Type :=
| VNone
| VInt (z : Z)
| VStr (s : string)
| VList (l : list value)
| VDict (d : list (string * value)).

Abbreviation dict := (list (string * value)).

(** [d.get(k)]: the value of the first entry under [k]. *)
Fixpoint dict_get (k : string) (d : dict) : option value :=
  match d with
  | [] => None
  | (k', v) :: d' => if String.eqb k k' then Some v else dict_get k d'
  end.

Definition dict_mem (k : string) (d : dict) : bool :=
  match dict_get k d with Some _ => true | None => false end.

(** [d[k] = v]: an existing key keeps its position, a new one goes last. *)
Fixpoint dict_set (k : string) (v : value) (d : dict) : dict :=
  match d with
  | [] => [(k, v)]
  | (k', v') :: d' =>
      if String.eqb k k' then (k, v) :: d' else (k', v') :: dict_set k v d'
  end.

(** [d[k]] on a dictionary. *)
Definition py_getitem (d : dict) (k : string) : result value :=
  match dict_get k d with
  | Some v => Ok v
  | None => Raise (KeyError k)
  end.

(** [v[k]] with a string subscript on an arbitrary value. *)
Definition py_subscript (v : value) (k : string) : result value :=
  match v with
  | VDict d => py_getitem d k
  | _ => Raise TypeError
  end.

(** Iteration: a list yields its elements, a dictionary its keys, a string
    its characters; [None] and integers are not iterable. *)
Definition py_iter (v : value) : result (list value) :=
  match v with
  | VList l => Ok l
  | VDict d => Ok (map (fun kv => VStr (fst kv)) d)
  | VStr s => Ok (map (fun c => VStr (String c EmptyString)) (list_ascii_of_string s))
  | _ => Raise TypeError
  end.

(** Python's [==] on values. Dictionaries compare without regard to order. *)
Fixpoint py_eq (a b : value) {struct a} : bool :=
  match a, b with
  | VNone, VNone => true
  | VInt x, VInt y => Z.eqb x y
  | VStr x, VStr y => String.eqb x y
  | VList xs, VList ys =>
      (fix go (xs ys : list value) {struct xs} : bool :=
         match xs, ys with
         | [], [] => true
         | x :: xs', y :: ys' => py_eq x y && go xs' ys'
         | _, _ => false
         end) xs ys
  | VDict xs, VDict ys =>
      Nat.eqb (length xs) (length ys) &&
      (fix go (xs : dict) {struct xs} : bool :=
         match xs with
         | [] => true
         | (k, x) :: xs' =>
             match dict_get k ys with
             | Some y => py_eq x y && go xs'
             | None => false
             end
         end) xs
  | _, _ => false
  end.

(** Python's [<]: integers by value, strings by code point, lists
    lexicographically from the first position where they differ; any other
    pair raises [TypeError]. *)
Fixpoint py_lt (a b : value) {struct a} : result bool :=
  match a, b with
  | VInt x, VInt y => Ok (Z.ltb x y)
  | VStr x, VStr y => Ok (String.ltb x y)
  | VList xs, VList ys =>
      (fix go (xs ys : list value) {struct xs} : result bool :=
         match xs, ys with
         | [], [] => Ok false
         | [], _ :: _ => Ok true
         | _ :: _, [] => Ok false
         | x :: xs', y :: ys' => if py_eq x y then go xs' ys' else py_lt x y
         end) xs ys
  | _, _ => Raise TypeError
  end.

(** [sorted(v)]: a stable sort of the elements [v] iterates over, by [<]. *)
Fixpoint py_insert (x : value) (l : list value) : result (list value) :=
  match l with
  | [] => Ok [x]
  | y :: l' =>
      b <- py_lt x y ;;
      if b then Ok (x :: y :: l')
      else (l'' <- py_insert x l' ;; Ok (y :: l''))
  end.

Fixpoint py_sort_into (acc : list value) (l : list value) : result (list value) :=
  match l with
  | [] => Ok acc
  | x :: l' => acc' <- py_insert x acc ;; py_sort_into acc' l'
  end.

Definition py_sorted (v : value) : result (list value) :=
  l <- py_iter v ;; py_sort_into [] l.

(** [str(n)] for an integer. *)
Definition str_of_Z (z : Z) : string := NilZero.string_of_int (Z.to_int z).

(** ** [json.dumps(obj, sort_keys=True)]

    Default separators ([", "] and [": "]) and [ensure_ascii=True]: every
    character outside [' '..'~'] is escaped. *)

Definition hex_digit (n : N) : ascii :=
  match n with
  | 0 => "0" | 1 => "1" | 2 => "2" | 3 => "3" | 4 => "4" | 5 => "5"
  | 6 => "6" | 7 => "7" | 8 => "8" | 9 => "9" | 10 => "a" | 11 => "b"
  | 12 => "c" | 13 => "d" | 14 => "e" | _ => "f"
  end%N%char.

Definition hex2 (n : N) : string :=
  String (hex_digit (n / 16)) (String (hex_digit (n mod 16)) EmptyString).

Definition dquote : ascii := "034"%char.

Definition json_escape_char (c : ascii) : string :=
  let n := N_of_ascii c in
  if (n =? 34)%N then String "\" (String dquote EmptyString)
  else if (n =? 92)%N then "\\"
  else if (n =? 10)%N then "\n"
  else if (n =? 13)%N then "\r"
  else if (n =? 9)%N then "\t"
  else if (n =? 8)%N then "\b"
  else if (n =? 12)%N then "\f"
  else if ((32 <=? n) && (n <=? 126))%N then String c EmptyString
  else "\u00" +:+ hex2 n.

Fixpoint json_escape (s : string) : string :=
  match s with
  | EmptyString => EmptyString
  | String c s' => json_escape_char c +:+ json_escape s'
  end.

Definition json_quote (s : string) : string :=
  String dquote (json_escape s +:+ String dquote EmptyString).

(** Stable insertion sort of rendered dictionary items by key. *)
Fixpoint insert_item (x : string * string) (l : list (string * string))
  : list (string * string) :=
  match l with
  | [] => [x]
  | y :: l' =>
      if String.ltb (fst x) (fst y) then x :: y :: l' else y :: insert_item x l'
  end.

Definition sort_items (l : list (string * string)) : list (string * string) :=
  fold_left (fun acc x => insert_item x acc) l [].

Definition json_item (kv : string * string) : string :=
  json_quote (fst kv) +:+ ": " +:+ snd kv.

Fixpoint json_dumps (v : value) : string :=
  match v with
  | VNone => "null"
  | VInt z => str_of_Z z
  | VStr s => json_quote s
  | VList l => "[" +:+ String.concat ", " (map json_dumps l) +:+ "]"
  | VDict d =>
      "{" +:+
      String.concat ", "
        (map json_item
           (sort_items (map (fun kv => (fst kv, json_dumps (snd kv))) d)))
      +:+ "}"
  end.

(** ** [hashlib.sha256(...).hexdigest()]

    SHA-256 (FIPS 180-4) over a list of bytes; 32-bit words are integers
    reduced modulo [2^32]. *)

Module SHA256.

Definition w32 (x : Z) : Z := x mod 4294967296.
Definition add32 (x y : Z) : Z := w32 (x + y).
Definition rotr (n x : Z) : Z :=
  w32 (Z.lor (Z.shiftr x n) (Z.shiftl x (32 - n))).
Definition shr (n x : Z) : Z := Z.shiftr x n.
Definition not32 (x : Z) : Z := Z.lxor x 4294967295.

Definition Ch (x y z : Z) : Z :=
  Z.lxor (Z.land x y) (Z.land (not32 x) z).
Definition Maj (x y z : Z) : Z :=
  Z.lxor (Z.lxor (Z.land x y) (Z.land x z)) (Z.land y z).
Definition Sigma0 (x : Z) : Z :=
  Z.lxor (Z.lxor (rotr 2 x) (rotr 13 x)) (rotr 22 x).
Definition Sigma1 (x : Z) : Z :=
  Z.lxor (Z.lxor (rotr 6 x) (rotr 11 x)) (rotr 25 x).
Definition sigma0 (x : Z) : Z :=
  Z.lxor (Z.lxor (rotr 7 x) (rotr 18 x)) (shr 3 x).
Definition sigma1 (x : Z) : Z :=
  Z.lxor (Z.lxor (rotr 17 x) (rotr 19 x)) (shr 10 x).

(** The round constants are the first 32 bits of the fractional parts of
    the cube roots of the first 64 primes, the initial hash value those of
    the square roots of the first 8 primes (FIPS 180-4, 4.2.2 and 5.3.3). *)
Definition is_prime (n : Z) : bool :=
  (1 <? n) &&
  forallb (fun d => negb (n mod d =? 0))
    (map Z.of_nat (seq 2 (Z.to_nat n - 2))).

Definition first_primes (k : nat) : list Z :=
  firstn k (List.filter is_prime (map Z.of_nat (seq 2 400))).

(** The integer cube root of [n], searched between [lo] and [hi]. *)
Fixpoint cbrt_between (fuel : nat) (lo hi n : Z) : Z :=
  match fuel with
  | O => lo
  | S fuel' =>
      if hi - lo <=? 1 then lo
      else
        let mid := (lo + hi) / 2 in
        if mid * mid * mid <=? n then cbrt_between fuel' mid hi n
        else cbrt_between fuel' lo mid n
  end.

Definition cbrt (n : Z) : Z := cbrt_between 64 0 (2 ^ 40) n.

Definition K : list Z :=
  Eval vm_compute in
    map (fun p => w32 (cbrt (p * 2 ^ 96))) (first_primes 64).

Definition H0 : list Z :=
  Eval vm_compute in
    map (fun p => w32 (Z.sqrt (p * 2 ^ 64))) (first_primes 8).

(** Padding: a [0x80] byte, zero bytes up to 56 modulo 64, then the bit
    length as a 64-bit big-endian integer. *)
Definition be_bytes (n : nat) (x : Z) : list Z :=
  map (fun i => Z.land (Z.shiftr x (8 * Z.of_nat i)) 255) (rev (seq 0 n)).

Definition pad (msg : list Z) : list Z :=
  let len := Z.of_nat (length msg) in
  let zeros := Z.to_nat ((55 - len) mod 64) in
  msg ++ [128] ++ repeat 0 zeros ++ be_bytes 8 (8 * len).

Fixpoint be_words (fuel : nat) (bs : list Z) : list Z :=
  match fuel, bs with
  | S fuel', b0 :: b1 :: b2 :: b3 :: bs' =>
      (b0 * 16777216 + b1 * 65536 + b2 * 256 + b3) :: be_words fuel' bs'
  | _, _ => []
  end.

Definition words (bs : list Z) : list Z := be_words (length bs) bs.

(** The message schedule, kept newest first: the head is [W(t-1)]. *)
Fixpoint schedule (n : nat) (rw : list Z) : list Z :=
  match n with
  | O => rw
  | S n' =>
      let w :=
        add32 (add32 (sigma1 (nth 1 rw 0)) (nth 6 rw 0))
              (add32 (sigma0 (nth 14 rw 0)) (nth 15 rw 0)) in
      schedule n' (w :: rw)
  end.

Definition round (s : list Z) (kw : Z * Z) : list Z :=
  match s with
  | [a; b; c; d; e; f; g; h] =>
      let t1 :=
        add32 (add32 (add32 h (Sigma1 e)) (add32 (Ch e f g) (fst kw)))
              (snd kw) in
      let t2 := add32 (Sigma0 a) (Maj a b c) in
      [add32 t1 t2; a; b; c; add32 d t1; e; f; g]
  | _ => s
  end.

Definition compress (h : list Z) (block : list Z) : list Z :=
  let w := rev (schedule 48 (rev block)) in
  let s := fold_left round (combine K w) h in
  map (fun p => add32 (fst p) (snd p)) (combine h s).

Fixpoint blocks (fuel : nat) (ws : list Z) : list (list Z) :=
  match fuel, ws with
  | S fuel', _ :: _ => firstn 16 ws :: blocks fuel' (skipn 16 ws)
  | _, _ => []
  end.

Definition digest (msg : list Z) : list Z :=
  let ws := words (pad msg) in
  let h := fold_left compress (blocks (length ws) ws) H0 in
  flat_map (be_bytes 4) h.

End SHA256.

Definition hex_of_byte (b : Z) : string := hex2 (Z.to_N b).

Definition hexdigest (bs : list Z) : string :=
  String.concat EmptyString (map hex_of_byte bs).

(** [s.encode('utf-8')] for code points below 256. *)
Definition utf8_encode (s : string) : list Z :=
  flat_map
    (fun c =>
       let n := Z.of_N (N_of_ascii c) in
       if n <? 128 then [n]
       else [Z.lor 192 (Z.shiftr n 6); Z.lor 128 (Z.land n 63)])
    (list_ascii_of_string s).

Definition sha256_hex (s : string) : string :=
  hexdigest (SHA256.digest (utf8_encode s)).

(** ** More of Python on values *)

(** [int(s)] on the decimal strings [str] produces. ([int] also accepts
    surrounding blanks, a plus sign and underscores; its argument in
    [detect_changes] is always the output of [str] on an integer.) *)
Definition py_int (s : string) : result Z :=
  match NilZero.int_of_string s with
  | Some d => Ok (Z.of_int d)
  | None => Raise ValueError
  end.

Fixpoint prefixb (p s : string) : bool :=
  match p, s with
  | EmptyString, _ => true
  | String a p', String b s' => Ascii.eqb a b && prefixb p' s'
  | String _ _, EmptyString => false
  end.

Fixpoint substringb (p s : string) : bool :=
  prefixb p s ||
  match s with
  | EmptyString => false
  | String _ s' => substringb p s'
  end.

(** [k in v] for a string [k]: key membership in a dictionary, element
    membership in a list, substring test in a string. *)
Definition py_contains (v : value) (k : string) : result bool :=
  match v with
  | VDict d => Ok (dict_mem k d)
  | VList l => Ok (existsb (py_eq (VStr k)) l)
  | VStr s => Ok (substringb k s)
  | _ => Raise TypeError
  end.

(** [v[k] = x] with a string subscript. *)
Definition py_setitem (v : value) (k : string) (x : value) : result value :=
  match v with
  | VDict d => Ok (VDict (dict_set k x d))
  | _ => Raise TypeError
  end.

(** [v.get(k, default)], [v.keys()] and [v.items()] exist on dictionaries
    only. *)
Definition py_get (v : value) (k : string) (default : value) : result value :=
  match v with
  | VDict d => Ok (match dict_get k d with Some x => x | None => default end)
  | _ => Raise AttributeError
  end.

Definition py_keys (v : value) : result (list string) :=
  match v with
  | VDict d => Ok (map fst d)
  | _ => Raise AttributeError
  end.

Definition py_items (v : value) : result dict :=
  match v with
  | VDict d => Ok d
  | _ => Raise AttributeError
  end.

(** [repr] of a string: single quotes unless the string holds a single
    quote and no double quote; backslash, the quote, tab, newline and
    carriage return get a backslash escape, every other non-printable
    character a [\xhh] escape. *)
Definition squote : ascii := "039"%char.

Definition py_printable (n : N) : bool :=
  ((32 <=? n) && (n <=? 126) || (161 <=? n) && negb (n =? 173))%N.

Definition repr_char (q c : ascii) : string :=
  let n := N_of_ascii c in
  if Ascii.eqb c q || (n =? 92)%N then String "\" (String c EmptyString)
  else if (n =? 9)%N then "\t"
  else if (n =? 10)%N then "\n"
  else if (n =? 13)%N then "\r"
  else if py_printable n then String c EmptyString
  else "\x" +:+ hex2 n.

Fixpoint repr_chars (q : ascii) (s : string) : string :=
  match s with
  | EmptyString => EmptyString
  | String c s' => repr_char q c +:+ repr_chars q s'
  end.

Fixpoint has_char (c : ascii) (s : string) : bool :=
  match s with
  | EmptyString => false
  | String a s' => Ascii.eqb a c || has_char c s'
  end.

Definition repr_str (s : string) : string :=
  let q := if has_char squote s && negb (has_char dquote s)
           then dquote else squote in
  String q (repr_chars q s +:+ String q EmptyString).

Fixpoint py_repr (v : value) : string :=
  match v with
  | VNone => "None"
  | VInt z => str_of_Z z
  | VStr s => repr_str s
  | VList l => "[" +:+ String.concat ", " (map py_repr l) +:+ "]"
  | VDict d =>
      "{" +:+
      String.concat ", "
        (map (fun kv => repr_str (fst kv) +:+ ": " +:+ py_repr (snd kv)) d)
      +:+ "}"
  end.

(** [str(v)], which is also how an f-string renders [v]. *)
Definition py_str (v : value) : string :=
  match v with
  | VStr s => s
  | _ => py_repr v
  end.

(** [s.strip()]. *)
Definition py_isspace (c : ascii) : bool :=
  let n := N_of_ascii c in
  ((9 <=? n) && (n <=? 13) || (28 <=? n) && (n <=? 32)
   || (n =? 133) || (n =? 160))%N.

Fixpoint py_lstrip (s : string) : string :=
  match s with
  | EmptyString => EmptyString
  | String c s' => if py_isspace c then py_lstrip s' else s
  end.

Definition string_rev (s : string) : string :=
  string_of_list_ascii (rev (list_ascii_of_string s)).

Definition py_strip (s : string) : string :=
  string_rev (py_lstrip (string_rev (py_lstrip s))).

(** ** Issue records

    The dictionaries [GitHubClient._extract_issue_data] builds
    (github_client.py, lines 284-317): every key is present, [closed_at]
    and [milestone] may be [None]. *)

Record comment : Type := {
  c_author : string;
  c_body : string;
  c_created_at : string;
  c_updated_at : string
}.

Record issue : Type := {
  number : Z;
  title : string;
  body : string;
  state : string;
  labels : list string;
  author : string;
  assignees : list string;
  created_at : string;
  updated_at : string;
  closed_at : option string;
  url : string;
  comments : list comment;
  milestone : option string
}.

Definition opt_str (o : option string) : value :=
  match o with Some s => VStr s | None => VNone end.

Definition comment_dict (c : comment) : dict :=
  [ ("author", VStr (c_author c));
    ("body", VStr (c_body c));
    ("created_at", VStr (c_created_at c));
    ("updated_at", VStr (c_updated_at c)) ].

Definition issue_dict (i : issue) : dict :=
  [ ("number", VInt (number i));
    ("title", VStr (title i));
    ("body", VStr (body i));
    ("state", VStr (state i));
    ("labels", VList (map VStr (labels i)));
    ("author", VStr (author i));
    ("assignees", VList (map VStr (assignees i)));
    ("created_at", VStr (created_at i));
    ("updated_at", VStr (updated_at i));
    ("closed_at", opt_str (closed_at i));
    ("url", VStr (url i));
    ("comments", VList (map (fun c => VDict (comment_dict c)) (comments i)));
    ("milestone", opt_str (milestone i)) ].

(** ** The canonical hasher: [IssueStorage._calculate_hash]
    (storage.py, lines 155-185) *)

Definition hash_comment (c : value) : result value :=
  a <- py_subscript c "author" ;;
  b <- py_subscript c "body" ;;
  t <- py_subscript c "created_at" ;;
  Ok (VDict [("author", a); ("body", b); ("created_at", t)]).

(** The dictionary [hash_data]; its values are evaluated in the order the
    source lists them. *)
Definition hash_data (issue_data : dict) : result value :=
  v_number <- py_getitem issue_data "number" ;;
  v_title <- py_getitem issue_data "title" ;;
  v_body <- py_getitem issue_data "body" ;;
  v_state <- py_getitem issue_data "state" ;;
  v_labels <- py_getitem issue_data "labels" ;;
  s_labels <- py_sorted v_labels ;;
  v_assignees <- py_getitem issue_data "assignees" ;;
  s_assignees <- py_sorted v_assignees ;;
  v_updated_at <- py_getitem issue_data "updated_at" ;;
  v_comments <- py_getitem issue_data "comments" ;;
  l_comments <- py_iter v_comments ;;
  h_comments <- rmap hash_comment l_comments ;;
  Ok (VDict
        [ ("number", v_number);
          ("title", v_title);
          ("body", v_body);
          ("state", v_state);
          ("labels", VList s_labels);
          ("assignees", VList s_assignees);
          ("updated_at", v_updated_at);
          ("comments", VList h_comments) ]).

Definition _calculate_hash (issue_data : dict) : result string :=
  hd <- hash_data issue_data ;;
  let json_str := json_dumps hd in
  Ok (sha256_hex json_str).

(** ** The disk

    A path is the list of its components below the working directory,
    which always exists. A file holds plain text, a complete JSON document
    (kept as the [value] that [json.load] reads back from what [json.dump]
    wrote), or the remains of a write that did not complete. A proper
    prefix of the text of a JSON object is never a JSON document, so
    [json.load] rejects such a file, as it rejects plain text.

    [faults] schedules what happens to the next [open(path, 'w')]: the
    head of the list is consumed by each of them; an empty list means
    that every write succeeds. *)

Abbreviation path := (list string).

Inductive fcontent : Type :=
| FText (s : string)
| FJson (v : value)
| FPartial.

Inductive fault : Type :=
| NoFault
| OpenFails      (* the file cannot be opened for writing: it is left alone *)
| WriteFails.    (* the file is truncated, then the write breaks off *)

Record world : Type := {
  dirs : gset path;
  files : gmap path fcontent;
  faults : list fault
}.

Definition IO (A : Type) : Type := world -> result A * world.

Definition io_ret {A} (a : A) : IO A := fun w => (Ok a, w).
Definition io_lift {A} (m : result A) : IO A := fun w => (m, w).
Definition io_bind {A B} (m : IO A) (k : A -> IO B) : IO B :=
  fun w =>
    match m w with
    | (Ok a, w') => k a w'
    | (Raise e, w') => (Raise e, w')
    end.

Notation "x <~ m ;; k" := (io_bind m (fun x => k))
  (at level 100, m at next level, right associativity).

Definition parent (p : path) : path := removelast p.

Definition is_dir (w : world) (p : path) : bool :=
  bool_decide (p = []) || bool_decide (p ∈ dirs w).

Definition is_file (w : world) (p : path) : bool :=
  match files w !! p with Some _ => true | None => false end.

(** [p.exists()] *)
Definition path_exists (p : path) : IO bool :=
  fun w => (Ok (is_dir w p || is_file w p), w).

Definition add_dir (p : path) (w : world) : world :=
  {| dirs := {[ p ]} ∪ dirs w; files := files w; faults := faults w |}.

(** [p.mkdir(exist_ok=True)]: no parents are created. *)
Definition mkdir_exist_ok (p : path) : IO unit :=
  fun w =>
    if is_dir w p then (Ok tt, w)
    else if is_file w p then (Raise FileExistsError, w)
    else if is_dir w (parent p) then (Ok tt, add_dir p w)
    else if is_file w (parent p) then (Raise NotADirectoryError, w)
    else (Raise FileNotFoundError, w).

(** [open(p, 'r')] and reading the whole file. *)
Definition read_file (p : path) : IO fcontent :=
  fun w =>
    match files w !! p with
    | Some c => (Ok c, w)
    | None =>
        if is_dir w p then (Raise IsADirectoryError, w)
        else (Raise FileNotFoundError, w)
    end.

(** [with open(p, 'w') as f: f.write(c)] (or [json.dump(..., f)]). *)
Definition write_file (p : path) (c : fcontent) : IO unit :=
  fun w =>
    if is_dir w p then (Raise IsADirectoryError, w)
    else if negb (is_dir w (parent p)) then
      (Raise (if is_file w (parent p) then NotADirectoryError
              else FileNotFoundError), w)
    else
      match faults w with
      | [] =>
          (Ok tt, {| dirs := dirs w; files := <[ p := c ]> (files w);
                     faults := [] |})
      | NoFault :: fs =>
          (Ok tt, {| dirs := dirs w; files := <[ p := c ]> (files w);
                     faults := fs |})
      | OpenFails :: fs =>
          (Raise OSError, {| dirs := dirs w; files := files w; faults := fs |})
      | WriteFails :: fs =>
          (Raise OSError, {| dirs := dirs w;
                             files := <[ p := FPartial ]> (files w);
                             faults := fs |})
      end.

(** [json.load(f)] *)
Definition json_load (c : fcontent) : result value :=
  match c with
  | FJson v => Ok v
  | _ => Raise JSONDecodeError
  end.

(** [base / name] for a name without a separator. ([pathlib] drops an
    empty or ["."] component; the parent directory [".."] is not
    modelled.) *)
Definition path_join (p : path) (name : string) : path :=
  if String.eqb name "" || String.eqb name "." then p else p ++ [name].

(** [str(p)] *)
Definition path_str (p : path) : string :=
  match p with
  | [] => "."
  | _ => String.concat "/" p
  end.

(** [s.replace(a, b)] for single characters. *)
Fixpoint replace_char (a b : ascii) (s : string) : string :=
  match s with
  | EmptyString => EmptyString
  | String c s' =>
      String (if Ascii.eqb c a then b else c) (replace_char a b s')
  end.

(** ** [IssueStorage] (storage.py) *)

Section Storage.

(** [yaml.dump(data, default_flow_style=False, allow_unicode=True)] *)
Variable yaml_dump : value -> string.

Record IssueStorage : Type := { base_dir : path }.

(** [IssueStorage(base_dir)], lines 14-21 *)
Definition __init__ (base : path) : IO IssueStorage :=
  _ <~ mkdir_exist_ok base ;;
  io_ret {| base_dir := base |}.

Definition repo_dir_name (repo_name : string) : string :=
  replace_char "/" "-" repo_name.

(** Two identifiers agree up to the separator: they have the same length
    and, position by position, the characters are equal or each of them is
    a slash or a hyphen. *)
Definition is_separator (c : ascii) : bool :=
  Ascii.eqb c "/" || Ascii.eqb c "-".

Fixpoint same_up_to_separator (a b : string) : bool :=
  match a, b with
  | EmptyString, EmptyString => true
  | String x a', String y b' =>
      (Ascii.eqb x y || (is_separator x && is_separator y))
      && same_up_to_separator a' b'
  | _, _ => false
  end.

(** lines 23-36 *)
Definition get_repo_dir (self : IssueStorage) (repo_name : string) : IO path :=
  let repo_dir := path_join (base_dir self) (repo_dir_name repo_name) in
  _ <~ mkdir_exist_ok repo_dir ;;
  io_ret repo_dir.

Definition issue_file_name (n : Z) : string :=
  "issue-" +:+ str_of_Z n +:+ ".md".

(** [bool(x)] for [x = issue_data.get(key)] on an optional string. *)
Definition truthy (o : option string) : bool :=
  match o with
  | Some s => negb (String.eqb s "")
  | None => false
  end.

(** lines 64-116 *)
Definition _generate_markdown (issue_data : issue) : string :=
  let frontmatter :=
    [ ("number", VInt (number issue_data));
      ("title", VStr (title issue_data));
      ("state", VStr (state issue_data));
      ("labels", VList (map VStr (labels issue_data)));
      ("author", VStr (author issue_data));
      ("created_at", VStr (created_at issue_data));
      ("updated_at", VStr (updated_at issue_data));
      ("assignees", VList (map VStr (assignees issue_data)));
      ("url", VStr (url issue_data)) ] in
  let frontmatter :=
    if truthy (closed_at issue_data)
    then dict_set "closed_at" (opt_str (closed_at issue_data)) frontmatter
    else frontmatter in
  let frontmatter :=
    if truthy (milestone issue_data)
    then dict_set "milestone" (opt_str (milestone issue_data)) frontmatter
    else frontmatter in
  let lines :=
    [ "---"; py_strip (yaml_dump (VDict frontmatter)); "---"; "";
      "# " +:+ title issue_data; "" ] in
  let lines :=
    if negb (String.eqb (body issue_data) "")
    then lines ++ [body issue_data; ""] else lines in
  let lines :=
    match comments issue_data with
    | [] => lines
    | cs =>
        lines ++ ["## Comments"; ""] ++
        flat_map
          (fun c =>
             [ "### Comment by " +:+ c_author c +:+ " on " +:+ c_created_at c;
               ""; c_body c; "" ])
          cs
    end in
  String.concat "
" lines.

Definition metadata_entry (issue_hash : string) (issue_data : issue) : value :=
  VDict [ ("hash", VStr issue_hash);
          ("updated_at", VStr (updated_at issue_data));
          ("state", VStr (state issue_data)) ].

(** lines 118-153 *)
Definition _update_metadata (self : IssueStorage) (repo_name : string)
    (issue_data : issue) : IO unit :=
  repo_dir <~ get_repo_dir self repo_name ;;
  let metadata_file := path_join repo_dir ".metadata.json" in
  ex <~ path_exists metadata_file ;;
  metadata <~ (if ex : bool
               then (c <~ read_file metadata_file ;; io_lift (json_load c))
               else io_ret (VDict [])) ;;
  has_filters <~ io_lift (py_contains metadata "filters") ;;
  metadata <~ (if has_filters : bool then io_ret metadata
               else io_lift (py_setitem metadata "filters" (VDict []))) ;;
  has_issues <~ io_lift (py_contains metadata "issues") ;;
  metadata <~ (if has_issues : bool then io_ret metadata
               else io_lift (py_setitem metadata "issues" (VDict []))) ;;
  issue_hash <~ io_lift (_calculate_hash (issue_dict issue_data)) ;;
  let issue_number := str_of_Z (number issue_data) in
  issues <~ io_lift (py_subscript metadata "issues") ;;
  issues <~ io_lift (py_setitem issues issue_number
                       (metadata_entry issue_hash issue_data)) ;;
  metadata <~ io_lift (py_setitem metadata "issues" issues) ;;
  write_file metadata_file (FJson metadata).

(** lines 38-62 *)
Definition save_issue (self : IssueStorage) (repo_name : string)
    (issue_data : issue) : IO string :=
  repo_dir <~ get_repo_dir self repo_name ;;
  let issue_number := number issue_data in
  let file_path := path_join repo_dir (issue_file_name issue_number) in
  let markdown_content := _generate_markdown issue_data in
  _ <~ write_file file_path (FText markdown_content) ;;
  _ <~ _update_metadata self repo_name issue_data ;;
  io_ret (path_str file_path).

Definition empty_metadata : value :=
  VDict [("filters", VDict []); ("issues", VDict [])].

Definition reserved (k : string) : bool :=
  String.eqb k "filters" || String.eqb k "issues".

(** lines 187-215 *)
Definition load_metadata (self : IssueStorage) (repo_name : string) : IO value :=
  repo_dir <~ get_repo_dir self repo_name ;;
  let metadata_file := path_join repo_dir ".metadata.json" in
  ex <~ path_exists metadata_file ;;
  if ex : bool then
    c <~ read_file metadata_file ;;
    metadata <~ io_lift (json_load c) ;;
    has_filters <~ io_lift (py_contains metadata "filters") ;;
    if has_filters : bool then io_ret metadata
    else
      items <~ io_lift (py_items metadata) ;;
      let old_issues :=
        List.filter (fun kv => negb (reserved (fst kv))) items in
      io_ret (VDict [("filters", VDict []); ("issues", VDict old_issues)])
  else io_ret empty_metadata.

(** lines 217-235 *)
Definition save_filters (self : IssueStorage) (repo_name : string)
    (filters : value) : IO unit :=
  repo_dir <~ get_repo_dir self repo_name ;;
  let metadata_file := path_join repo_dir ".metadata.json" in
  metadata <~ load_metadata self repo_name ;;
  metadata <~ io_lift (py_setitem metadata "filters" filters) ;;
  write_file metadata_file (FJson metadata).

(** lines 237-247 *)
Definition load_filters (self : IssueStorage) (repo_name : string) : IO value :=
  metadata <~ load_metadata self repo_name ;;
  io_lift (py_get metadata "filters" (VDict [])).

(** lines 249-261 *)
Definition issue_exists (self : IssueStorage) (repo_name : string)
    (issue_number : Z) : IO bool :=
  repo_dir <~ get_repo_dir self repo_name ;;
  let file_path := path_join repo_dir (issue_file_name issue_number) in
  path_exists file_path.

End Storage.

(** ** [ChangeTracker] (tracker.py) *)

Record ChangeTracker : Type := { storage : IssueStorage }.

(** The dictionary [changes] that [detect_changes] returns: the issues of
    ['new'], the [{'issue': ..., 'changes': ...}] pairs of ['updated'] and
    the numbers of ['unchanged'], each in the order of appending. *)
Record changes : Type := {
  new : list issue;
  updated : list (issue * list string);
  unchanged : list Z
}.

(** lines 69-99 *)
Definition _detect_issue_changes (repo_name : string) (current_issue : issue)
    (stored_metadata : value) : result (list string) :=
  stored_state <- py_get stored_metadata "state" VNone ;;
  changes <-
    (if negb (py_eq stored_state (VStr (state current_issue))) then
       old_state <- py_get stored_metadata "state" (VStr "unknown") ;;
       let new_state := state current_issue in
       Ok [ "State changed from '" +:+ py_str old_state +:+ "' to '"
            +:+ new_state +:+ "'" ]
     else Ok []) ;;
  stored_updated_at <- py_get stored_metadata "updated_at" VNone ;;
  let changes :=
    if negb (py_eq stored_updated_at (VStr (updated_at current_issue)))
    then changes ++ ["Updated at " +:+ updated_at current_issue]
    else changes in
  let changes :=
    match changes with
    | [] => ["Content modified"]
    | _ => changes
    end in
  Ok changes.

(** One turn of the loop of lines 44-65. *)
Definition detect_step (repo_name : string) (stored_issues : value)
    (stored_issue_numbers : list string) (acc : changes) (i : issue)
  : result changes :=
  let issue_number := str_of_Z (number i) in
  current_hash <- _calculate_hash (issue_dict i) ;;
  if negb (existsb (String.eqb issue_number) stored_issue_numbers) then
    Ok {| new := new acc ++ [i]; updated := updated acc;
          unchanged := unchanged acc |}
  else
    entry <- py_subscript stored_issues issue_number ;;
    stored_hash <- py_get entry "hash" VNone ;;
    if negb (py_eq (VStr current_hash) stored_hash) then
      entry' <- py_subscript stored_issues issue_number ;;
      change_details <- _detect_issue_changes repo_name i entry' ;;
      Ok {| new := new acc; updated := updated acc ++ [(i, change_details)];
            unchanged := unchanged acc |}
    else
      n <- py_int issue_number ;;
      Ok {| new := new acc; updated := updated acc;
            unchanged := unchanged acc ++ [n] |}.

Fixpoint detect_loop (repo_name : string) (stored_issues : value)
    (stored_issue_numbers : list string) (acc : changes)
    (current_issues : list issue) : result changes :=
  match current_issues with
  | [] => Ok acc
  | i :: rest =>
      acc' <- detect_step repo_name stored_issues stored_issue_numbers acc i ;;
      detect_loop repo_name stored_issues stored_issue_numbers acc' rest
  end.

(** lines 18-67. ([current_issue_numbers], line 36, is computed and never
    read.) *)
Definition detect_changes (self : ChangeTracker) (repo_name : string)
    (current_issues : list issue) : IO changes :=
  metadata <~ load_metadata (storage self) repo_name ;;
  stored_issues <~ io_lift (py_get metadata "issues" (VDict [])) ;;
  stored_issue_numbers <~ io_lift (py_keys stored_issues) ;;
  io_lift
    (detect_loop repo_name stored_issues stored_issue_numbers
       {| new := []; updated := []; unchanged := [] |} current_issues).

(** ** What the hasher computes on an issue record *)

(** [sorted] on a list of strings, as [py_sort_into] performs it. *)
Fixpoint insert_str (x : string) (l : list string) : list string :=
  match l with
  | [] => [x]
  | y :: l' => if String.ltb x y then x :: y :: l' else y :: insert_str x l'
  end.

Fixpoint sort_into (acc l : list string) : list string :=
  match l with
  | [] => acc
  | x :: l' => sort_into (insert_str x acc) l'
  end.

Definition sort_strings (l : list string) : list string := sort_into [] l.

(** The three fields of a comment that are hashed. *)
Definition hashed_comment (c : comment) : string * string * string :=
  (c_author c, c_body c, c_created_at c).

Definition hashed_comment_value (t : string * string * string) : value :=
  VDict [ ("author", VStr (fst (fst t)));
          ("body", VStr (snd (fst t)));
          ("created_at", VStr (snd t)) ].

(** The value of [hash_data] for an issue record. *)
Definition issue_hash_data (i : issue) : value :=
  VDict
    [ ("number", VInt (number i));
      ("title", VStr (title i));
      ("body", VStr (body i));
      ("state", VStr (state i));
      ("labels", VList (map VStr (sort_strings (labels i))));
      ("assignees", VList (map VStr (sort_strings (assignees i))));
      ("updated_at", VStr (updated_at i));
      ("comments",
        VList (map (fun c => hashed_comment_value (hashed_comment c))
                 (comments i))) ].

(** The text whose SHA-256 digest is the fingerprint. *)
Definition hash_message (i : issue) : string := json_dumps (issue_hash_data i).

Definition fingerprint (i : issue) : string := sha256_hex (hash_message i).

(** Record updates used to state what a change of one field does. *)
Definition with_labels (l : list string) (i : issue) : issue :=
  {| number := number i; title := title i; body := body i; state := state i;
     labels := l; author := author i; assignees := assignees i;
     created_at := created_at i; updated_at := updated_at i;
     closed_at := closed_at i; url := url i; comments := comments i;
     milestone := milestone i |}.




(** ** Auxiliary definitions for the proofs *)




(** The rendering of the dictionary kept for a comment. *)
Definition json_comment (t : string * string * string) : string :=
  "{" +:+ json_quote "author" +:+ ": " +:+ json_quote (fst (fst t)) +:+ ", "
  +:+ json_quote "body" +:+ ": " +:+ json_quote (snd (fst t)) +:+ ", "
  +:+ json_quote "created_at" +:+ ": " +:+ json_quote (snd t) +:+ "}".

(** Everything the fingerprint of an issue record depends on. *)
Definition hashed_fields (i : issue) :=
  (number i, title i, body i, state i, sort_strings (labels i),
   sort_strings (assignees i), updated_at i, map hashed_comment (comments i)).

(** The keys [_calculate_hash] reads from the issue dictionary. *)
Definition hashed_keys : list string :=
  ["number"; "title"; "body"; "state"; "labels"; "assignees"; "updated_at";
   "comments"].

Definition with_comments (cs : list comment) (i : issue) : issue :=
  {| number := number i; title := title i; body := body i; state := state i;
     labels := labels i; author := author i; assignees := assignees i;
     created_at := created_at i; updated_at := updated_at i;
     closed_at := closed_at i; url := url i; comments := cs;
     milestone := milestone i |}.

(** An issue dictionary from which the key ['body'] is missing. *)
Definition record_without_body : dict :=
  [ ("number", VInt 1); ("title", VStr "Bug"); ("state", VStr "open");
    ("labels", VList []); ("assignees", VList []);
    ("updated_at", VStr "2024-01-01T00:00:00"); ("comments", VList []) ].

(** The three change descriptors of [_detect_issue_changes]. *)
Definition state_descriptor (old_state new_state : string) : string :=
  "State changed from '" +:+ old_state +:+ "' to '" +:+ new_state +:+ "'".

Definition updated_descriptor (timestamp : string) : string :=
  "Updated at " +:+ timestamp.

Definition content_descriptor : string := "Content modified".

(** [stored.get(key)]: [None] when the key is absent. *)
Definition stored_field (entry : dict) (key : string) : value :=
  match dict_get key entry with Some v => v | None => VNone end.

(** How the stored state is shown: [stored.get('state', 'unknown')]. *)
Definition stored_state_text (entry : dict) : string :=
  match dict_get "state" entry with
  | Some v => py_str v
  | None => "unknown"
  end.

(** The descriptors of an issue against its stored entry: the state
    descriptor and the timestamp descriptor, each when its field differs,
    or the generic one when neither does. *)
Definition descriptors (entry : dict) (i : issue) : list string :=
  let state_differs :=
    negb (py_eq (stored_field entry "state") (VStr (state i))) in
  let updated_differs :=
    negb (py_eq (stored_field entry "updated_at") (VStr (updated_at i))) in
  if state_differs || updated_differs
  then (if state_differs
        then [state_descriptor (stored_state_text entry) (state i)] else [])
       ++ (if updated_differs
           then [updated_descriptor (updated_at i)] else [])
  else [content_descriptor].

(** The three classes of the change classification. *)
Inductive bucket : Type := New | Updated | Unchanged.

Definition bucket_eqb (a b : bucket) : bool :=
  match a, b with
  | New, New | Updated, Updated | Unchanged, Unchanged => true
  | _, _ => false
  end.

(** The class of an issue against the stored entries: New when its number
    has no entry, Unchanged when the entry's ['hash'] is the issue's
    fingerprint, Updated otherwise. *)
Definition classify (stored : dict) (i : issue) : bucket :=
  match dict_get (str_of_Z (number i)) stored with
  | None => New
  | Some (VDict entry) =>
      match dict_get "hash" entry with
      | Some (VStr h) =>
          if String.eqb (fingerprint i) h then Unchanged else Updated
      | _ => Updated
      end
  | Some _ => Updated
  end.

Definition in_bucket (stored : dict) (b : bucket) (i : issue) : bool :=
  bucket_eqb (classify stored i) b.

(** Every stored entry is a dictionary. *)
Definition entries_are_dicts (stored : dict) : Prop :=
  Forall (fun kv => exists entry, snd kv = VDict entry) stored.

(** The descriptors recorded for an updated issue. *)
Definition change_details (repo_name : string) (stored : dict) (i : issue)
  : list string :=
  match dict_get (str_of_Z (number i)) stored with
  | Some entry =>
      match _detect_issue_changes repo_name i entry with
      | Ok l => l
      | Raise _ => []
      end
  | None => []
  end.

(** Appending an issue to the bucket of its class. *)
Definition place (repo_name : string) (stored : dict) (acc : changes)
    (i : issue) : changes :=
  match classify stored i with
  | New =>
      {| new := new acc ++ [i]; updated := updated acc;
         unchanged := unchanged acc |}
  | Updated =>
      {| new := new acc;
         updated := updated acc ++ [(i, change_details repo_name stored i)];
         unchanged := unchanged acc |}
  | Unchanged =>
      {| new := new acc; updated := updated acc;
         unchanged := unchanged acc ++ [number i] |}
  end.

(** Where the store of a repository lives. *)
Definition repo_path (self : IssueStorage) (repo_name : string) : path :=
  path_join (base_dir self) (repo_dir_name repo_name).

Definition metadata_path (self : IssueStorage) (repo_name : string) : path :=
  path_join (repo_path self repo_name) ".metadata.json".

Definition issue_path (self : IssueStorage) (repo_name : string) (n : Z)
  : path :=
  path_join (repo_path self repo_name) (issue_file_name n).

(** A disk on which whatever exists lies in a directory, and nothing is
    both a file and a directory. *)
Definition wf_world (w : world) : Prop :=
  forall q,
    (is_dir w q = true \/ is_file w q = true -> is_dir w (parent q) = true) /\
    (is_dir w q = true -> is_file w q = false).

(** What [_update_metadata] makes of the metadata it has read (lines
    134-149). *)
Definition update_metadata_value (metadata : value) (issue_data : issue)
  : result value :=
  has_filters <- py_contains metadata "filters" ;;
  metadata <- (if has_filters : bool then Ok metadata
               else py_setitem metadata "filters" (VDict [])) ;;
  has_issues <- py_contains metadata "issues" ;;
  metadata <- (if has_issues : bool then Ok metadata
               else py_setitem metadata "issues" (VDict [])) ;;
  issue_hash <- _calculate_hash (issue_dict issue_data) ;;
  let issue_number := str_of_Z (number issue_data) in
  issues <- py_subscript metadata "issues" ;;
  issues <- py_setitem issues issue_number
              (metadata_entry issue_hash issue_data) ;;
  py_setitem metadata "issues" issues.

(** The metadata [_update_metadata] starts from: the document on disk, or
    an empty dictionary when there is none. *)
Definition read_metadata (metadata_file : path) : IO value :=
  ex <~ path_exists metadata_file ;;
  if ex : bool
  then (c <~ read_file metadata_file ;; io_lift (json_load c))
  else io_ret (VDict []).


(** ** Concrete stores and issues for the examples *)

(** A YAML rendering for the examples, none of which depends on it (a
    JSON text is a YAML document). *)
Definition example_yaml_dump (v : value) : string := json_dumps v.

Definition example_storage : IssueStorage := {| base_dir := ["issues"] |}.
Definition example_tracker : ChangeTracker := {| storage := example_storage |}.
Definition example_repo : string := "acme/widgets".

Definition example_comment : comment :=
  {| c_author := "bob"; c_body := "Same here.";
     c_created_at := "2024-01-01T10:00:00";
     c_updated_at := "2024-01-01T10:00:00" |}.

Definition example_reply : comment :=
  {| c_author := "alice"; c_body := "Fixed in main.";
     c_created_at := "2024-01-02T09:30:00";
     c_updated_at := "2024-01-02T09:30:00" |}.

Definition example_issue (n : Z) (the_title the_state : string) : issue :=
  {| number := n; title := the_title; body := "It crashes on start.";
     state := the_state; labels := ["ui"; "bug"]; author := "alice";
     assignees := ["carol"; "bob"];
     created_at := "2024-01-01T09:00:00";
     updated_at := "2024-01-02T09:30:00"; closed_at := None;
     url := "https://github.com/acme/widgets/issues";
     comments := [example_comment; example_reply]; milestone := None |}.

Definition issue_1 : issue := example_issue 1 "Bug" "open".
Definition issue_2 : issue := example_issue 2 "Crash" "open".
Definition issue_3 : issue := example_issue 3 "Typo" "closed".

Definition empty_disk : world :=
  {| dirs := ∅; files := ∅; faults := [] |}.

Definition with_faults (fs : list fault) (w : world) : world :=
  {| dirs := dirs w; files := files w; faults := fs |}.

Definition with_file (p : path) (c : fcontent) (w : world) : world :=
  {| dirs := dirs w; files := <[ p := c ]> (files w); faults := faults w |}.

(** A disk with the base directory alone. *)
Definition base_only_disk : world := add_dir ["issues"] empty_disk.

(** A disk on which the repository directory exists and is empty. *)
Definition fresh_store : world :=
  add_dir ["issues"; "acme-widgets"] (add_dir ["issues"] empty_disk).

(** A store in the current format: issue 1 as it is now, issue 2 with
    another hash. *)
Definition current_entries : dict :=
  [ ("1", metadata_entry (fingerprint issue_1) issue_1);
    ("2", VDict [ ("hash", VStr "0000");
                   ("updated_at", VStr "2023-12-31T00:00:00");
                   ("state", VStr "closed") ]) ].

Definition current_metadata : dict :=
  [ ("filters", VDict [("state", VStr "all")]);
    ("issues", VDict current_entries) ].

Definition current_store : world :=
  with_file ["issues"; "acme-widgets"; ".metadata.json"]
    (FJson (VDict current_metadata)) fresh_store.

(** A store in the legacy flat format, with one entry. *)
Definition legacy_store : world :=
  with_file ["issues"; "acme-widgets"; ".metadata.json"]
    (FJson (VDict [("1", metadata_entry (fingerprint issue_1) issue_1)]))
    fresh_store.

(** Atomicity of one save: afterwards the files are those before the
    save, or those a save without faults leads to. *)
Definition save_is_atomic (yaml_dump : value -> string) (self : IssueStorage)
    (repo_name : string) (i : issue) (w : world) : Prop :=
  let after := snd (save_issue yaml_dump self repo_name i w) in
  let complete :=
    snd (save_issue yaml_dump self repo_name i (with_faults [] w)) in
  files after = files w \/ files after = files complete.

(** ** More of Python: truth values, [int] on any text, [split], [join] *)

(** [bool(v)] *)
Definition py_truthy (v : value) : bool :=
  match v with
  | VNone => false
  | VInt z => negb (z =? 0)
  | VStr s => negb (String.eqb s "")
  | VList [] => false
  | VList (_ :: _) => true
  | VDict [] => false
  | VDict (_ :: _) => true
  end.

Definition is_digit (c : ascii) : bool :=
  ((48 <=? N_of_ascii c) && (N_of_ascii c <=? 57))%N.

(** The digits of a decimal literal, without the underscores: a literal
    is a digit followed by digits, with single underscores allowed
    between two digits. [after_digit] tells that the previous character
    was a digit. *)
Fixpoint literal_digits (after_digit : bool) (s : string) : option string :=
  match s with
  | EmptyString => if after_digit then Some EmptyString else None
  | String c r =>
      if is_digit c then option_map (String c) (literal_digits true r)
      else if Ascii.eqb c "_" && after_digit then literal_digits false r
      else None
  end.

(** The blanks [int] drops around a literal: the white space of ASCII as
    C has it (9 to 13 and 32), and the blanks outside ASCII (133 and 160
    below 256), which [int] turns into spaces first. The separators 28 to
    31, which [str.strip] drops, are no blanks here: [int('\x1c5')]
    raises. *)
Definition int_blank (c : ascii) : bool :=
  let n := N_of_ascii c in
  ((9 <=? n) && (n <=? 13) || (n =? 32) || (n =? 133) || (n =? 160))%N.

Fixpoint lstrip_blanks (s : string) : string :=
  match s with
  | EmptyString => EmptyString
  | String c s' => if int_blank c then lstrip_blanks s' else s
  end.

Definition strip_blanks (s : string) : string :=
  string_rev (lstrip_blanks (string_rev (lstrip_blanks s))).

(** [int(s)] on an arbitrary text: surrounding blanks are dropped, one
    sign is allowed, then a decimal literal; anything else raises
    [ValueError]. (The bound that recent interpreters put on the number
    of digits, 4300 unless configured otherwise, is not modelled, as it is
    not for [str].) *)
Definition int_of_text (s : string) : result Z :=
  let t := strip_blanks s in
  let signed :=
    match t with
    | String c r =>
        if Ascii.eqb c "-" then (true, r)
        else if Ascii.eqb c "+" then (false, r)
        else (false, t)
    | EmptyString => (false, t)
    end in
  match literal_digits false (snd signed) with
  | Some ds =>
      match NilEmpty.uint_of_string ds with
      | Some d => Ok (if fst signed : bool then - Z.of_uint d else Z.of_uint d)
      | None => Raise ValueError
      end
  | None => Raise ValueError
  end.

(** [s.split(sep)] for a one-character separator: the pieces between the
    separators, at least one. *)
Fixpoint py_split (sep : ascii) (s : string) : list string :=
  match s with
  | EmptyString => [EmptyString]
  | String c r =>
      if Ascii.eqb c sep then EmptyString :: py_split sep r
      else
        match py_split sep r with
        | piece :: pieces => String c piece :: pieces
        | [] => [String c EmptyString]
        end
  end.

(** [sep.join(l)]: every element has to be a string. *)
Definition py_join (sep : string) (l : list value) : result string :=
  strs <- rmap (fun x => match x with
                         | VStr s => Ok s
                         | _ => Raise TypeError
                         end) l ;;
  Ok (String.concat sep strs).

(** ** Listing a directory *)

(** The name of [q] when [q] lies directly in the directory [p]. *)
Definition child_name (p q : path) : option string :=
  match q with
  | [] => None
  | _ :: _ =>
      if bool_decide (removelast q = p) then Some (List.last q "") else None
  end.

(** The names of the files and directories in [p], in the order the
    system lists them (any order: the model takes that of the sets). *)
Definition listdir (p : path) (w : world) : list string :=
  omap (child_name p) (elements (dirs w ∪ dom (files w))).

(** [s] is [p] followed by the result. *)
Fixpoint drop_prefix (p s : string) : option string :=
  match p, s with
  | EmptyString, _ => Some s
  | String a p', String b s' =>
      if Ascii.eqb a b then drop_prefix p' s' else None
  | String _ _, EmptyString => None
  end.

Fixpoint suffixb (p s : string) : bool :=
  String.eqb p s ||
  match s with
  | EmptyString => false
  | String _ s' => suffixb p s'
  end.

(** [fnmatch(name, pre + '*' + post)] for [pre] and [post] without
    wildcards, on a system that distinguishes the case of letters. *)
Definition fnmatch_star (pre post name : string) : bool :=
  match drop_prefix pre name with
  | Some rest => suffixb post rest
  | None => false
  end.

(** [p.glob(pre + '*' + post)]: the entries of [p] whose name matches. *)
Definition glob_star (p : path) (pre post : string) : IO (list string) :=
  fun w => (Ok (List.filter (fnmatch_star pre post) (listdir p w)), w).

(** The text before the last occurrence of [c] and the text after it. *)
Fixpoint rpartition (c : ascii) (s : string) : option (string * string) :=
  match s with
  | EmptyString => None
  | String a r =>
      match rpartition c r with
      | Some (before, after) => Some (String a before, after)
      | None => if Ascii.eqb a c then Some (EmptyString, r) else None
      end
  end.

(** [PurePath.stem]: the name without its last suffix; a dot that opens
    or closes the name starts no suffix. *)
Definition path_stem (name : string) : string :=
  match rpartition "." name with
  | Some (before, after) =>
      if String.eqb before "" || String.eqb after "" then name else before
  | None => name
  end.

(** ** [IssueStorage], continued (storage.py) *)

(** [int(file_path.stem.split('-')[1])] of lines 279-283, [None] when the
    subscript or the conversion raises, in which case the loop goes on
    to the next file. *)
Definition issue_number_of_name (name : string) : option Z :=
  match nth_error (py_split "-" (path_stem name)) 1 with
  | Some piece =>
      match int_of_text piece with
      | Ok n => Some n
      | Raise _ => None
      end
  | None => None
  end.

(** lines 263-285 *)
Definition get_all_issue_numbers (self : IssueStorage) (repo_name : string)
  : IO (list Z) :=
  repo_dir <~ get_repo_dir self repo_name ;;
  ex <~ path_exists repo_dir ;;
  if negb ex then io_ret []
  else
    names <~ glob_star repo_dir "issue-" ".md" ;;
    let issue_numbers := omap issue_number_of_name names in
    io_ret (merge_sort Z.le issue_numbers).

(** ** [ChangeTracker], continued (tracker.py) *)

(** lines 101-117 *)
Definition get_deleted_issues (self : ChangeTracker) (repo_name : string)
    (current_issues : list issue) : IO (list Z) :=
  metadata <~ load_metadata (storage self) repo_name ;;
  stored_issues <~ io_lift (py_get metadata "issues" (VDict [])) ;;
  keys <~ io_lift (py_keys stored_issues) ;;
  numbers <~ io_lift (rmap int_of_text keys) ;;
  let stored_issue_numbers : gset Z := list_to_set numbers in
  let current_issue_numbers : gset Z :=
    list_to_set (map number current_issues) in
  let deleted := elements (stored_issue_numbers ∖ current_issue_numbers) in
  io_ret (merge_sort Z.le deleted).

(** ** The commands (cli.py) *)

(** The parts shown for the stored filters, lines 283-293; they are
    joined with [', '] and printed. *)
Definition filter_parts (filters : value) : result (list string) :=
  author <- py_get filters "author" VNone ;;
  let filter_parts :=
    if py_truthy author then ["author=" +:+ py_str author] else [] in
  assignee <- py_get filters "assignee" VNone ;;
  let filter_parts :=
    if py_truthy assignee
    then filter_parts ++ ["assignee=" +:+ py_str assignee]
    else filter_parts in
  state <- py_get filters "state" VNone ;;
  let filter_parts :=
    if py_truthy state && negb (py_eq state (VStr "all"))
    then filter_parts ++ ["state=" +:+ py_str state]
    else filter_parts in
  labels <- py_get filters "labels" VNone ;;
  if py_truthy labels then
    labels_str <- match labels with
                  | VList l => py_join "," l
                  | _ => Ok (py_str labels)
                  end ;;
    Ok (filter_parts ++ ["labels=" +:+ labels_str])
  else Ok filter_parts.

Section Commands.

Variable yaml_dump : value -> string.

(** [github_client.fetch_issues(repo_name, filters)]: the issues the
    service answers with, or the exception of the client. *)
Variable fetch_issues : string -> value -> result (list issue).

(** [for issue in issues: storage.save_issue(repo_name, issue)] *)
Fixpoint save_all (storage : IssueStorage) (repo_name : string)
    (issues : list issue) : IO unit :=
  match issues with
  | [] => io_ret tt
  | i :: rest =>
      _ <~ save_issue yaml_dump storage repo_name i ;;
      save_all storage repo_name rest
  end.

(** The body of the loop of [run] for one repository, lines 193-207: the
    number of issues fetched and saved. *)
Definition run_repository (storage : IssueStorage) (filters : value)
    (repo_name : string) : IO nat :=
  issues <~ io_lift (fetch_issues repo_name filters) ;;
  _ <~ (if py_truthy filters then save_filters storage repo_name filters
        else io_ret tt) ;;
  _ <~ save_all storage repo_name issues ;;
  io_ret (length issues).

(** The body of the loop of [update] for one repository, lines 271-313;
    the tracker is built on the storage that saves (lines 249-250).
    What is printed is left out. *)
Definition update_repository (tracker : ChangeTracker) (repo_name : string)
  : IO changes :=
  let storage := storage tracker in
  filters <~ load_filters storage repo_name ;;
  current_issues <~ io_lift (fetch_issues repo_name filters) ;;
  _ <~ io_lift (if py_truthy filters then filter_parts filters else Ok []) ;;
  changes <~ detect_changes tracker repo_name current_issues ;;
  let issues_to_save := new changes ++ map fst (updated changes) in
  _ <~ save_all storage repo_name issues_to_save ;;
  io_ret changes.

(** One turn of the loop of [update], lines 266-319: a repository whose
    pass raises is recorded with an empty classification, and the loop
    goes on. *)
Definition update_turn (tracker : ChangeTracker) (repo_name : string)
  : IO changes :=
  fun w =>
    match update_repository tracker repo_name w with
    | (Ok changes, w') => (Ok changes, w')
    | (Raise _, w') =>
        (Ok {| new := []; updated := []; unchanged := [] |}, w')
    end.

End Commands.

(** ** Stores in the current format *)

(** The metadata document of the repository, if there is one, is a
    dictionary with the key ['filters']: it is not in the legacy flat
    format, and it can be parsed. *)
Definition current_format (self : IssueStorage) (repo_name : string)
    (w : world) : Prop :=
  forall c, files w !! metadata_path self repo_name = Some c ->
    exists md, c = FJson (VDict md) /\ dict_mem "filters" md = true.

(** The store holds the filters [filters] and the entries [issues]: there
    is no metadata document and both are empty, or the document is a
    dictionary with [filters] under ['filters'] and with [issues] under
    ['issues'] (no entries when that key is absent). *)
Definition stored_as (self : IssueStorage) (repo_name : string) (w : world)
    (filters : value) (issues : dict) : Prop :=
  match files w !! metadata_path self repo_name with
  | None =>
      is_dir w (metadata_path self repo_name) = false /\
      filters = VDict [] /\ issues = []
  | Some (FJson (VDict md)) =>
      dict_get "filters" md = Some filters /\
      match dict_get "issues" md with
      | Some v => v = VDict issues
      | None => issues = []
      end
  | Some _ => False
  end.

(** The entries after the issues [l] have been recorded one by one. *)
Definition record_all (l : list issue) (issues : dict) : dict :=
  fold_left
    (fun acc i =>
       dict_set (str_of_Z (number i)) (metadata_entry (fingerprint i) i) acc)
    l issues.

(** The classification in which every issue of [l] is unchanged. *)
Definition all_unchanged (l : list issue) : changes :=
  {| new := []; updated := []; unchanged := map number l |}.

(** An operation that leaves the disk as it is, whatever it returns. *)
Definition read_only {A} (m : IO A) : Prop := forall w, snd (m w) = w.

(** An operation that writes no file and consumes no fault, and creates
    no directory other than [p]. *)
Definition creates_at_most {A} (p : path) (m : IO A) : Prop :=
  forall w,
    files (snd (m w)) = files w /\ faults (snd (m w)) = faults w /\
    (snd (m w) = w \/ snd (m w) = add_dir p w).

(** A digit of lower-case hexadecimal notation. *)
Definition is_lower_hex (c : ascii) : bool :=
  is_digit c || ((97 <=? N_of_ascii c) && (N_of_ascii c <=? 102))%N.

(** An operation that, whatever it returns or raises, changes no file
    outside [P], removes no file and removes no directory. *)
Definition confined_to {A} (P : path -> Prop) (m : IO A) : Prop :=
  forall w,
    (forall q, ~ P q -> files (snd (m w)) !! q = files w !! q) /\
    (forall q, is_file w q = true -> is_file (snd (m w)) q = true) /\
    (forall q, is_dir w q = true -> is_dir (snd (m w)) q = true).

(** The files of the store of a repository: the metadata document and
    the documents of the issues. *)
Definition store_file (self : IssueStorage) (repo_name : string) (q : path)
  : Prop :=
  q = metadata_path self repo_name \/ exists n, q = issue_path self repo_name n.

(** ** More concrete stores and issues for the examples *)

(** A short issue, and the same issue seen later with another author,
    address and milestone. *)
Definition small_issue : issue :=
  {| number := 7; title := "Typo in README"; body := ""; state := "open";
     labels := []; author := "dave"; assignees := [];
     created_at := "2024-03-01T08:00:00";
     updated_at := "2024-03-01T08:00:00"; closed_at := None;
     url := "https://github.com/acme/widgets/issues/7";
     comments := []; milestone := None |}.

Definition small_issue_moved : issue :=
  {| number := 7; title := "Typo in README"; body := ""; state := "open";
     labels := []; author := "ghost"; assignees := [];
     created_at := "2024-03-01T08:00:01";
     updated_at := "2024-03-01T08:00:00"; closed_at := None;
     url := "https://github.com/acme/gadgets/issues/7";
     comments := []; milestone := Some "v2" |}.

(** A service that answers every request with the short issue. *)
Definition example_fetch (repo_name : string) (filters : value)
  : result (list issue) :=
  Ok [small_issue].

Definition example_filters : value :=
  VDict [("state", VStr "open"); ("labels", VList [VStr "docs"])].

(** A store in the current format with filters and no issue. *)
Definition filtered_store : world :=
  with_file ["issues"; "acme-widgets"; ".metadata.json"]
    (FJson (VDict [("filters", example_filters); ("issues", VDict [])]))
    fresh_store.

(** A store with the documents of the issues 1 and 3, two other files,
    and the entries of the issues 3, 1 and 10. *)
Definition listing_store : world :=
  with_file ["issues"; "acme-widgets"; "issue-3.md"] (FText "")
    (with_file ["issues"; "acme-widgets"; "issue-1.md"] (FText "")
       (with_file ["issues"; "acme-widgets"; "issue-draft.md"] (FText "")
          (with_file ["issues"; "acme-widgets"; "notes.md"] (FText "")
             (with_file ["issues"; "acme-widgets"; ".metadata.json"]
                (FJson (VDict [ ("filters", VDict []);
                                ("issues",
                                 VDict [ ("3", VDict []); ("1", VDict []);
                                         ("10", VDict []) ]) ]))
                fresh_store)))).

(** A store whose metadata document has been truncated. *)
Definition truncated_store : world :=
  with_file ["issues"; "acme-widgets"; ".metadata.json"] FPartial fresh_store.

(** A store in the legacy format with a key that is no number. *)
Definition noted_store : world :=
  with_file ["issues"; "acme-widgets"; ".metadata.json"]
    (FJson (VDict [("note", VStr "kept by hand")])) fresh_store.

(** * Properties *)

#[local] Arguments String.append : simpl nomatch.

(** *** SHA-256 test vectors (FIPS 180-4) *)

Example sha256_hex_empty :
  sha256_hex "" =
  "e3b0c44298fc1c149afbf4c8996fb92427ae41e4649b934ca495991b7852b855".
Proof. vm_compute. reflexivity. Qed.

Example sha256_hex_abc :
  sha256_hex "abc" =
  "ba7816bf8f01cfea414140de5dae2223b00361a396177a9cb410ff61f20015ad".
Proof. vm_compute. reflexivity. Qed.

Example sha256_hex_two_blocks :
  sha256_hex "abcdbcdecdefdefgefghfghighijhijkijkljklmklmnlmnomnopnopq" =
  "248d6a61d20638b8e5c026930c3e6039a33ce45964ff2167f6ecedd419db06c1".
Proof. vm_compute. reflexivity. Qed.

(** *** JSON strings are self-delimiting *)


Lemma append_assoc (a b c : string) : (a +:+ b) +:+ c = a +:+ (b +:+ c).
Proof. induction a; simpl; congruence. Qed.



Lemma json_dumps_str_list (l : list string) :
  map json_dumps (map VStr l) = map json_quote l.
Proof. by rewrite map_map. Qed.

Lemma sort_items_hash_data (a b c d e f g h : string) :
  sort_items
    [ ("number", a); ("title", b); ("body", c); ("state", d); ("labels", e);
      ("assignees", f); ("updated_at", g); ("comments", h) ] =
    [ ("assignees", f); ("body", c); ("comments", h); ("labels", e);
      ("number", a); ("state", d); ("title", b); ("updated_at", g) ].
Proof. reflexivity. Qed.

Lemma sort_items_comment (a b c : string) :
  sort_items [("author", a); ("body", b); ("created_at", c)] =
    [("author", a); ("body", b); ("created_at", c)].
Proof. reflexivity. Qed.

Lemma json_dumps_comment t :
  json_dumps (hashed_comment_value t) = json_comment t.
Proof.
  unfold hashed_comment_value, json_comment.
  cbn [json_dumps map fst snd]. rewrite sort_items_comment.
  cbn [map String.concat json_item fst snd].
  by rewrite !append_assoc.
Qed.

(** *** Lists of self-delimiting items *)

Section JsonList.
Context {A : Type} (enc : A -> string).
Hypothesis enc_inj : forall a b r1 r2,
  enc a +:+ r1 = enc b +:+ r2 -> a = b /\ r1 = r2.
Hypothesis enc_head : forall a r r', enc a +:+ r <> String "]" r'.


End JsonList.




(** *** Decimal numerals *)

Definition is_num_char (c : ascii) : bool :=
  Ascii.eqb c "-" || ((48 <=? N_of_ascii c) && (N_of_ascii c <=? 57))%N.

Fixpoint all_chars (p : ascii -> bool) (s : string) : bool :=
  match s with
  | EmptyString => true
  | String c s' => p c && all_chars p s'
  end.

Definition head_not (p : ascii -> bool) (s : string) : bool :=
  match s with
  | EmptyString => true
  | String c _ => negb (p c)
  end.

Lemma span_unique p s1 : forall s2 r1 r2,
  all_chars p s1 = true -> all_chars p s2 = true ->
  head_not p r1 = true -> head_not p r2 = true ->
  s1 +:+ r1 = s2 +:+ r2 -> s1 = s2 /\ r1 = r2.
Proof.
  induction s1 as [|c1 s1 IH]; intros [|c2 s2] r1 r2; simpl.
  - done.
  - intros _ [Hc _]%andb_prop H1 _ ->. simpl in H1. by rewrite Hc in H1.
  - intros [Hc _]%andb_prop _ _ H2 <-. simpl in H2. by rewrite Hc in H2.
  - intros [_ H1]%andb_prop [_ H2]%andb_prop Hr1 Hr2 [= -> H].
    by destruct (IH _ _ _ H1 H2 Hr1 Hr2 H) as [-> ->].
Qed.

Lemma string_of_uint_num d :
  all_chars is_num_char (NilEmpty.string_of_uint d) = true.
Proof. induction d; simpl; auto. Qed.

Lemma str_of_Z_num z : all_chars is_num_char (str_of_Z z) = true.
Proof.
  unfold str_of_Z, NilZero.string_of_int, NilZero.string_of_uint.
  destruct (Z.to_int z) as [d|d]; destruct d; simpl;
    auto using string_of_uint_num.
Qed.

Lemma py_int_str_of_Z z : py_int (str_of_Z z) = Ok z.
Proof.
  unfold py_int, str_of_Z. rewrite NilZero.isi.
  - by rewrite DecimalZ.of_to.
  - destruct z; simpl; try discriminate.
    intros [= H]. by apply DecimalPos.Unsigned.to_uint_nonnil in H.
  - destruct z; simpl; try discriminate.
    intros [= H]. by apply DecimalPos.Unsigned.to_uint_nonnil in H.
Qed.

Lemma str_of_Z_inj a b : str_of_Z a = str_of_Z b -> a = b.
Proof.
  intros H. apply (f_equal py_int) in H.
  rewrite !py_int_str_of_Z in H. by injection H.
Qed.

Lemma str_of_Z_app_inj a b r1 r2 :
  head_not is_num_char r1 = true -> head_not is_num_char r2 = true ->
  str_of_Z a +:+ r1 = str_of_Z b +:+ r2 -> a = b /\ r1 = r2.
Proof.
  intros H1 H2 H.
  apply (span_unique is_num_char) in H as [H ->];
    auto using str_of_Z_num.
  by apply str_of_Z_inj in H.
Qed.

(** *** The hashed message determines the hashed fields *)

Lemma hash_message_closed i :
  hash_message i =
  "{" +:+ json_quote "assignees" +:+ ": " +:+ "[" +:+
    String.concat ", " (map json_quote (sort_strings (assignees i)))
    +:+ "]" +:+ ", "
  +:+ json_quote "body" +:+ ": " +:+ json_quote (body i) +:+ ", "
  +:+ json_quote "comments" +:+ ": " +:+ "[" +:+
    String.concat ", " (map json_comment (map hashed_comment (comments i)))
    +:+ "]" +:+ ", "
  +:+ json_quote "labels" +:+ ": " +:+ "[" +:+
    String.concat ", " (map json_quote (sort_strings (labels i)))
    +:+ "]" +:+ ", "
  +:+ json_quote "number" +:+ ": " +:+ str_of_Z (number i) +:+ ", "
  +:+ json_quote "state" +:+ ": " +:+ json_quote (state i) +:+ ", "
  +:+ json_quote "title" +:+ ": " +:+ json_quote (title i) +:+ ", "
  +:+ json_quote "updated_at" +:+ ": " +:+ json_quote (updated_at i) +:+ "}".
Proof.
  unfold hash_message, issue_hash_data.
  cbn [json_dumps map fst snd].
  rewrite !json_dumps_str_list, sort_items_hash_data.
  cbn [map String.concat json_item fst snd].
  rewrite (map_map hashed_comment json_comment), (map_map _ json_dumps).
  rewrite (map_ext _ _ (fun c => json_dumps_comment (hashed_comment c))).
  unfold json_item. cbn [fst snd]. by rewrite !append_assoc.
Qed.


(** *** Sorting strings *)











(** *** The hasher on issue records *)

Lemma py_insert_str x l :
  py_insert (VStr x) (map VStr l) = Ok (map VStr (insert_str x l)).
Proof.
  induction l as [|y l IH]; simpl; [done|].
  destruct (String.ltb x y); simpl; [done|]. by rewrite IH.
Qed.

Lemma py_sort_into_str l : forall acc,
  py_sort_into (map VStr acc) (map VStr l) = Ok (map VStr (sort_into acc l)).
Proof.
  induction l as [|x l IH]; intros acc; simpl; [done|].
  rewrite py_insert_str. simpl. apply IH.
Qed.

Lemma py_sorted_str l :
  py_sorted (VList (map VStr l)) = Ok (map VStr (sort_strings l)).
Proof. apply (py_sort_into_str l []). Qed.

Lemma rmap_hash_comment cs :
  rmap hash_comment (map (fun c => VDict (comment_dict c)) cs) =
  Ok (map (fun c => hashed_comment_value (hashed_comment c)) cs).
Proof.
  induction cs as [|c cs IH]; simpl; [done|]. by rewrite IH.
Qed.

Lemma hash_data_issue i : hash_data (issue_dict i) = Ok (issue_hash_data i).
Proof.
  unfold hash_data, issue_dict. cbn [py_getitem dict_get String.eqb Ascii.eqb Bool.eqb rbind].
  rewrite !py_sorted_str. cbn [rbind py_iter].
  by rewrite rmap_hash_comment.
Qed.

Lemma calculate_hash_issue i :
  _calculate_hash (issue_dict i) = Ok (fingerprint i).
Proof. unfold _calculate_hash. by rewrite hash_data_issue. Qed.



Lemma dict_get_set_other k k' v d :
  k <> k' -> dict_get k (dict_set k' v d) = dict_get k d.
Proof.
  intros Hk. induction d as [|[k0 v0] d IH]; simpl.
  - by destruct (String.eqb_spec k k').
  - destruct (String.eqb_spec k' k0) as [->|]; simpl.
    + by destruct (String.eqb_spec k k0).
    + destruct (String.eqb_spec k k0); [done|apply IH].
Qed.

Lemma dict_get_set_same k v d : dict_get k (dict_set k v d) = Some v.
Proof.
  induction d as [|[k0 v0] d IH]; simpl.
  - by rewrite String.eqb_refl.
  - destruct (String.eqb_spec k k0) as [->|Hk]; simpl.
    + by rewrite String.eqb_refl.
    + by destruct (String.eqb_spec k k0).
Qed.


(** On the example issue, a changed title, a changed comment author and
    swapped comments change the digest itself; permuted labels do not. *)
Example fingerprint_changes_with_title :
  fingerprint issue_1 <> fingerprint (example_issue 1 "Bug!" "open").
Proof. vm_compute. discriminate. Qed.

Example fingerprint_changes_with_comment_order :
  fingerprint issue_1 <>
  fingerprint (with_comments [example_reply; example_comment] issue_1).
Proof. vm_compute. discriminate. Qed.

Example fingerprint_of_issue_1 :
  fingerprint (with_labels ["bug"; "ui"] issue_1) = fingerprint issue_1.
Proof. vm_compute. reflexivity. Qed.



(** C8, as the code has it. On an issue record that carries every hashed
    key, as the API client builds it, the hasher returns the digest of the
    hashed message; it substitutes nothing: on a dictionary that lacks
    one of the hashed keys it raises. *)
Theorem calculate_hash_total_on_records :
  (forall i : issue, _calculate_hash (issue_dict i) = Ok (fingerprint i)) /\
  (forall (d : dict) k,
     In k hashed_keys -> dict_get k d = None ->
     is_ok (_calculate_hash d) = false).
Proof.
  split; [apply calculate_hash_issue|].
  intros d k Hk Hnone. unfold _calculate_hash, hash_data, py_getitem.
  simpl in Hk.
  repeat
    (match goal with
     | |- context [dict_get ?k' d] =>
         destruct (dict_get k' d) eqn:?; simpl; [|done]
     | |- context [py_sorted ?v] => destruct (py_sorted v); simpl; [|done]
     end);
  repeat destruct Hk as [<-|Hk]; congruence || done.
Qed.

(** C8, counterexample: a dictionary without ['body'] makes the hasher
    raise [KeyError]. *)
Lemma calculate_hash_missing_body_raises :
  _calculate_hash record_without_body = Raise (KeyError "body").
Proof. reflexivity. Qed.

(** *** Sequencing of disk operations *)

Lemma io_bind_ok_inv {A B} (m : IO A) (k : A -> IO B) w b w' :
  io_bind m k w = (Ok b, w') ->
  exists a w1, m w = (Ok a, w1) /\ k a w1 = (Ok b, w').
Proof.
  unfold io_bind. destruct (m w) as [[a|e] w1]; [eauto|discriminate].
Qed.

Lemma io_lift_ok_inv {A} (m : result A) w a w' :
  io_lift m w = (Ok a, w') -> m = Ok a /\ w' = w.
Proof. unfold io_lift. by intros [= -> ->]. Qed.

Lemma io_bind_ext {A B} (m : IO A) (k1 k2 : A -> IO B) w :
  (forall a w', k1 a w' = k2 a w') -> io_bind m k1 w = io_bind m k2 w.
Proof. intros H. unfold io_bind. destruct (m w) as [[a|e] w']; auto. Qed.

Lemma io_bind_assoc {A B C} (m : IO A) (f : A -> IO B) (g : B -> IO C) w :
  io_bind (io_bind m f) g w = io_bind m (fun a => io_bind (f a) g) w.
Proof.
  unfold io_bind. destruct (m w) as [[a|e] w']; [|done].
  by destruct (f a w') as [[b|e] w''].
Qed.

Lemma io_bind_eq {A B} (m : IO A) (k : A -> IO B) w :
  io_bind m k w =
  match m w with
  | (Ok a, w') => k a w'
  | (Raise e, w') => (Raise e, w')
  end.
Proof. reflexivity. Qed.

(** *** The change tracker *)

Lemma py_eq_str v s : py_eq v (VStr s) = true <-> v = VStr s.
Proof.
  destruct v; simpl; try (split; [discriminate|congruence]).
  rewrite String.eqb_eq. split; congruence.
Qed.

Lemma py_eq_str_l v s : py_eq (VStr s) v = true <-> v = VStr s.
Proof.
  destruct v; simpl; try (split; [discriminate|congruence]).
  rewrite String.eqb_eq. split; congruence.
Qed.

Lemma detect_issue_changes_eq repo_name i entry :
  _detect_issue_changes repo_name i (VDict entry) = Ok (descriptors entry i).
Proof.
  unfold _detect_issue_changes, descriptors, stored_field, state_descriptor,
    stored_state_text, updated_descriptor.
  cbn [py_get rbind].
  destruct (dict_get "state" entry) as [v|];
    destruct (negb (py_eq _ (VStr (state i))));
    destruct (negb (py_eq _ (VStr (updated_at i)))); reflexivity.
Qed.

Lemma descriptor_list_facts (sd ud : bool) (s u c : string) :
  s <> u -> s <> c -> u <> c ->
  let l := if sd || ud
           then (if sd then [s] else []) ++ (if ud then [u] else [])
           else [c] in
  (In s l <-> sd = true) /\ (In u l <-> ud = true) /\
  (In c l <-> sd = false /\ ud = false) /\ l <> [].
Proof.
  intros Hsu Hsc Huc. destruct sd, ud; simpl; intuition congruence.
Qed.

(** C7. The change descriptors of an updated issue. Against a stored
    entry, [_detect_issue_changes] returns the state descriptor when the
    stored state is not the current one, followed by the timestamp
    descriptor when the stored [updated_at] is not the current one, each
    test on its own; when neither applies it returns the generic
    descriptor alone. So each of the two descriptors is in the list
    exactly when its test holds, and the list is never empty. *)
Theorem detect_issue_changes_descriptors repo_name (i : issue) (entry : dict) :
  let state_differs :=
    negb (py_eq (stored_field entry "state") (VStr (state i))) in
  let updated_differs :=
    negb (py_eq (stored_field entry "updated_at") (VStr (updated_at i))) in
  let s := state_descriptor (stored_state_text entry) (state i) in
  let u := updated_descriptor (updated_at i) in
  exists l,
    _detect_issue_changes repo_name i (VDict entry) = Ok l /\
    l = (if state_differs || updated_differs
         then (if state_differs then [s] else []) ++
              (if updated_differs then [u] else [])
         else [content_descriptor]) /\
    (In s l <-> state_differs = true) /\
    (In u l <-> updated_differs = true) /\
    (In content_descriptor l <->
     state_differs = false /\ updated_differs = false) /\
    l <> [].
Proof.
  cbv zeta. exists (descriptors entry i).
  split; [apply detect_issue_changes_eq|]. split; [reflexivity|].
  apply descriptor_list_facts; discriminate.
Qed.

(** The two tests compare with a string, so they say that the stored
    value is not that string. *)
Lemma stored_field_differs entry key s :
  negb (py_eq (stored_field entry key) (VStr s)) = true <->
  dict_get key entry <> Some (VStr s).
Proof.
  rewrite negb_true_iff, <- not_true_iff_false, py_eq_str.
  unfold stored_field. destruct (dict_get key entry) as [v|].
  - split; intros H ?; apply H; congruence.
  - split; [discriminate|]. intros _. discriminate.
Qed.

Lemma existsb_keys k (d : dict) :
  existsb (String.eqb k) (map fst d) = dict_mem k d.
Proof.
  unfold dict_mem. induction d as [|[k' v] d IH]; simpl; [done|].
  destruct (String.eqb k k'); [done|apply IH].
Qed.

Lemma dict_get_In k v (d : dict) : dict_get k d = Some v -> In (k, v) d.
Proof.
  induction d as [|[k' v'] d IH]; simpl; [done|].
  destruct (String.eqb_spec k k') as [->|_]; [intros [= ->]; by left|].
  intros H. right. by apply IH.
Qed.

Lemma entries_are_dicts_get stored k v :
  entries_are_dicts stored -> dict_get k stored = Some v ->
  exists entry, v = VDict entry.
Proof.
  intros Hall Hget. apply dict_get_In in Hget.
  unfold entries_are_dicts in Hall. rewrite List.Forall_forall in Hall.
  by apply Hall in Hget.
Qed.

Lemma detect_issue_changes_ok repo_name i entry :
  exists l, _detect_issue_changes repo_name i (VDict entry) = Ok l.
Proof. eexists. apply detect_issue_changes_eq. Qed.

Lemma detect_step_place repo_name stored acc i :
  entries_are_dicts stored ->
  detect_step repo_name (VDict stored) (map fst stored) acc i =
  Ok (place repo_name stored acc i).
Proof.
  intros Hall. unfold detect_step, place, classify, change_details.
  rewrite calculate_hash_issue. cbn [rbind].
  rewrite existsb_keys. unfold dict_mem, py_subscript, py_getitem.
  destruct (dict_get (str_of_Z (number i)) stored) as [v|] eqn:Hget;
    [|done].
  destruct (entries_are_dicts_get _ _ _ Hall Hget) as [entry ->].
  cbn [negb rbind py_get].
  destruct (detect_issue_changes_ok repo_name i entry) as [l Hl].
  rewrite Hl. cbn [rbind].
  destruct (dict_get "hash" entry) as [[|z|h|vs|d]|]; cbn [py_eq negb];
    try done.
  destruct (String.eqb (fingerprint i) h); cbn [negb]; [|done].
  by rewrite py_int_str_of_Z.
Qed.

Lemma detect_loop_fold repo_name stored l : forall acc,
  entries_are_dicts stored ->
  detect_loop repo_name (VDict stored) (map fst stored) acc l =
  Ok (fold_left (place repo_name stored) l acc).
Proof.
  induction l as [|i l IH]; intros acc Hall; simpl; [done|].
  rewrite detect_step_place by done. cbn [rbind]. by apply IH.
Qed.

Lemma fold_place_new repo_name stored l : forall acc,
  new (fold_left (place repo_name stored) l acc) =
  new acc ++ List.filter (in_bucket stored New) l.
Proof.
  induction l as [|i l IH]; intros acc; simpl; [by rewrite app_nil_r|].
  rewrite IH. unfold place, in_bucket.
  destruct (classify stored i); simpl; [|done..]. by rewrite <- app_assoc.
Qed.

Lemma fold_place_updated repo_name stored l : forall acc,
  map fst (updated (fold_left (place repo_name stored) l acc)) =
  map fst (updated acc) ++ List.filter (in_bucket stored Updated) l.
Proof.
  induction l as [|i l IH]; intros acc; simpl; [by rewrite app_nil_r|].
  rewrite IH. unfold place, in_bucket.
  destruct (classify stored i); simpl; [done| |done].
  by rewrite map_app, <- app_assoc.
Qed.

Lemma fold_place_unchanged repo_name stored l : forall acc,
  unchanged (fold_left (place repo_name stored) l acc) =
  unchanged acc ++ map number (List.filter (in_bucket stored Unchanged) l).
Proof.
  induction l as [|i l IH]; intros acc; simpl; [by rewrite app_nil_r|].
  rewrite IH. unfold place, in_bucket.
  destruct (classify stored i); simpl; [done..|]. by rewrite <- app_assoc.
Qed.

Lemma buckets_cover stored (l : list issue) :
  (length (List.filter (in_bucket stored New) l)
   + length (List.filter (in_bucket stored Updated) l)
   + length (List.filter (in_bucket stored Unchanged) l) = length l)%nat.
Proof.
  induction l as [|i l IH]; simpl; [done|]. unfold in_bucket in *.
  destruct (classify stored i); simpl; lia.
Qed.

Lemma classify_new stored i :
  classify stored i = New <-> dict_get (str_of_Z (number i)) stored = None.
Proof.
  unfold classify.
  destruct (dict_get (str_of_Z (number i)) stored) as [[| | | |e]|];
    try (split; done).
  destruct (dict_get "hash" e) as [[| |h| |]|]; try (split; done).
  destruct (String.eqb (fingerprint i) h); split; done.
Qed.

Lemma classify_unchanged stored i :
  classify stored i = Unchanged <->
  exists entry,
    dict_get (str_of_Z (number i)) stored = Some (VDict entry) /\
    dict_get "hash" entry = Some (VStr (fingerprint i)).
Proof.
  unfold classify.
  destruct (dict_get (str_of_Z (number i)) stored) as [[| | | |e]|];
    try (split; [done|by intros (? & ? & ?)]).
  destruct (dict_get "hash" e) as [[| |h| |]|] eqn:Hh;
    try (split; [done|intros (? & [= <-] & ?); congruence]).
  destruct (String.eqb_spec (fingerprint i) h) as [<-|Hne].
  - split; [eauto|done].
  - split; [done|intros (? & [= <-] & ?); congruence].
Qed.

Lemma detect_step_ok_inv repo_name stored acc i acc' :
  detect_step repo_name (VDict stored) (map fst stored) acc i = Ok acc' ->
  acc' = place repo_name stored acc i.
Proof.
  unfold detect_step, place, classify, change_details.
  rewrite calculate_hash_issue. cbn [rbind].
  rewrite existsb_keys. unfold dict_mem, py_subscript, py_getitem.
  destruct (dict_get (str_of_Z (number i)) stored) as [v|] eqn:Hget;
    [|by intros [= <-]].
  cbn [negb rbind].
  destruct v as [|z|s|l|entry]; cbn [py_get rbind]; try discriminate.
  destruct (detect_issue_changes_ok repo_name i entry) as [l Hl].
  rewrite Hl. cbn [rbind].
  destruct (dict_get "hash" entry) as [[|z|h|vs|d]|]; cbn [py_eq negb];
    try (by intros [= <-]).
  destruct (String.eqb (fingerprint i) h); cbn [negb]; [|by intros [= <-]].
  rewrite py_int_str_of_Z. by intros [= <-].
Qed.

Lemma detect_loop_ok_inv repo_name stored l : forall acc ch,
  detect_loop repo_name (VDict stored) (map fst stored) acc l = Ok ch ->
  ch = fold_left (place repo_name stored) l acc.
Proof.
  induction l as [|i l IH]; intros acc ch; simpl; [by intros [= <-]|].
  destruct (detect_step _ _ _ acc i) as [acc'|] eqn:Hstep; [|discriminate].
  apply detect_step_ok_inv in Hstep as ->. cbn [rbind]. apply IH.
Qed.

Lemma fold_place_partition repo_name stored l :
  let ch := fold_left (place repo_name stored) l
              {| new := []; updated := []; unchanged := [] |} in
  new ch = List.filter (in_bucket stored New) l /\
  map fst (updated ch) = List.filter (in_bucket stored Updated) l /\
  unchanged ch = map number (List.filter (in_bucket stored Unchanged) l) /\
  (length (new ch) + length (updated ch) + length (unchanged ch)
   = length l)%nat.
Proof.
  intros ch. subst ch.
  pose proof (fold_place_updated repo_name stored l
                {| new := []; updated := []; unchanged := [] |}) as Hu.
  simpl in Hu.
  rewrite <- (length_map fst (updated _)), Hu.
  rewrite fold_place_new, fold_place_unchanged. simpl.
  repeat split. rewrite length_map. apply buckets_cover.
Qed.

(** C1. Totality of the classification. Whenever [detect_changes]
    returns, its three lists are the current issues of class New, Updated
    and Unchanged against the stored entries, in order: every issue is in
    the list of its one class, and the three lengths add up to the number
    of current issues. It does return when the store loads and its entries
    are dictionaries. New means that no entry is stored under the issue's
    number, Unchanged that the entry's hash is the issue's fingerprint,
    Updated anything else. *)
Theorem detect_changes_partition self repo_name (current_issues : list issue)
    (w : world) :
  (forall ch w',
     detect_changes self repo_name current_issues w = (Ok ch, w') ->
     exists metadata stored,
       load_metadata (storage self) repo_name w = (Ok metadata, w') /\
       py_get metadata "issues" (VDict []) = Ok (VDict stored) /\
       new ch = List.filter (in_bucket stored New) current_issues /\
       map fst (updated ch) =
         List.filter (in_bucket stored Updated) current_issues /\
       unchanged ch =
         map number (List.filter (in_bucket stored Unchanged) current_issues) /\
       (length (new ch) + length (updated ch) + length (unchanged ch)
        = length current_issues)%nat) /\
  (forall metadata stored w',
     load_metadata (storage self) repo_name w = (Ok metadata, w') ->
     py_get metadata "issues" (VDict []) = Ok (VDict stored) ->
     entries_are_dicts stored ->
     exists ch, detect_changes self repo_name current_issues w = (Ok ch, w')) /\
  (forall stored i,
     (classify stored i = New <->
      dict_get (str_of_Z (number i)) stored = None) /\
     (classify stored i = Unchanged <->
      exists entry,
        dict_get (str_of_Z (number i)) stored = Some (VDict entry) /\
        dict_get "hash" entry = Some (VStr (fingerprint i)))).
Proof.
  split; [|split].
  - intros ch w' H. unfold detect_changes in H.
    apply io_bind_ok_inv in H as (metadata & w1 & Hload & H).
    apply io_bind_ok_inv in H as (stored_issues & w2 & Hget & H).
    apply io_lift_ok_inv in Hget as [Hget ->].
    apply io_bind_ok_inv in H as (keys & w3 & Hkeys & H).
    apply io_lift_ok_inv in Hkeys as [Hkeys ->].
    apply io_lift_ok_inv in H as [Hloop ->].
    destruct stored_issues as [| | | |stored]; try discriminate.
    injection Hkeys as <-.
    apply detect_loop_ok_inv in Hloop as ->.
    exists metadata, stored. split; [done|]. split; [done|].
    apply fold_place_partition.
  - intros metadata stored w' Hload Hissues Hall. eexists.
    unfold detect_changes, io_bind. rewrite Hload. unfold io_lift.
    rewrite Hissues. cbn [py_keys].
    by rewrite detect_loop_fold.
  - intros stored i. split; [apply classify_new|apply classify_unchanged].
Qed.

(** *** The disk *)

Lemma parent_snoc (p : path) (name : string) : parent (p ++ [name]) = p.
Proof. unfold parent. apply removelast_last. Qed.

Lemma path_join_snoc (p : path) name :
  name <> "" -> name <> "." -> path_join p name = p ++ [name].
Proof.
  intros H1 H2. unfold path_join.
  destruct (String.eqb_spec name ""); [done|].
  by destruct (String.eqb_spec name ".").
Qed.

Lemma issue_file_name_proper n :
  issue_file_name n <> "" /\ issue_file_name n <> ".".
Proof. unfold issue_file_name. split; discriminate. Qed.

Lemma metadata_path_snoc self repo_name :
  metadata_path self repo_name = repo_path self repo_name ++ [".metadata.json"].
Proof. unfold metadata_path. by apply path_join_snoc. Qed.

Lemma issue_path_snoc self repo_name n :
  issue_path self repo_name n = repo_path self repo_name ++ [issue_file_name n].
Proof.
  unfold issue_path. apply path_join_snoc; apply issue_file_name_proper.
Qed.

Lemma snoc_ne_self {A} (p : list A) x : p ++ [x] <> p.
Proof.
  intros H. apply (f_equal length) in H. rewrite length_app in H.
  simpl in H. lia.
Qed.

Lemma is_dir_add_dir p q w :
  is_dir (add_dir p w) q = bool_decide (q = p) || is_dir w q.
Proof.
  unfold is_dir, add_dir. simpl.
  apply eq_true_iff_eq.
  rewrite !orb_true_iff, !bool_decide_eq_true, elem_of_union,
    elem_of_singleton. tauto.
Qed.

Lemma is_file_add_dir p q w : is_file (add_dir p w) q = is_file w q.
Proof. done. Qed.

Lemma mkdir_existing p w :
  is_dir w p = true -> mkdir_exist_ok p w = (Ok tt, w).
Proof. intros H. unfold mkdir_exist_ok. by rewrite H. Qed.

Lemma mkdir_fresh p w :
  is_dir w p = false -> is_file w p = false -> is_dir w (parent p) = true ->
  mkdir_exist_ok p w = (Ok tt, add_dir p w).
Proof. intros H1 H2 H3. unfold mkdir_exist_ok. by rewrite H1, H2, H3. Qed.

Lemma get_repo_dir_existing self repo_name w :
  is_dir w (repo_path self repo_name) = true ->
  get_repo_dir self repo_name w = (Ok (repo_path self repo_name), w).
Proof.
  intros H. unfold get_repo_dir, io_bind. fold (repo_path self repo_name).
  by rewrite mkdir_existing.
Qed.

Lemma repo_path_absent self repo_name w :
  is_dir w (base_dir self) = true ->
  is_dir w (repo_path self repo_name) = false ->
  repo_path self repo_name = base_dir self ++ [repo_dir_name repo_name].
Proof.
  intros Hbase Hdir. unfold repo_path, path_join in *.
  destruct (_ || _); [congruence|done].
Qed.

Lemma get_repo_dir_absent self repo_name w :
  is_dir w (base_dir self) = true ->
  is_dir w (repo_path self repo_name) = false ->
  is_file w (repo_path self repo_name) = false ->
  get_repo_dir self repo_name w =
    (Ok (repo_path self repo_name), add_dir (repo_path self repo_name) w).
Proof.
  intros Hbase Hdir Hfile.
  unfold get_repo_dir, io_bind. fold (repo_path self repo_name).
  rewrite mkdir_fresh; [done..|].
  by rewrite (repo_path_absent _ _ _ Hbase Hdir), parent_snoc.
Qed.

Lemma child_absent w p name :
  wf_world w -> is_dir w p = false ->
  is_dir w (p ++ [name]) = false /\ is_file w (p ++ [name]) = false.
Proof.
  intros Hwf Hp. destruct (Hwf (p ++ [name])) as [Hpar _].
  rewrite parent_snoc in Hpar.
  destruct (is_dir w (p ++ [name])) eqn:Hd.
  { rewrite Hpar in Hp by auto. done. }
  destruct (is_file w (p ++ [name])) eqn:Hf; [|done].
  rewrite Hpar in Hp by auto. done.
Qed.

Lemma path_exists_absent_child w p name :
  wf_world w -> is_dir w p = false ->
  path_exists (p ++ [name]) (add_dir p w) = (Ok false, add_dir p w).
Proof.
  intros Hwf Hp. unfold path_exists.
  destruct (child_absent w p name Hwf Hp) as [Hd Hf].
  rewrite is_dir_add_dir, is_file_add_dir, Hd, Hf.
  rewrite bool_decide_eq_false_2 by apply snoc_ne_self. done.
Qed.

(** C10. Reading creates directories. In a well-formed world whose base
    directory exists and in which nothing exists at the path of the
    repository directory (the repository was never synced),
    [load_metadata], [load_filters] and [issue_exists] answer with the
    empty metadata, the empty filters and "no such issue", and leave the
    repository directory behind; constructing the storage creates the
    base directory when it is absent. *)
Theorem read_operations_create_directories :
  (forall self repo_name n (w : world),
     wf_world w ->
     is_dir w (base_dir self) = true ->
     is_dir w (repo_path self repo_name) = false ->
     is_file w (repo_path self repo_name) = false ->
     let w' := add_dir (repo_path self repo_name) w in
     load_metadata self repo_name w = (Ok empty_metadata, w') /\
     load_filters self repo_name w = (Ok (VDict []), w') /\
     issue_exists self repo_name n w = (Ok false, w') /\
     (repo_path self repo_name ∉ dirs w) /\
     (repo_path self repo_name ∈ dirs w') /\
     files w' = files w) /\
  (forall base (w : world),
     is_dir w base = false -> is_file w base = false ->
     is_dir w (parent base) = true ->
     __init__ base w = (Ok {| base_dir := base |}, add_dir base w) /\
     (base ∉ dirs w) /\ (base ∈ dirs (add_dir base w))).
Proof.
  split.
  - intros self repo_name n w Hwf Hbase Hdir Hfile w'.
    assert (Hget := get_repo_dir_absent self repo_name w Hbase Hdir Hfile).
    assert (Hload : load_metadata self repo_name w = (Ok empty_metadata, w')).
    { unfold load_metadata, io_bind. rewrite Hget.
      fold (metadata_path self repo_name). rewrite metadata_path_snoc.
      by rewrite path_exists_absent_child. }
    repeat split.
    + done.
    + unfold load_filters, io_bind. by rewrite Hload.
    + unfold issue_exists, io_bind. rewrite Hget.
      fold (issue_path self repo_name n). rewrite issue_path_snoc.
      by rewrite path_exists_absent_child.
    + intros Hin. unfold is_dir in Hdir.
      apply orb_false_elim in Hdir as [_ Hdir].
      by apply bool_decide_eq_false in Hdir.
    + subst w'. unfold add_dir. simpl.
      by apply elem_of_union_l, elem_of_singleton.
  - intros base w Hd Hf Hpar. repeat split.
    + unfold __init__, io_bind. by rewrite mkdir_fresh.
    + intros Hin. unfold is_dir in Hd.
      apply orb_false_elim in Hd as [_ Hd].
      by apply bool_decide_eq_false in Hd.
    + unfold add_dir. simpl. by apply elem_of_union_l, elem_of_singleton.
Qed.

Lemma dict_mem_false_keys k (d : dict) :
  dict_mem k d = false -> Forall (fun kv => fst kv <> k) d.
Proof.
  unfold dict_mem. induction d as [|[k' v] d IH]; simpl; [constructor|].
  destruct (String.eqb_spec k k') as [->|Hne]; [done|].
  intros H. constructor; [simpl; congruence|by apply IH].
Qed.

Lemma filter_unreserved_legacy (d : dict) :
  dict_mem "filters" d = false -> dict_mem "issues" d = false ->
  List.filter (fun kv => negb (reserved (fst kv))) d = d.
Proof.
  intros Hf Hi. apply dict_mem_false_keys in Hf, Hi.
  induction d as [|[k v] d IH]; [done|].
  inversion_clear Hf as [|?? Hk1 Hf']. inversion_clear Hi as [|?? Hk2 Hi'].
  cbn [List.filter fst]. unfold reserved. simpl in Hk1, Hk2.
  destruct (String.eqb_spec k "filters"); [done|].
  destruct (String.eqb_spec k "issues"); [done|].
  cbn [orb negb]. f_equal. by apply IH.
Qed.

Lemma dict_get_filter_unreserved k (d : dict) :
  dict_get k (List.filter (fun kv => negb (reserved (fst kv))) d) =
  if reserved k then None else dict_get k d.
Proof.
  induction d as [|[k' v] d IH]; simpl; [by destruct (reserved k)|].
  destruct (reserved k') eqn:Hr'; simpl.
  - rewrite IH. destruct (String.eqb_spec k k') as [->|]; [by rewrite Hr'|done].
  - destruct (String.eqb_spec k k') as [->|]; [by rewrite Hr'|apply IH].
Qed.

Lemma path_exists_file w p c :
  files w !! p = Some c -> path_exists p w = (Ok true, w).
Proof.
  intros H. unfold path_exists, is_file. rewrite H. by rewrite orb_true_r.
Qed.

Lemma read_file_some w p c :
  files w !! p = Some c -> read_file p w = (Ok c, w).
Proof. intros H. unfold read_file. by rewrite H. Qed.

(** C5. Loading a legacy store. When the metadata document is a
    dictionary without the key ['filters'], [load_metadata] returns empty
    filters and, as issues, the top-level entries other than those under
    the two reserved keys, in their order; when the key ['issues'] is
    absent too these are all the entries of the document. The disk is
    left as it was: the file is not rewritten. *)
Theorem load_metadata_legacy self repo_name (w : world) (d : dict) :
  is_dir w (repo_path self repo_name) = true ->
  files w !! metadata_path self repo_name = Some (FJson (VDict d)) ->
  dict_mem "filters" d = false ->
  let old_issues := List.filter (fun kv => negb (reserved (fst kv))) d in
  load_metadata self repo_name w =
    (Ok (VDict [("filters", VDict []); ("issues", VDict old_issues)]), w) /\
  (forall k, dict_get k old_issues = if reserved k then None else dict_get k d) /\
  (dict_mem "issues" d = false -> old_issues = d).
Proof.
  intros Hdir Hfile Hlegacy old_issues. split; [|split].
  - unfold load_metadata, io_bind. rewrite get_repo_dir_existing by done.
    fold (metadata_path self repo_name).
    rewrite (path_exists_file _ _ _ Hfile), (read_file_some _ _ _ Hfile).
    unfold io_lift. simpl. by rewrite Hlegacy.
  - intros k. apply dict_get_filter_unreserved.
  - by apply filter_unreserved_legacy.
Qed.

(** *** [_update_metadata] and [save_issue] *)

Lemma update_metadata_pure (metadata : value) issue_data (k : value -> IO unit) w :
  (has_filters <~ io_lift (py_contains metadata "filters") ;;
   metadata <~ (if has_filters : bool then io_ret metadata
                else io_lift (py_setitem metadata "filters" (VDict []))) ;;
   has_issues <~ io_lift (py_contains metadata "issues") ;;
   metadata <~ (if has_issues : bool then io_ret metadata
                else io_lift (py_setitem metadata "issues" (VDict []))) ;;
   issue_hash <~ io_lift (_calculate_hash (issue_dict issue_data)) ;;
   issues <~ io_lift (py_subscript metadata "issues") ;;
   issues <~ io_lift (py_setitem issues (str_of_Z (number issue_data))
                        (metadata_entry issue_hash issue_data)) ;;
   metadata <~ io_lift (py_setitem metadata "issues" issues) ;;
   k metadata) w =
  (metadata <~ io_lift (update_metadata_value metadata issue_data) ;;
   k metadata) w.
Proof.
  unfold update_metadata_value, io_bind, io_lift, io_ret, rbind.
  destruct (py_contains metadata "filters") as [[]|]; [| |done].
  - destruct (py_contains metadata "issues") as [[]|]; [| |done].
    + destruct (_calculate_hash _); [|done].
      destruct (py_subscript metadata "issues"); [|done].
      destruct (py_setitem _ _ _); [|done].
      by destruct (py_setitem _ _ _).
    + destruct (py_setitem metadata "issues" _) as [m1|]; [|done].
      destruct (_calculate_hash _); [|done].
      destruct (py_subscript m1 "issues"); [|done].
      destruct (py_setitem _ _ _); [|done].
      by destruct (py_setitem _ _ _).
  - destruct (py_setitem metadata "filters" _) as [m0|]; [|done].
    destruct (py_contains m0 "issues") as [[]|]; [| |done].
    + destruct (_calculate_hash _); [|done].
      destruct (py_subscript m0 "issues"); [|done].
      destruct (py_setitem _ _ _); [|done].
      by destruct (py_setitem _ _ _).
    + destruct (py_setitem m0 "issues" _) as [m1|]; [|done].
      destruct (_calculate_hash _); [|done].
      destruct (py_subscript m1 "issues"); [|done].
      destruct (py_setitem _ _ _); [|done].
      by destruct (py_setitem _ _ _).
Qed.

Lemma get_repo_dir_bind {B} self repo_name (k : path -> IO B) w :
  io_bind (get_repo_dir self repo_name) k w =
  io_bind (get_repo_dir self repo_name)
    (fun _ => k (repo_path self repo_name)) w.
Proof.
  unfold get_repo_dir, io_bind, io_ret. fold (repo_path self repo_name).
  by destruct (mkdir_exist_ok _ w) as [[[]|e] w'].
Qed.

Lemma update_metadata_steps self repo_name issue_data w :
  _update_metadata self repo_name issue_data w =
  (_ <~ get_repo_dir self repo_name ;;
   metadata <~ read_metadata (metadata_path self repo_name) ;;
   metadata <~ io_lift (update_metadata_value metadata issue_data) ;;
   write_file (metadata_path self repo_name) (FJson metadata)) w.
Proof.
  unfold _update_metadata. rewrite get_repo_dir_bind.
  apply io_bind_ext. intros _ w1. fold (metadata_path self repo_name).
  unfold read_metadata. rewrite io_bind_assoc.
  apply io_bind_ext. intros ex w2.
  apply io_bind_ext. intros metadata w3.
  apply (update_metadata_pure metadata issue_data
           (fun m => write_file (metadata_path self repo_name) (FJson m))).
Qed.

Lemma mkdir_ok_inv p w w' :
  mkdir_exist_ok p w = (Ok tt, w') ->
  files w' = files w /\ faults w' = faults w /\ is_dir w' p = true /\
  (forall q, is_dir w q = true -> is_dir w' q = true).
Proof.
  unfold mkdir_exist_ok.
  destruct (is_dir w p) eqn:Hd; [by intros [= <-]|].
  destruct (is_file w p); [discriminate|].
  destruct (is_dir w (parent p)); [|by destruct (is_file w (parent p))].
  intros [= <-]. repeat split; try done.
  - rewrite is_dir_add_dir. by rewrite bool_decide_eq_true_2.
  - intros q Hq. rewrite is_dir_add_dir, Hq. apply orb_true_r.
Qed.

Lemma get_repo_dir_ok_inv self repo_name w p w' :
  get_repo_dir self repo_name w = (Ok p, w') ->
  p = repo_path self repo_name /\ files w' = files w /\
  faults w' = faults w /\ is_dir w' (repo_path self repo_name) = true /\
  (forall q, is_dir w q = true -> is_dir w' q = true).
Proof.
  unfold get_repo_dir. fold (repo_path self repo_name). intros H.
  apply io_bind_ok_inv in H as ([] & w1 & Hmk & Hret).
  unfold io_ret in Hret. injection Hret as <- <-.
  apply mkdir_ok_inv in Hmk. tauto.
Qed.

Lemma write_file_ok_inv p c w w' :
  write_file p c w = (Ok tt, w') ->
  files w' = <[ p := c ]> (files w) /\ dirs w' = dirs w.
Proof.
  unfold write_file. destruct (is_dir w p); [discriminate|].
  destruct (negb _); [discriminate|].
  destruct (faults w) as [|[] fs]; intros [= <-]; done.
Qed.

Lemma read_metadata_world p w r w' : read_metadata p w = (r, w') -> w' = w.
Proof.
  unfold read_metadata, io_bind, path_exists, read_file, io_lift, io_ret.
  destruct (_ || _).
  - destruct (files w !! p); [by intros [= _ <-]|].
    destruct (is_dir w p); by intros [= _ <-].
  - by intros [= _ <-].
Qed.

Lemma is_dir_same_dirs w w' q : dirs w' = dirs w -> is_dir w' q = is_dir w q.
Proof. unfold is_dir. by intros ->. Qed.

(** The pure part of [_update_metadata] succeeds on dictionaries only, and
    what it returns has the wrapper keys and the new entry. *)
Lemma update_metadata_value_ok metadata i md' :
  update_metadata_value metadata i = Ok md' ->
  exists md issues,
    md' = VDict md /\ dict_mem "filters" md = true /\
    dict_get "issues" md = Some (VDict issues) /\
    dict_get (str_of_Z (number i)) issues =
      Some (metadata_entry (fingerprint i) i).
Proof.
  unfold update_metadata_value. rewrite calculate_hash_issue.
  destruct metadata as [|z|s|l|d]; cbn [py_contains rbind]; try discriminate.
  - destruct (substringb "filters" s);
      cbn [rbind py_contains py_setitem py_subscript]; [|discriminate].
    destruct (substringb "issues" s);
      cbn [rbind py_contains py_setitem py_subscript]; discriminate.
  - destruct (existsb _ l);
      cbn [rbind py_contains py_setitem py_subscript]; [|discriminate].
    destruct (existsb _ l);
      cbn [rbind py_contains py_setitem py_subscript]; discriminate.
  - set (d1 := if dict_mem "filters" d then d
               else dict_set "filters" (VDict []) d).
    assert (Hd1 : dict_mem "filters" d1 = true).
    { subst d1. destruct (dict_mem "filters" d) eqn:Hf; [done|].
      unfold dict_mem. by rewrite dict_get_set_same. }
    assert (Hstep1 :
      (if dict_mem "filters" d then Ok (VDict d)
       else py_setitem (VDict d) "filters" (VDict [])) = Ok (VDict d1)).
    { subst d1. by destruct (dict_mem "filters" d). }
    rewrite Hstep1. cbn [rbind py_contains].
    set (d2 := if dict_mem "issues" d1 then d1
               else dict_set "issues" (VDict []) d1).
    assert (Hstep2 :
      (if dict_mem "issues" d1 then Ok (VDict d1)
       else py_setitem (VDict d1) "issues" (VDict [])) = Ok (VDict d2)).
    { subst d2. by destruct (dict_mem "issues" d1). }
    rewrite Hstep2. cbn [rbind py_subscript]. unfold py_getitem.
    assert (Hd2 : dict_mem "filters" d2 = true).
    { subst d2. destruct (dict_mem "issues" d1); [done|].
      unfold dict_mem in *. by rewrite dict_get_set_other. }
    destruct (dict_get "issues" d2) as [[|z|s|l|issues]|];
      cbn [rbind py_setitem]; try discriminate.
    intros [= <-]. eexists _, _. split; [reflexivity|].
    split; [|split].
    + unfold dict_mem in *. by rewrite dict_get_set_other.
    + apply dict_get_set_same.
    + apply dict_get_set_same.
Qed.

Lemma update_metadata_ok_inv self repo_name i w w' :
  _update_metadata self repo_name i w = (Ok tt, w') ->
  exists md issues w1,
    files w1 = files w /\
    files w' = <[ metadata_path self repo_name := FJson (VDict md) ]> (files w1) /\
    is_dir w' (repo_path self repo_name) = true /\
    dict_mem "filters" md = true /\
    dict_get "issues" md = Some (VDict issues) /\
    dict_get (str_of_Z (number i)) issues =
      Some (metadata_entry (fingerprint i) i).
Proof.
  rewrite update_metadata_steps. intros H.
  apply io_bind_ok_inv in H as (p & w1 & Hdir & H).
  apply get_repo_dir_ok_inv in Hdir as (_ & Hfiles1 & _ & Hisdir & _).
  apply io_bind_ok_inv in H as (metadata & w2 & Hread & H).
  apply read_metadata_world in Hread as ->.
  apply io_bind_ok_inv in H as (md' & w3 & Hpure & H).
  apply io_lift_ok_inv in Hpure as [Hpure ->].
  apply update_metadata_value_ok in Hpure as (md & issues & -> & Hf & Hi & He).
  apply write_file_ok_inv in H as [Hfiles Hdirs].
  exists md, issues, w1. repeat split; try done.
  by rewrite (is_dir_same_dirs _ _ _ Hdirs).
Qed.

Lemma issue_path_ne_metadata_path self repo_name n :
  issue_path self repo_name n <> metadata_path self repo_name.
Proof.
  rewrite issue_path_snoc, metadata_path_snoc. intros H.
  apply app_inv_head in H. discriminate.
Qed.

Lemma load_metadata_current self repo_name w md :
  is_dir w (repo_path self repo_name) = true ->
  files w !! metadata_path self repo_name = Some (FJson (VDict md)) ->
  dict_mem "filters" md = true ->
  load_metadata self repo_name w = (Ok (VDict md), w).
Proof.
  intros Hdir Hfile Hf.
  unfold load_metadata, io_bind. rewrite get_repo_dir_existing by done.
  fold (metadata_path self repo_name).
  rewrite (path_exists_file _ _ _ Hfile), (read_file_some _ _ _ Hfile).
  unfold io_lift. simpl. by rewrite Hf.
Qed.

Section SaveIssue.
Variable yaml_dump : value -> string.

Lemma save_issue_ok_inv self repo_name i w p w' :
  save_issue yaml_dump self repo_name i w = (Ok p, w') ->
  exists md issues,
    p = path_str (issue_path self repo_name (number i)) /\
    files w' =
      <[ metadata_path self repo_name := FJson (VDict md) ]>
        (<[ issue_path self repo_name (number i) :=
              FText (_generate_markdown yaml_dump i) ]> (files w)) /\
    is_dir w' (repo_path self repo_name) = true /\
    dict_mem "filters" md = true /\
    dict_get "issues" md = Some (VDict issues) /\
    dict_get (str_of_Z (number i)) issues =
      Some (metadata_entry (fingerprint i) i).
Proof.
  unfold save_issue. rewrite get_repo_dir_bind.
  fold (issue_path self repo_name (number i)). intros H.
  apply io_bind_ok_inv in H as (p0 & w1 & Hdir & H).
  apply get_repo_dir_ok_inv in Hdir as (_ & Hfiles1 & _ & _ & _).
  apply io_bind_ok_inv in H as ([] & w2 & Hwrite & H).
  apply write_file_ok_inv in Hwrite as [Hfiles2 _].
  apply io_bind_ok_inv in H as ([] & w3 & Hupd & H).
  unfold io_ret in H. injection H as <- <-.
  apply update_metadata_ok_inv in Hupd
    as (md & issues & w2' & Hfiles2' & Hfiles3 & Hisdir & Hf & Hi & He).
  exists md, issues. repeat split; try done.
  by rewrite Hfiles3, Hfiles2', Hfiles2, Hfiles1.
Qed.

(** C4, as the code has it. A save that returns has done both halves:
    the document holds the rendered issue, the metadata document holds
    the entry of the issue, and [load_metadata] reads it back. So the
    document is never written with the metadata update skipped, or the
    other way round, unless the save raises. *)
Theorem save_issue_returns_after_both_writes self repo_name i w p w' :
  save_issue yaml_dump self repo_name i w = (Ok p, w') ->
  p = path_str (issue_path self repo_name (number i)) /\
  files w' !! issue_path self repo_name (number i) =
    Some (FText (_generate_markdown yaml_dump i)) /\
  exists md issues,
    files w' !! metadata_path self repo_name = Some (FJson (VDict md)) /\
    load_metadata self repo_name w' = (Ok (VDict md), w') /\
    dict_get "issues" md = Some (VDict issues) /\
    dict_get (str_of_Z (number i)) issues =
      Some (metadata_entry (fingerprint i) i).
Proof.
  intros H. apply save_issue_ok_inv in H
    as (md & issues & -> & Hfiles & Hdir & Hf & Hi & He).
  split; [done|]. split.
  - rewrite Hfiles, lookup_insert_ne by
      (apply not_eq_sym, issue_path_ne_metadata_path).
    apply lookup_insert_eq.
  - exists md, issues.
    assert (Hm : files w' !! metadata_path self repo_name
                 = Some (FJson (VDict md)))
      by (rewrite Hfiles; apply lookup_insert_eq).
    repeat split; try done. by apply load_metadata_current.
Qed.
End SaveIssue.

(** *** Directory and document names *)

Lemma replace_char_inj a b s1 : forall s2,
  has_char b s1 = false -> has_char b s2 = false ->
  replace_char a b s1 = replace_char a b s2 -> s1 = s2.
Proof.
  induction s1 as [|c1 s1 IH]; intros [|c2 s2]; simpl; try done.
  intros [H1 H1']%orb_false_elim [H2 H2']%orb_false_elim [= Hc Hs].
  f_equal; [|by apply IH].
  apply Ascii.eqb_neq in H1, H2.
  destruct (Ascii.eqb_spec c1 a), (Ascii.eqb_spec c2 a); congruence.
Qed.

Lemma repo_dir_name_same a : forall b,
  repo_dir_name a = repo_dir_name b <-> same_up_to_separator a b = true.
Proof.
  unfold repo_dir_name.
  induction a as [|x a IH]; intros [|y b]; simpl; try done.
  rewrite andb_true_iff, <- IH. unfold is_separator. split.
  - intros [= Hc Hs]. split; [|done].
    destruct (Ascii.eqb_spec x "/"), (Ascii.eqb_spec y "/"),
      (Ascii.eqb_spec x y), (Ascii.eqb_spec x "-"), (Ascii.eqb_spec y "-");
      simpl; congruence.
  - intros [Hc ->]. f_equal.
    destruct (Ascii.eqb_spec x "/"), (Ascii.eqb_spec y "/"),
      (Ascii.eqb_spec x y), (Ascii.eqb_spec x "-"), (Ascii.eqb_spec y "-");
      simpl in *; congruence.
Qed.

Lemma replace_char_app a b s1 s2 :
  replace_char a b (s1 +:+ s2) = replace_char a b s1 +:+ replace_char a b s2.
Proof. induction s1 as [|c s1 IH]; simpl; [done|by rewrite IH]. Qed.

Lemma replace_char_absent a b s :
  has_char a s = false -> replace_char a b s = s.
Proof.
  induction s as [|c s IH]; simpl; [done|].
  intros [-> H]%orb_false_elim. by rewrite IH.
Qed.

Lemma repo_dir_name_owner_name o n :
  has_char "/" o = false -> has_char "/" n = false ->
  repo_dir_name (o +:+ "/" +:+ n) = o +:+ "-" +:+ n.
Proof.
  intros Ho Hn. unfold repo_dir_name.
  rewrite !replace_char_app.
  by rewrite (replace_char_absent _ _ o), (replace_char_absent _ _ n).
Qed.

Lemma has_char_all_chars c s :
  has_char c s = false -> all_chars (fun x => negb (Ascii.eqb x c)) s = true.
Proof.
  induction s as [|x s IH]; simpl; [done|].
  intros [-> H]%orb_false_elim. simpl. auto.
Qed.

Lemma repo_dir_name_owner_inj o1 n1 o2 n2 :
  has_char "/" o1 = false -> has_char "-" o1 = false ->
  has_char "/" o2 = false -> has_char "-" o2 = false ->
  has_char "/" n1 = false -> has_char "/" n2 = false ->
  repo_dir_name (o1 +:+ "/" +:+ n1) = repo_dir_name (o2 +:+ "/" +:+ n2) ->
  o1 = o2 /\ n1 = n2.
Proof.
  intros Hs1 Hh1 Hs2 Hh2 Hn1 Hn2.
  rewrite !repo_dir_name_owner_name by done. intros H.
  apply (span_unique (fun x => negb (Ascii.eqb x "-"))) in H
    as [-> H]; auto using has_char_all_chars.
  split; [done|]. by injection H.
Qed.

Lemma repo_dir_name_shifted x y n :
  repo_dir_name ((x +:+ "-" +:+ y) +:+ "/" +:+ n) =
  repo_dir_name (x +:+ "/" +:+ (y +:+ "-" +:+ n)).
Proof.
  unfold repo_dir_name. rewrite !replace_char_app. simpl.
  induction (replace_char "/" "-" x) as [|c s IH]; simpl; [done|by rewrite IH].
Qed.

Lemma issue_file_name_inj n m :
  issue_file_name n = issue_file_name m -> n = m.
Proof.
  unfold issue_file_name. intros H. apply String.app_inj in H.
  apply str_of_Z_app_inj in H; [tauto|reflexivity..].
Qed.

Lemma issue_path_inj self repo_name n m :
  issue_path self repo_name n = issue_path self repo_name m -> n = m.
Proof.
  rewrite !issue_path_snoc. intros H. apply app_inj_tail in H as [_ H].
  by apply issue_file_name_inj.
Qed.

(** C9, counterexample: two repositories with one directory name. *)
Lemma repo_dir_name_collision :
  "foo-bar/baz" <> "foo/bar-baz" /\
  repo_dir_name "foo-bar/baz" = repo_dir_name "foo/bar-baz".
Proof. split; [discriminate|reflexivity]. Qed.

(** C9, as the code has it. The directory name is the repository
    identifier with every slash replaced by a hyphen. Two identifiers have
    the same directory name exactly when they agree up to the separator
    (same length, and wherever they differ each holds a slash or a hyphen):
    so [x-y/n] and [x/y-n] always share a directory, while two identifiers
    owner/name whose owners hold no hyphen, and any two identifiers without
    a hyphen, have different directory names. Within a repository the
    document of an issue is named after its number alone, different numbers
    give different documents, and saving an issue of the same number again
    returns the same path and adds no file. *)
Theorem repo_dir_name_and_issue_path_deterministic :
  (forall a b : string,
     repo_dir_name a = repo_dir_name b <-> same_up_to_separator a b = true) /\
  (forall o1 n1 o2 n2 : string,
     has_char "/" o1 = false -> has_char "-" o1 = false ->
     has_char "/" o2 = false -> has_char "-" o2 = false ->
     has_char "/" n1 = false -> has_char "/" n2 = false ->
     repo_dir_name (o1 +:+ "/" +:+ n1) = repo_dir_name (o2 +:+ "/" +:+ n2) ->
     o1 = o2 /\ n1 = n2) /\
  (forall x y n : string,
     repo_dir_name ((x +:+ "-" +:+ y) +:+ "/" +:+ n) =
     repo_dir_name (x +:+ "/" +:+ (y +:+ "-" +:+ n))) /\
  (forall a b : string,
     has_char "-" a = false -> has_char "-" b = false ->
     repo_dir_name a = repo_dir_name b -> a = b) /\
  (forall self repo_name n m,
     issue_path self repo_name n = issue_path self repo_name m -> n = m) /\
  (forall yaml_dump self repo_name (i j : issue) w w1 w2 p q,
     number i = number j ->
     save_issue yaml_dump self repo_name i w = (Ok p, w1) ->
     save_issue yaml_dump self repo_name j w1 = (Ok q, w2) ->
     q = p /\ dom (files w2) = dom (files w1)).
Proof.
  split; [|split; [|split; [|split; [|split]]]].
  - intros a b. apply repo_dir_name_same.
  - apply repo_dir_name_owner_inj.
  - apply repo_dir_name_shifted.
  - intros a b Ha Hb. unfold repo_dir_name. by apply replace_char_inj.
  - apply issue_path_inj.
  - intros yaml_dump self repo_name i j w w1 w2 p q Hn H1 H2.
    apply save_issue_ok_inv in H1 as (md1 & is1 & -> & Hf1 & _).
    apply save_issue_ok_inv in H2 as (md2 & is2 & -> & Hf2 & _).
    rewrite <- Hn in *. split; [done|].
    rewrite Hf2, Hf1, !dom_insert_L. apply set_eq. intros x.
    rewrite !elem_of_union. tauto.
Qed.

(** *** Runs on concrete stores *)

(** C4, counterexample. The store holds issue 1 and issue 2; issue 3 is
    saved; the document is written, then the write of the metadata
    document breaks off. The save raises, the document of issue 3 is on
    disk, the metadata document is truncated, so that the store is
    neither as it was nor as a complete save leaves it, and the metadata
    can no longer be loaded. *)
Lemma save_issue_not_atomic :
  let w := with_faults [NoFault; WriteFails] current_store in
  let r := save_issue example_yaml_dump example_storage example_repo issue_3 w in
  fst r = Raise OSError /\
  files (snd r) !! issue_path example_storage example_repo 3 =
    Some (FText (_generate_markdown example_yaml_dump issue_3)) /\
  files (snd r) !! metadata_path example_storage example_repo = Some FPartial /\
  fst (load_metadata example_storage example_repo (snd r)) =
    Raise JSONDecodeError /\
  ~ save_is_atomic example_yaml_dump example_storage example_repo issue_3 w.
Proof.
  cbv zeta. split; [vm_compute; reflexivity|].
  split; [vm_compute; reflexivity|].
  split; [vm_compute; reflexivity|].
  split; [vm_compute; reflexivity|].
  unfold save_is_atomic.
  intros [H|H];
    apply (f_equal (fun m => m !! metadata_path example_storage example_repo))
      in H; vm_compute in H; discriminate.
Qed.

(** *** What a metadata write preserves *)

Lemma load_metadata_after_get_repo_dir self repo_name w p w1 :
  get_repo_dir self repo_name w = (Ok p, w1) ->
  load_metadata self repo_name w1 = load_metadata self repo_name w.
Proof.
  intros H. pose proof (get_repo_dir_ok_inv _ _ _ _ _ H) as (-> & _ & _ & Hd & _).
  unfold load_metadata.
  rewrite !(io_bind_eq (get_repo_dir self repo_name)).
  by rewrite H, (get_repo_dir_existing _ _ _ Hd).
Qed.

Lemma load_metadata_ok_dir self repo_name w md w' :
  load_metadata self repo_name w = (Ok md, w') ->
  is_dir w' (repo_path self repo_name) = true.
Proof.
  unfold load_metadata. intros H.
  apply io_bind_ok_inv in H as (p & w1 & Hdir & H).
  apply get_repo_dir_ok_inv in Hdir as (_ & _ & _ & Hd & _).
  apply io_bind_ok_inv in H as (ex & w2 & Hex & H).
  unfold path_exists in Hex. injection Hex as _ <-.
  destruct ex; [|by injection H as _ <-].
  apply io_bind_ok_inv in H as (c & w3 & Hread & H).
  assert (w3 = w1) as ->.
  { revert Hread. unfold read_file. destruct (files w1 !! _).
    - by intros [= _ <-].
    - destruct (is_dir w1 (path_join p _)); intros [=]. }
  apply io_bind_ok_inv in H as (m & w4 & Hm & H).
  apply io_lift_ok_inv in Hm as [_ ->].
  apply io_bind_ok_inv in H as (hf & w5 & Hhf & H).
  apply io_lift_ok_inv in Hhf as [_ ->].
  destruct hf; [by injection H as _ <-|].
  apply io_bind_ok_inv in H as (items & w6 & Hitems & H).
  apply io_lift_ok_inv in Hitems as [_ ->].
  by injection H as _ <-.
Qed.

(** [save_filters] replaces the filters and nothing else: what
    [load_metadata] returned before, with ['filters'] set, is what it
    returns afterwards. This holds for a legacy store too, which
    [load_metadata] has upgraded before the filters are set. *)
Lemma save_filters_frame self repo_name (filters : value) w w' :
  save_filters self repo_name filters w = (Ok tt, w') ->
  exists md w1,
    load_metadata self repo_name w = (Ok (VDict md), w1) /\
    load_metadata self repo_name w' =
      (Ok (VDict (dict_set "filters" filters md)), w') /\
    dict_get "filters" (dict_set "filters" filters md) = Some filters /\
    dict_get "issues" (dict_set "filters" filters md) = dict_get "issues" md.
Proof.
  unfold save_filters. rewrite get_repo_dir_bind.
  fold (metadata_path self repo_name). intros H.
  apply io_bind_ok_inv in H as (p & w1 & Hdir & H).
  pose proof (load_metadata_after_get_repo_dir _ _ _ _ _ Hdir) as Hsame.
  apply io_bind_ok_inv in H as (metadata & w2 & Hload & H).
  apply io_bind_ok_inv in H as (metadata' & w3 & Hset & H).
  apply io_lift_ok_inv in Hset as [Hset ->].
  destruct metadata as [| | | |md]; try discriminate.
  injection Hset as <-.
  apply write_file_ok_inv in H as [Hfiles Hdirs].
  pose proof (load_metadata_ok_dir _ _ _ _ _ Hload) as Hw2.
  exists md, w2. rewrite <- Hsame. split; [done|]. split; [|split].
  - apply load_metadata_current.
    + by rewrite (is_dir_same_dirs _ _ _ Hdirs).
    + rewrite Hfiles. apply lookup_insert_eq.
    + unfold dict_mem. by rewrite dict_get_set_same.
  - apply dict_get_set_same.
  - by apply dict_get_set_other.
Qed.

(** On a metadata dictionary in the current format, the pure part of
    [_update_metadata] sets the entry of the issue and nothing else. *)
Lemma update_metadata_value_current (d : dict) filters issues i :
  dict_get "filters" d = Some filters ->
  dict_get "issues" d = Some (VDict issues) ->
  let issues' :=
    dict_set (str_of_Z (number i)) (metadata_entry (fingerprint i) i) issues in
  let d' := dict_set "issues" (VDict issues') d in
  update_metadata_value (VDict d) i = Ok (VDict d') /\
  dict_get "filters" d' = Some filters /\
  dict_get "issues" d' = Some (VDict issues') /\
  (forall k, k <> str_of_Z (number i) ->
             dict_get k issues' = dict_get k issues).
Proof.
  intros Hf Hi issues' d'. split; [|split; [|split]].
  - unfold update_metadata_value. rewrite calculate_hash_issue.
    cbn [py_contains rbind]. unfold dict_mem. rewrite Hf. cbn [rbind py_contains].
    unfold dict_mem. rewrite Hi. cbn [rbind py_subscript]. unfold py_getitem.
    by rewrite Hi.
  - subst d'. by rewrite dict_get_set_other.
  - apply dict_get_set_same.
  - intros k Hk. by apply dict_get_set_other.
Qed.

(** C6, on the failing input. The store is in the legacy flat format and
    holds the entry of issue 1, which [load_metadata] shows among the
    issues. [_update_metadata] for issue 2 returns normally; it has put
    the wrapper keys next to the legacy entry instead of moving the entry
    below ['issues'], so [load_metadata] now finds ['filters'], skips the
    upgrade, and shows issue 2 as the only stored issue: the entry of
    issue 1 is no longer among them. *)
Theorem update_metadata_hides_legacy_entries :
  let entry_1 := metadata_entry (fingerprint issue_1) issue_1 in
  let entry_2 := metadata_entry (fingerprint issue_2) issue_2 in
  let r := _update_metadata example_storage example_repo issue_2 legacy_store in
  let stored_issues (w : world) :=
    metadata <- fst (load_metadata example_storage example_repo w) ;;
    py_get metadata "issues" (VDict []) in
  stored_issues legacy_store = Ok (VDict [("1", entry_1)]) /\
  fst r = Ok tt /\
  files (snd r) !! metadata_path example_storage example_repo =
    Some (FJson (VDict [ ("1", entry_1); ("filters", VDict []);
                         ("issues", VDict [("2", entry_2)]) ])) /\
  stored_issues (snd r) = Ok (VDict [("2", entry_2)]).
Proof.
  cbv zeta. split; [vm_compute; reflexivity|].
  split; [vm_compute; reflexivity|].
  split; vm_compute; reflexivity.
Qed.

(** *** The theorems at concrete inputs *)

(** C1 on the example store, on which the pass returns. *)
Lemma detect_changes_partition_witness :
  exists ch,
    detect_changes example_tracker example_repo [issue_1; issue_2; issue_3]
      current_store = (Ok ch, current_store) /\
    (length (new ch) + length (updated ch) + length (unchanged ch) = 3)%nat.
Proof.
  destruct (detect_changes_partition example_tracker example_repo
              [issue_1; issue_2; issue_3] current_store)
    as (Hpart & Hruns & _).
  destruct (Hruns (VDict current_metadata) current_entries current_store)
    as [ch Hrun].
  - vm_compute. reflexivity.
  - reflexivity.
  - repeat constructor; eexists; reflexivity.
  - exists ch. split; [exact Hrun|].
    destruct (Hpart ch current_store Hrun)
      as (metadata & stored & _ & _ & _ & _ & _ & Hlen).
    exact Hlen.
Defined.

(** The pass on the example store: issue 1 is unchanged, issue 2 is
    updated (its stored state and timestamp differ), issue 3 is new. *)
Example detect_changes_on_current_store :
  fst (detect_changes example_tracker example_repo
         [issue_1; issue_2; issue_3] current_store) =
  Ok {| new := [issue_3];
        updated :=
          [ (issue_2,
             [ state_descriptor "closed" "open";
               updated_descriptor "2024-01-02T09:30:00" ]) ];
        unchanged := [1] |}.
Proof. vm_compute. reflexivity. Qed.



(** C8 on issue 1, and on the dictionary without ['body']. *)
Lemma calculate_hash_total_on_records_witness :
  _calculate_hash (issue_dict issue_1) = Ok (fingerprint issue_1) /\
  is_ok (_calculate_hash record_without_body) = false.
Proof.
  split.
  - apply (proj1 calculate_hash_total_on_records).
  - apply (proj2 calculate_hash_total_on_records record_without_body "body").
    + simpl. tauto.
    + reflexivity.
Defined.

(** C5 on the legacy store. *)
Lemma load_metadata_legacy_witness :
  load_metadata example_storage example_repo legacy_store =
    (Ok (VDict [ ("filters", VDict []);
                 ("issues",
                   VDict [("1", metadata_entry (fingerprint issue_1) issue_1)]) ]),
     legacy_store).
Proof.
  apply (load_metadata_legacy example_storage example_repo legacy_store
           [("1", metadata_entry (fingerprint issue_1) issue_1)]).
  - vm_compute. reflexivity.
  - vm_compute. reflexivity.
  - reflexivity.
Defined.

(** C4 on a first save of issue 1 into an empty repository directory. *)
Lemma save_issue_returns_after_both_writes_witness :
  let r :=
    save_issue example_yaml_dump example_storage example_repo issue_1
      fresh_store in
  r = (Ok "issues/acme-widgets/issue-1.md", snd r) /\
  files (snd r) !! issue_path example_storage example_repo 1 =
    Some (FText (_generate_markdown example_yaml_dump issue_1)) /\
  exists md issues,
    load_metadata example_storage example_repo (snd r) = (Ok (VDict md), snd r) /\
    dict_get "issues" md = Some (VDict issues) /\
    dict_get "1" issues = Some (metadata_entry (fingerprint issue_1) issue_1).
Proof.
  cbv zeta.
  assert (Hrun :
    save_issue example_yaml_dump example_storage example_repo issue_1
      fresh_store =
    (Ok "issues/acme-widgets/issue-1.md",
     snd (save_issue example_yaml_dump example_storage example_repo issue_1
            fresh_store)))
    by (vm_compute; reflexivity).
  split; [exact Hrun|].
  destruct (save_issue_returns_after_both_writes example_yaml_dump
              example_storage example_repo issue_1 fresh_store _ _ Hrun)
    as (_ & Hdoc & md & issues & _ & Hload & Hi & He).
  split; [exact Hdoc|]. exists md, issues. auto.
Defined.

(** C9 on two saves of issue number 1: one path, no new file; and on two
    identifiers that agree up to the separator: one directory. *)
Lemma repo_dir_name_and_issue_path_deterministic_witness :
  let r1 :=
    save_issue example_yaml_dump example_storage example_repo issue_1
      fresh_store in
  let r2 :=
    save_issue example_yaml_dump example_storage example_repo
      (example_issue 1 "Bug" "closed") (snd r1) in
  fst r1 = Ok "issues/acme-widgets/issue-1.md" /\
  fst r2 = Ok "issues/acme-widgets/issue-1.md" /\
  dom (files (snd r2)) = dom (files (snd r1)) /\
  repo_dir_name "acme-corp/widgets" = repo_dir_name "acme/corp-widgets".
Proof.
  cbv zeta.
  set (r1 := save_issue example_yaml_dump example_storage example_repo issue_1
               fresh_store).
  set (r2 := save_issue example_yaml_dump example_storage example_repo
               (example_issue 1 "Bug" "closed") (snd r1)).
  assert (H1 : r1 = (Ok "issues/acme-widgets/issue-1.md", snd r1))
    by (vm_compute; reflexivity).
  assert (H2 : r2 = (Ok "issues/acme-widgets/issue-1.md", snd r2))
    by (vm_compute; reflexivity).
  destruct repo_dir_name_and_issue_path_deterministic
    as (Hsame & _ & _ & _ & _ & Hsave).
  destruct (Hsave example_yaml_dump example_storage example_repo issue_1
              (example_issue 1 "Bug" "closed") fresh_store (snd r1) (snd r2)
              _ _ eq_refl H1 H2) as [_ Hdom].
  split; [by rewrite H1|]. split; [by rewrite H2|]. split; [exact Hdom|].
  exact (proj2 (Hsame "acme-corp/widgets" "acme/corp-widgets") eq_refl).
Defined.

Lemma base_only_disk_wf : wf_world base_only_disk.
Proof.
  intros q. unfold is_file, is_dir, base_only_disk, add_dir, empty_disk. simpl.
  rewrite lookup_empty. split; [|done].
  intros [H|H]; [|done].
  apply orb_true_iff in H as [H|H]; apply bool_decide_eq_true in H.
  - by subst q.
  - apply elem_of_union in H as [H|H].
    + apply elem_of_singleton in H. by subst q.
    + by apply elem_of_empty in H.
Qed.

(** C10 on a disk that has the base directory only, and on the empty
    disk for the constructor. *)
Lemma read_operations_create_directories_witness :
  let w' := add_dir ["issues"; "acme-widgets"] base_only_disk in
  load_metadata example_storage example_repo base_only_disk =
    (Ok empty_metadata, w') /\
  issue_exists example_storage example_repo 1 base_only_disk = (Ok false, w') /\
  __init__ ["issues"] empty_disk = (Ok example_storage, base_only_disk).
Proof.
  cbv zeta.
  destruct (proj1 read_operations_create_directories example_storage
              example_repo 1 base_only_disk base_only_disk_wf)
    as (Hload & _ & Hexists & _); [reflexivity..|].
  destruct (proj2 read_operations_create_directories ["issues"] empty_disk)
    as (Hinit & _); [reflexivity..|].
  split; [exact Hload|]. split; [exact Hexists|exact Hinit].
Defined.

(** * More properties *)

(** *** Operations that only read *)

Lemma read_only_ret {A} (a : A) : read_only (io_ret a).
Proof. done. Qed.

Lemma read_only_lift {A} (m : result A) : read_only (io_lift m).
Proof. done. Qed.

Lemma read_only_bind {A B} (m : IO A) (k : A -> IO B) :
  read_only m -> (forall a, read_only (k a)) -> read_only (io_bind m k).
Proof.
  intros Hm Hk w. unfold io_bind. specialize (Hm w).
  destruct (m w) as [[a|e] w1]; simpl in Hm; subst w1; [apply Hk|done].
Qed.

Lemma read_only_path_exists p : read_only (path_exists p).
Proof. done. Qed.

Lemma read_only_read_file p : read_only (read_file p).
Proof.
  intros w. unfold read_file. destruct (files w !! p); [done|].
  by destruct (is_dir w p).
Qed.

Lemma read_only_glob_star p pre post : read_only (glob_star p pre post).
Proof. done. Qed.

Lemma creates_at_most_bind {A B} p (m : IO A) (k : A -> IO B) :
  creates_at_most p m -> (forall a, read_only (k a)) ->
  creates_at_most p (io_bind m k).
Proof.
  intros Hm Hk w. unfold io_bind. specialize (Hm w).
  destruct (m w) as [[a|e] w1]; simpl in Hm; [|done].
  by rewrite (Hk a w1).
Qed.

Lemma creates_at_most_get_repo_dir self repo_name :
  creates_at_most (repo_path self repo_name) (get_repo_dir self repo_name).
Proof.
  intros w. unfold get_repo_dir, io_bind, io_ret, mkdir_exist_ok.
  fold (repo_path self repo_name).
  destruct (is_dir w _); [by auto|].
  destruct (is_file w _); [by auto|].
  destruct (is_dir w _); [by auto|].
  destruct (is_file w _); by auto.
Qed.

Lemma creates_at_most_load_metadata self repo_name :
  creates_at_most (repo_path self repo_name) (load_metadata self repo_name).
Proof.
  unfold load_metadata.
  apply creates_at_most_bind; [apply creates_at_most_get_repo_dir|].
  intros repo_dir. apply read_only_bind; [apply read_only_path_exists|].
  intros [|]; [|apply read_only_ret].
  apply read_only_bind; [apply read_only_read_file|]. intros c.
  apply read_only_bind; [apply read_only_lift|]. intros metadata.
  apply read_only_bind; [apply read_only_lift|].
  intros [|]; [apply read_only_ret|].
  apply read_only_bind; [apply read_only_lift|]. intros items.
  apply read_only_ret.
Qed.

Lemma creates_at_most_load_filters self repo_name :
  creates_at_most (repo_path self repo_name) (load_filters self repo_name).
Proof.
  unfold load_filters.
  apply creates_at_most_bind; [apply creates_at_most_load_metadata|].
  intros metadata. apply read_only_lift.
Qed.

Lemma creates_at_most_issue_exists self repo_name n :
  creates_at_most (repo_path self repo_name) (issue_exists self repo_name n).
Proof.
  unfold issue_exists.
  apply creates_at_most_bind; [apply creates_at_most_get_repo_dir|].
  intros repo_dir. apply read_only_path_exists.
Qed.

Lemma creates_at_most_get_all_issue_numbers self repo_name :
  creates_at_most (repo_path self repo_name)
    (get_all_issue_numbers self repo_name).
Proof.
  unfold get_all_issue_numbers.
  apply creates_at_most_bind; [apply creates_at_most_get_repo_dir|].
  intros repo_dir. apply read_only_bind; [apply read_only_path_exists|].
  intros [|]; [|apply read_only_ret].
  apply read_only_bind; [apply read_only_glob_star|]. intros names.
  apply read_only_ret.
Qed.

Lemma creates_at_most_detect_changes self repo_name l :
  creates_at_most (repo_path (storage self) repo_name)
    (detect_changes self repo_name l).
Proof.
  unfold detect_changes.
  apply creates_at_most_bind; [apply creates_at_most_load_metadata|].
  intros metadata. apply read_only_bind; [apply read_only_lift|].
  intros stored. apply read_only_bind; [apply read_only_lift|].
  intros keys. apply read_only_lift.
Qed.

Lemma creates_at_most_get_deleted_issues self repo_name l :
  creates_at_most (repo_path (storage self) repo_name)
    (get_deleted_issues self repo_name l).
Proof.
  unfold get_deleted_issues.
  apply creates_at_most_bind; [apply creates_at_most_load_metadata|].
  intros metadata. apply read_only_bind; [apply read_only_lift|].
  intros stored. apply read_only_bind; [apply read_only_lift|].
  intros keys. apply read_only_bind; [apply read_only_lift|].
  intros numbers. apply read_only_ret.
Qed.

(** X1. The operations that query the store never write: whatever they
    return or raise, [load_metadata], [load_filters], [issue_exists],
    [get_all_issue_numbers], [detect_changes] and [get_deleted_issues]
    leave every file and the pending write faults as they were, and
    create no directory other than that of the repository. *)
Theorem queries_write_no_file self repo_name :
  creates_at_most (repo_path self repo_name) (load_metadata self repo_name) /\
  creates_at_most (repo_path self repo_name) (load_filters self repo_name) /\
  (forall n,
     creates_at_most (repo_path self repo_name)
       (issue_exists self repo_name n)) /\
  creates_at_most (repo_path self repo_name)
    (get_all_issue_numbers self repo_name) /\
  (forall l,
     creates_at_most (repo_path self repo_name)
       (detect_changes {| storage := self |} repo_name l)) /\
  (forall l,
     creates_at_most (repo_path self repo_name)
       (get_deleted_issues {| storage := self |} repo_name l)).
Proof.
  split; [apply creates_at_most_load_metadata|].
  split; [apply creates_at_most_load_filters|].
  split; [apply creates_at_most_issue_exists|].
  split; [apply creates_at_most_get_all_issue_numbers|].
  split; intros l.
  - apply (creates_at_most_detect_changes {| storage := self |}).
  - apply (creates_at_most_get_deleted_issues {| storage := self |}).
Qed.

(** *** Saving into a store in the current format *)

Lemma metadata_path_ne_repo_path self repo_name :
  metadata_path self repo_name <> repo_path self repo_name.
Proof. rewrite metadata_path_snoc. apply snoc_ne_self. Qed.

Lemma get_repo_dir_world self repo_name w p w1 :
  get_repo_dir self repo_name w = (Ok p, w1) ->
  p = repo_path self repo_name /\
  is_dir w1 (repo_path self repo_name) = true /\
  files w1 = files w /\ faults w1 = faults w /\
  (forall q, q <> repo_path self repo_name -> is_dir w1 q = is_dir w q).
Proof.
  intros H.
  pose proof (get_repo_dir_ok_inv _ _ _ _ _ H) as (-> & Hf & Hfl & Hd & _).
  repeat split; try done. intros q Hq.
  destruct (creates_at_most_get_repo_dir self repo_name w) as (_ & _ & Hw).
  rewrite H in Hw. simpl in Hw. destruct Hw as [->| ->]; [done|].
  rewrite is_dir_add_dir. by rewrite bool_decide_eq_false_2.
Qed.

Lemma stored_as_same self repo_name w w1 filters issues :
  files w1 !! metadata_path self repo_name =
    files w !! metadata_path self repo_name ->
  is_dir w1 (metadata_path self repo_name) =
    is_dir w (metadata_path self repo_name) ->
  stored_as self repo_name w filters issues ->
  stored_as self repo_name w1 filters issues.
Proof. unfold stored_as. by intros -> ->. Qed.

Lemma stored_as_get_repo_dir self repo_name w p w1 filters issues :
  get_repo_dir self repo_name w = (Ok p, w1) ->
  stored_as self repo_name w filters issues ->
  stored_as self repo_name w1 filters issues.
Proof.
  intros H. apply get_repo_dir_world in H as (_ & _ & Hf & _ & Hd).
  apply stored_as_same; [by rewrite Hf|].
  apply Hd, metadata_path_ne_repo_path.
Qed.

Lemma load_metadata_stored self repo_name w filters issues :
  is_dir w (repo_path self repo_name) = true ->
  stored_as self repo_name w filters issues ->
  exists md,
    load_metadata self repo_name w = (Ok (VDict md), w) /\
    py_get (VDict md) "filters" (VDict []) = Ok filters /\
    py_get (VDict md) "issues" (VDict []) = Ok (VDict issues).
Proof.
  intros Hdir. unfold stored_as.
  destruct (files w !! metadata_path self repo_name)
    as [[s|[| | | |md]|]|] eqn:Hfile; try done.
  - intros [Hf Hi]. exists md. split; [|split].
    + apply load_metadata_current; [done..|]. unfold dict_mem. by rewrite Hf.
    + cbn [py_get]. by rewrite Hf.
    + cbn [py_get]. destruct (dict_get "issues" md); by subst.
  - intros (Hnd & -> & ->).
    exists [("filters", VDict []); ("issues", VDict [])].
    split; [|done].
    unfold load_metadata, io_bind. rewrite get_repo_dir_existing by done.
    fold (metadata_path self repo_name).
    unfold path_exists, is_file. by rewrite Hfile, Hnd.
Qed.

Lemma read_file_ok_inv p w c w' :
  read_file p w = (Ok c, w') -> files w !! p = Some c /\ w' = w.
Proof.
  unfold read_file. destruct (files w !! p); [by intros [= -> <-]|].
  by destruct (is_dir w p).
Qed.

(** A load that returns on a store in the current format, from which the
    stored issues can be read, sees what the store holds. *)
Lemma current_format_stored self repo_name w m w1 issues :
  current_format self repo_name w ->
  load_metadata self repo_name w = (Ok m, w1) ->
  py_get m "issues" (VDict []) = Ok (VDict issues) ->
  exists filters,
    py_get m "filters" (VDict []) = Ok filters /\
    stored_as self repo_name w1 filters issues /\
    is_dir w1 (repo_path self repo_name) = true.
Proof.
  intros Hcur H Hissues. unfold load_metadata in H.
  apply io_bind_ok_inv in H as (p & w2 & Hdir & H).
  apply get_repo_dir_world in Hdir as (-> & Hd & Hf & _ & _).
  fold (metadata_path self repo_name) in H.
  apply io_bind_ok_inv in H as (ex & w3 & Hex & H).
  unfold path_exists in Hex. injection Hex as <- <-.
  destruct (is_dir w2 (metadata_path self repo_name)) eqn:Hmd;
    cbn [orb] in H.
  - apply io_bind_ok_inv in H as (c & w3 & Hread & H).
    apply read_file_ok_inv in Hread as [Hread ->].
    pose proof Hread as Hc. rewrite Hf in Hc.
    apply Hcur in Hc as (md & -> & Hfilters).
    unfold io_bind, io_lift in H. cbn [json_load py_contains] in H.
    rewrite Hfilters in H. injection H as <- <-.
    unfold dict_mem in Hfilters.
    destruct (dict_get "filters" md) as [filters|] eqn:Hget; [|done].
    exists filters. split; [cbn [py_get]; by rewrite Hget|]. split; [|done].
    unfold stored_as. rewrite Hread. split; [done|].
    cbn [py_get] in Hissues. destruct (dict_get "issues" md); congruence.
  - destruct (is_file w2 (metadata_path self repo_name)) eqn:Hmf.
    + apply io_bind_ok_inv in H as (c & w3 & Hread & H).
      apply read_file_ok_inv in Hread as [Hread ->].
      pose proof Hread as Hc. rewrite Hf in Hc.
      apply Hcur in Hc as (md & -> & Hfilters).
      unfold io_bind, io_lift in H. cbn [json_load py_contains] in H.
      rewrite Hfilters in H. injection H as <- <-.
      unfold dict_mem in Hfilters.
      destruct (dict_get "filters" md) as [filters|] eqn:Hget; [|done].
      exists filters. split; [cbn [py_get]; by rewrite Hget|]. split; [|done].
      unfold stored_as. rewrite Hread. split; [done|].
      cbn [py_get] in Hissues. destruct (dict_get "issues" md); congruence.
    + injection H as <- <-. exists (VDict []). split; [done|]. split; [|done].
      unfold stored_as. unfold is_file in Hmf.
      destruct (files w2 !! metadata_path self repo_name); [done|].
      injection Hissues as <-. done.
Qed.

Lemma update_metadata_value_stored (md : dict) filters issues i :
  match dict_get "filters" md with
  | Some v => v = filters
  | None => filters = VDict []
  end ->
  match dict_get "issues" md with
  | Some v => v = VDict issues
  | None => issues = []
  end ->
  exists md',
    update_metadata_value (VDict md) i = Ok (VDict md') /\
    dict_get "filters" md' = Some filters /\
    dict_get "issues" md' =
      Some (VDict (dict_set (str_of_Z (number i))
                     (metadata_entry (fingerprint i) i) issues)).
Proof.
  intros Hf Hi. unfold update_metadata_value. rewrite calculate_hash_issue.
  cbn [py_contains rbind]. unfold dict_mem at 1.
  set (d1 := if dict_mem "filters" md then md
             else dict_set "filters" (VDict []) md).
  assert (Hd1 : dict_get "filters" d1 = Some filters).
  { subst d1. unfold dict_mem.
    destruct (dict_get "filters" md) eqn:Hget; [by subst|].
    subst. apply dict_get_set_same. }
  assert (Hd1i : dict_get "issues" d1 = dict_get "issues" md).
  { subst d1. destruct (dict_mem "filters" md); [done|].
    by apply dict_get_set_other. }
  assert (Hstep1 :
    (if match dict_get "filters" md with Some _ => true | None => false end
     then Ok (VDict md)
     else py_setitem (VDict md) "filters" (VDict [])) = Ok (VDict d1)).
  { subst d1. unfold dict_mem. by destruct (dict_get "filters" md). }
  rewrite Hstep1. cbn [rbind py_contains].
  set (d2 := if dict_mem "issues" d1 then d1
             else dict_set "issues" (VDict []) d1).
  assert (Hstep2 :
    (if dict_mem "issues" d1 then Ok (VDict d1)
     else py_setitem (VDict d1) "issues" (VDict [])) = Ok (VDict d2)).
  { subst d2. by destruct (dict_mem "issues" d1). }
  rewrite Hstep2. cbn [rbind py_subscript]. unfold py_getitem.
  assert (Hd2 : dict_get "filters" d2 = Some filters).
  { subst d2. destruct (dict_mem "issues" d1); [done|].
    by rewrite dict_get_set_other. }
  assert (Hd2i : dict_get "issues" d2 = Some (VDict issues)).
  { subst d2. unfold dict_mem. rewrite Hd1i.
    destruct (dict_get "issues" md) eqn:Hget.
    - subst. by rewrite Hd1i.
    - subst. apply dict_get_set_same. }
  rewrite Hd2i. cbn [rbind py_setitem]. eexists. split; [reflexivity|].
  split; [by rewrite dict_get_set_other|apply dict_get_set_same].
Qed.

Lemma read_metadata_stored self repo_name w filters issues :
  stored_as self repo_name w filters issues ->
  exists md,
    read_metadata (metadata_path self repo_name) w = (Ok (VDict md), w) /\
    match dict_get "filters" md with
    | Some v => v = filters
    | None => filters = VDict []
    end /\
    match dict_get "issues" md with
    | Some v => v = VDict issues
    | None => issues = []
    end.
Proof.
  unfold stored_as, read_metadata, io_bind, path_exists, read_file, is_file.
  destruct (files w !! metadata_path self repo_name)
    as [[s|[| | | |md]|]|] eqn:Hfile; try done.
  - intros [Hf Hi]. exists md. rewrite orb_true_r, ?Hfile. split; [done|].
    by rewrite Hf.
  - intros (-> & -> & ->). exists []. by rewrite ?Hfile.
Qed.

Lemma update_metadata_stored self repo_name i w w' filters issues :
  is_dir w (repo_path self repo_name) = true ->
  stored_as self repo_name w filters issues ->
  _update_metadata self repo_name i w = (Ok tt, w') ->
  exists md md',
    read_metadata (metadata_path self repo_name) w = (Ok (VDict md), w) /\
    update_metadata_value (VDict md) i = Ok (VDict md') /\
    files w' = <[ metadata_path self repo_name := FJson (VDict md') ]> (files w) /\
    dirs w' = dirs w /\
    stored_as self repo_name w' filters
      (dict_set (str_of_Z (number i)) (metadata_entry (fingerprint i) i)
         issues).
Proof.
  intros Hdir Hst. rewrite update_metadata_steps. intros H.
  apply io_bind_ok_inv in H as (p & w1 & Hget & H).
  rewrite get_repo_dir_existing in Hget by done. injection Hget as _ <-.
  destruct (read_metadata_stored _ _ _ _ _ Hst) as (md & Hread & Hf & Hi).
  destruct (update_metadata_value_stored md filters issues i Hf Hi)
    as (md' & Hval & Hf' & Hi').
  unfold io_bind in H. rewrite Hread in H. unfold io_lift in H.
  rewrite Hval in H. apply write_file_ok_inv in H as [Hfiles Hdirs].
  exists md, md'. repeat split; try done.
  unfold stored_as. rewrite Hfiles, lookup_insert_eq. by rewrite Hf', Hi'.
Qed.

Section SaveStored.
Variable yaml_dump : value -> string.

Lemma save_issue_stored self repo_name i w p w' filters issues :
  stored_as self repo_name w filters issues ->
  save_issue yaml_dump self repo_name i w = (Ok p, w') ->
  is_dir w' (repo_path self repo_name) = true /\
  stored_as self repo_name w' filters
    (dict_set (str_of_Z (number i)) (metadata_entry (fingerprint i) i) issues).
Proof.
  intros Hst. unfold save_issue. rewrite get_repo_dir_bind.
  fold (issue_path self repo_name (number i)). intros H.
  apply io_bind_ok_inv in H as (p0 & w1 & Hdir & H).
  pose proof (stored_as_get_repo_dir _ _ _ _ _ _ _ Hdir Hst) as Hst1.
  apply get_repo_dir_world in Hdir as (_ & Hd1 & _ & _ & _).
  apply io_bind_ok_inv in H as ([] & w2 & Hwrite & H).
  apply write_file_ok_inv in Hwrite as [Hfiles2 Hdirs2].
  apply io_bind_ok_inv in H as ([] & w3 & Hupd & H).
  unfold io_ret in H. injection H as _ <-.
  assert (Hd2 : is_dir w2 (repo_path self repo_name) = true)
    by (by rewrite (is_dir_same_dirs _ _ _ Hdirs2)).
  assert (Hst2 : stored_as self repo_name w2 filters issues).
  { revert Hst1. apply stored_as_same.
    - rewrite Hfiles2. apply lookup_insert_ne, issue_path_ne_metadata_path.
    - by apply is_dir_same_dirs. }
  destruct (update_metadata_stored _ _ _ _ _ _ _ Hd2 Hst2 Hupd)
    as (md & md' & _ & _ & _ & Hdirs3 & Hst3).
  split; [|done]. by rewrite (is_dir_same_dirs _ _ _ Hdirs3).
Qed.
End SaveStored.

(** *** A pass over issues that have been saved *)

Lemma record_all_cons i l issues :
  record_all (i :: l) issues =
  record_all l
    (dict_set (str_of_Z (number i)) (metadata_entry (fingerprint i) i) issues).
Proof. done. Qed.

Lemma record_all_snoc l i issues :
  record_all (l ++ [i]) issues =
  dict_set (str_of_Z (number i)) (metadata_entry (fingerprint i) i)
    (record_all l issues).
Proof. unfold record_all. by rewrite fold_left_app. Qed.

Lemma record_all_other l : forall issues k,
  (forall i, In i l -> number i <> k) ->
  dict_get (str_of_Z k) (record_all l issues) = dict_get (str_of_Z k) issues.
Proof.
  induction l as [|j l IH]; intros issues k Hk; [done|].
  rewrite record_all_cons, IH by (intros i Hi; apply Hk; by right).
  apply dict_get_set_other. intros Heq. apply str_of_Z_inj in Heq.
  apply (Hk j); [by left|done].
Qed.

Lemma record_all_last l issues i :
  In i l -> (forall j, In j l -> number j = number i -> j = i) ->
  dict_get (str_of_Z (number i)) (record_all l issues) =
    Some (metadata_entry (fingerprint i) i).
Proof.
  induction l as [|j l IH] using rev_ind; [done|]. intros Hin Hinj.
  rewrite record_all_snoc.
  destruct (Z.eq_dec (number j) (number i)) as [Heq|Hne].
  - assert (j = i) as -> by (apply Hinj; [apply in_or_app; right; by left|done]).
    apply dict_get_set_same.
  - rewrite dict_get_set_other
      by (intros Heq; apply str_of_Z_inj in Heq; congruence).
    apply IH.
    + apply in_app_or in Hin as [Hin|[->|[]]]; [done|congruence].
    + intros k Hk. apply Hinj, in_or_app. by left.
Qed.

Lemma NoDup_map_inj {A B} (f : A -> B) (l : list A) x y :
  List.NoDup (map f l) -> In x l -> In y l -> f x = f y -> x = y.
Proof.
  induction l as [|a l IH]; [done|]. simpl. intros Hnd Hx Hy Hxy.
  apply List.NoDup_cons_iff in Hnd as [Hna Hnd].
  destruct Hx as [->|Hx], Hy as [->|Hy]; auto.
  - exfalso. apply Hna. rewrite Hxy. by apply in_map.
  - exfalso. apply Hna. rewrite <- Hxy. by apply in_map.
Qed.

Lemma classify_ext s1 s2 i :
  dict_get (str_of_Z (number i)) s1 = dict_get (str_of_Z (number i)) s2 ->
  classify s1 i = classify s2 i.
Proof. unfold classify. by intros ->. Qed.

Lemma classify_recorded stored i :
  dict_get (str_of_Z (number i)) stored =
    Some (metadata_entry (fingerprint i) i) ->
  classify stored i = Unchanged.
Proof.
  intros H. apply classify_unchanged. eexists. split; [exact H|reflexivity].
Qed.

(** Once the new and the updated issues of a pass have been recorded,
    every issue of the pass has the entry of its fingerprint. *)
Lemma saved_then_unchanged stored (l : list issue) i :
  List.NoDup (map number l) -> In i l ->
  classify
    (record_all (List.filter (in_bucket stored New) l ++
                 List.filter (in_bucket stored Updated) l) stored) i
  = Unchanged.
Proof.
  intros Hnd Hi.
  set (to_save := List.filter (in_bucket stored New) l ++
                  List.filter (in_bucket stored Updated) l).
  assert (Hsub : forall j, In j to_save ->
            In j l /\ classify stored j <> Unchanged).
  { intros j Hj. apply in_app_or in Hj as [Hj|Hj];
      apply List.filter_In in Hj as [Hj Hb]; unfold in_bucket in Hb;
      (split; [done|]); by destruct (classify stored j). }
  destruct (classify stored i) eqn:Hc.
  - apply classify_recorded, record_all_last.
    + apply in_or_app. left. apply List.filter_In. split; [done|].
      unfold in_bucket. by rewrite Hc.
    + intros j Hj Hn. apply Hsub in Hj as [Hj _].
      by apply (NoDup_map_inj number l).
  - apply classify_recorded, record_all_last.
    + apply in_or_app. right. apply List.filter_In. split; [done|].
      unfold in_bucket. by rewrite Hc.
    + intros j Hj Hn. apply Hsub in Hj as [Hj _].
      by apply (NoDup_map_inj number l).
  - rewrite <- Hc. apply classify_ext, record_all_other.
    intros j Hj Hn. apply Hsub in Hj as [Hj Hcj].
    apply (NoDup_map_inj number l) in Hn; [|done..]. congruence.
Qed.

Lemma detect_step_unchanged repo_name stored acc i :
  classify stored i = Unchanged ->
  detect_step repo_name (VDict stored) (map fst stored) acc i =
    Ok {| new := new acc; updated := updated acc;
          unchanged := unchanged acc ++ [number i] |}.
Proof.
  intros H. apply classify_unchanged in H as (entry & Hget & Hhash).
  unfold detect_step. rewrite calculate_hash_issue. cbn [rbind].
  rewrite existsb_keys. unfold dict_mem, py_subscript, py_getitem.
  rewrite Hget. cbn [negb rbind py_get]. rewrite Hhash. cbn [py_eq].
  rewrite String.eqb_refl. cbn [negb]. by rewrite py_int_str_of_Z.
Qed.

Lemma detect_loop_unchanged repo_name stored l : forall acc,
  (forall i, In i l -> classify stored i = Unchanged) ->
  detect_loop repo_name (VDict stored) (map fst stored) acc l =
    Ok {| new := new acc; updated := updated acc;
          unchanged := unchanged acc ++ map number l |}.
Proof.
  induction l as [|i l IH]; intros acc Hall; simpl.
  - rewrite app_nil_r. by destruct acc.
  - rewrite detect_step_unchanged by (apply Hall; by left). cbn [rbind].
    rewrite IH by (intros j Hj; apply Hall; by right). simpl.
    by rewrite <- app_assoc.
Qed.

Lemma detect_changes_stored self repo_name l w filters issues :
  is_dir w (repo_path (storage self) repo_name) = true ->
  stored_as (storage self) repo_name w filters issues ->
  detect_changes self repo_name l w =
    (detect_loop repo_name (VDict issues) (map fst issues)
       {| new := []; updated := []; unchanged := [] |} l, w).
Proof.
  intros Hdir Hst.
  destruct (load_metadata_stored _ _ _ _ _ Hdir Hst) as (md & Hload & _ & Hi).
  unfold detect_changes, io_bind. rewrite Hload. unfold io_lift.
  by rewrite Hi.
Qed.

Lemma detect_changes_settled self repo_name l w filters issues :
  is_dir w (repo_path (storage self) repo_name) = true ->
  stored_as (storage self) repo_name w filters issues ->
  (forall i, In i l -> classify issues i = Unchanged) ->
  detect_changes self repo_name l w = (Ok (all_unchanged l), w).
Proof.
  intros Hdir Hst Hall.
  rewrite (detect_changes_stored _ _ _ _ _ _ Hdir Hst).
  by rewrite detect_loop_unchanged.
Qed.

Lemma load_filters_stored self repo_name w filters issues :
  is_dir w (repo_path self repo_name) = true ->
  stored_as self repo_name w filters issues ->
  load_filters self repo_name w = (Ok filters, w).
Proof.
  intros Hdir Hst.
  destruct (load_metadata_stored _ _ _ _ _ Hdir Hst) as (md & Hload & Hf & _).
  unfold load_filters, io_bind. rewrite Hload. unfold io_lift. by rewrite Hf.
Qed.

Lemma load_metadata_ok_world self repo_name w m w1 :
  load_metadata self repo_name w = (Ok m, w1) ->
  exists p, get_repo_dir self repo_name w = (Ok p, w1).
Proof.
  unfold load_metadata. intros H.
  apply io_bind_ok_inv in H as (p & wa & Hdir & H).
  exists p. rewrite Hdir. f_equal.
  match type of H with
  | ?k wa = _ => assert (Hro : read_only k)
  end.
  { apply read_only_bind; [apply read_only_path_exists|].
    intros [|]; [|apply read_only_ret].
    apply read_only_bind; [apply read_only_read_file|]. intros c.
    apply read_only_bind; [apply read_only_lift|]. intros metadata.
    apply read_only_bind; [apply read_only_lift|].
    intros [|]; [apply read_only_ret|].
    apply read_only_bind; [apply read_only_lift|]. intros items.
    apply read_only_ret. }
  specialize (Hro wa). rewrite H in Hro. by simpl in Hro.
Qed.

Lemma load_metadata_twice self repo_name w m w1 :
  load_metadata self repo_name w = (Ok m, w1) ->
  load_metadata self repo_name w1 = (Ok m, w1).
Proof.
  intros H. destruct (load_metadata_ok_world _ _ _ _ _ H) as [p Hdir].
  by rewrite (load_metadata_after_get_repo_dir _ _ _ _ _ Hdir).
Qed.

Lemma current_format_same self repo_name w w1 :
  files w1 !! metadata_path self repo_name =
    files w !! metadata_path self repo_name ->
  current_format self repo_name w -> current_format self repo_name w1.
Proof. unfold current_format. by intros ->. Qed.

(** *** The commands *)

Lemma update_metadata_value_shape (md : dict) i md' :
  update_metadata_value (VDict md) i = Ok md' ->
  exists issues,
    match dict_get "issues" md with
    | Some v => v = VDict issues
    | None => issues = []
    end.
Proof.
  unfold update_metadata_value. rewrite calculate_hash_issue.
  cbn [py_contains rbind].
  destruct (dict_get "issues" md) as [v|] eqn:Hi; [|by exists []].
  assert (Hkeep : forall d : dict,
            dict_get "issues" d = Some v ->
            (has_issues <- Ok (dict_mem "issues" d) ;;
             metadata <- (if has_issues : bool then Ok (VDict d)
                          else py_setitem (VDict d) "issues" (VDict [])) ;;
             issues <- py_subscript metadata "issues" ;;
             issues <- py_setitem issues (str_of_Z (number i))
                         (metadata_entry (fingerprint i) i) ;;
             py_setitem metadata "issues" issues) = Ok md' ->
            exists issues, v = VDict issues).
  { intros d Hd. cbn [rbind]. unfold dict_mem. rewrite Hd.
    cbn [rbind py_subscript]. unfold py_getitem. rewrite Hd. cbn [rbind].
    destruct v as [| | | |issues]; try discriminate. by exists issues. }
  destruct (dict_mem "filters" md); cbn [rbind py_setitem].
  - by apply Hkeep.
  - apply Hkeep. by rewrite dict_get_set_other.
Qed.

Lemma save_filters_ok_inv self repo_name filters w w' :
  save_filters self repo_name filters w = (Ok tt, w') ->
  is_dir w' (repo_path self repo_name) = true /\
  exists md,
    files w' !! metadata_path self repo_name = Some (FJson (VDict md)) /\
    dict_get "filters" md = Some filters.
Proof.
  unfold save_filters. rewrite get_repo_dir_bind.
  fold (metadata_path self repo_name). intros H.
  apply io_bind_ok_inv in H as (p & w1 & Hdir & H).
  apply io_bind_ok_inv in H as (metadata & w2 & Hload & H).
  apply io_bind_ok_inv in H as (metadata' & w3 & Hset & H).
  apply io_lift_ok_inv in Hset as [Hset ->].
  destruct metadata as [| | | |md]; try discriminate.
  injection Hset as <-.
  apply write_file_ok_inv in H as [Hfiles Hdirs].
  pose proof (load_metadata_ok_dir _ _ _ _ _ Hload) as Hw2.
  split; [by rewrite (is_dir_same_dirs _ _ _ Hdirs)|].
  eexists. split; [rewrite Hfiles; apply lookup_insert_eq|].
  apply dict_get_set_same.
Qed.

Section CommandProperties.

Variable yaml_dump : value -> string.
Variable fetch_issues : string -> value -> result (list issue).

Lemma save_issue_ok_stored self repo_name i w p w' :
  current_format self repo_name w ->
  save_issue yaml_dump self repo_name i w = (Ok p, w') ->
  exists filters issues p1 w1,
    get_repo_dir self repo_name w = (Ok p1, w1) /\
    stored_as self repo_name w filters issues.
Proof.
  intros Hcur. unfold save_issue. rewrite get_repo_dir_bind.
  fold (issue_path self repo_name (number i)). intros H.
  apply io_bind_ok_inv in H as (p0 & w1 & Hdir & H).
  pose proof (get_repo_dir_world _ _ _ _ _ Hdir) as (_ & Hd1 & Hf1 & _ & Hdirs1).
  apply io_bind_ok_inv in H as ([] & w2 & Hwrite & H).
  apply write_file_ok_inv in Hwrite as [Hfiles2 Hdirs2].
  apply io_bind_ok_inv in H as ([] & w3 & Hupd & _).
  rewrite update_metadata_steps in Hupd.
  apply io_bind_ok_inv in Hupd as (p2 & w2a & Hdir2 & Hupd).
  rewrite get_repo_dir_existing in Hdir2
    by (by rewrite (is_dir_same_dirs _ _ _ Hdirs2)).
  injection Hdir2 as _ <-.
  apply io_bind_ok_inv in Hupd as (metadata & w2b & Hread & Hupd).
  apply io_bind_ok_inv in Hupd as (md' & w2c & Hval & _).
  apply io_lift_ok_inv in Hval as [Hval _].
  assert (Hlook : files w2 !! metadata_path self repo_name =
                  files w !! metadata_path self repo_name).
  { rewrite Hfiles2, lookup_insert_ne by apply issue_path_ne_metadata_path.
    by rewrite Hf1. }
  assert (Hisdir : is_dir w2 (metadata_path self repo_name) =
                   is_dir w (metadata_path self repo_name)).
  { rewrite (is_dir_same_dirs _ _ _ Hdirs2).
    apply Hdirs1, metadata_path_ne_repo_path. }
  unfold read_metadata, io_bind, path_exists, read_file, is_file in Hread.
  rewrite Hlook, Hisdir in Hread.
  destruct (files w !! metadata_path self repo_name) as [c|] eqn:Hfile.
  - destruct (Hcur c Hfile) as (md & -> & Hmem).
    rewrite orb_true_r, ?Hlook in Hread. injection Hread as <- _.
    destruct (update_metadata_value_shape _ _ _ Hval) as [issues Hissues].
    unfold dict_mem in Hmem.
    destruct (dict_get "filters" md) as [filters|] eqn:Hfilters; [|done].
    exists filters, issues, p0, w1. split; [done|].
    unfold stored_as. by rewrite Hfile, Hfilters.
  - rewrite orb_false_r, ?Hlook, ?Hisdir in Hread.
    destruct (is_dir w (metadata_path self repo_name)) eqn:Hmd.
    { cbv beta in Hread. rewrite Hlook, Hisdir in Hread. discriminate. }
    exists (VDict []), [], p0, w1. split; [done|].
    unfold stored_as. by rewrite Hfile, Hmd.
Qed.

Lemma save_all_stored self repo_name l : forall w w' filters issues,
  stored_as self repo_name w filters issues ->
  save_all yaml_dump self repo_name l w = (Ok tt, w') ->
  stored_as self repo_name w' filters (record_all l issues) /\
  (l <> [] \/ is_dir w (repo_path self repo_name) = true ->
   is_dir w' (repo_path self repo_name) = true).
Proof.
  induction l as [|i l IH]; intros w w' filters issues Hst H.
  - injection H as <-. split; [done|]. by intros [|].
  - simpl in H. apply io_bind_ok_inv in H as (p & w1 & Hsave & H).
    apply (save_issue_stored yaml_dump _ _ _ _ _ _ _ _ Hst) in Hsave
      as [Hd1 Hst1].
    destruct (IH _ _ _ _ Hst1 H) as [Hst' Hd']. split; [done|].
    intros _. apply Hd'. by right.
Qed.

(** A pass of [update] on a store that holds the entry of the fingerprint
    of every issue the service answers with: nothing is saved. *)
Lemma update_repository_settled tracker repo_name w filters issues l parts :
  is_dir w (repo_path (storage tracker) repo_name) = true ->
  stored_as (storage tracker) repo_name w filters issues ->
  fetch_issues repo_name filters = Ok l ->
  (if py_truthy filters then filter_parts filters else Ok []) = Ok parts ->
  (forall i, In i l -> classify issues i = Unchanged) ->
  update_repository yaml_dump fetch_issues tracker repo_name w =
    (Ok (all_unchanged l), w).
Proof.
  intros Hdir Hst Hfetch Hparts Hall. unfold update_repository, io_bind.
  rewrite (load_filters_stored _ _ _ _ _ Hdir Hst). unfold io_lift.
  rewrite Hfetch, Hparts.
  by rewrite (detect_changes_settled _ _ _ _ _ _ Hdir Hst Hall).
Qed.

(** X2. The update of a repository is idempotent. When the pass of
    [update] over a repository returns, on a store that is not in the
    legacy format, and the service answers with issues of distinct
    numbers, then the store holds the filters it held, and a second pass
    straight away (the service answering the same) classifies every issue
    as unchanged, saves nothing and leaves the disk as it is. *)
Theorem update_repository_idempotent tracker repo_name w ch w' :
  current_format (storage tracker) repo_name w ->
  (forall filters l,
     fetch_issues repo_name filters = Ok l -> List.NoDup (map number l)) ->
  update_repository yaml_dump fetch_issues tracker repo_name w = (Ok ch, w') ->
  exists filters l,
    fst (load_filters (storage tracker) repo_name w) = Ok filters /\
    fetch_issues repo_name filters = Ok l /\
    load_filters (storage tracker) repo_name w' = (Ok filters, w') /\
    update_repository yaml_dump fetch_issues tracker repo_name w' =
      (Ok (all_unchanged l), w').
Proof.
  intros Hcur Hnodup H. unfold update_repository in H.
  apply io_bind_ok_inv in H as (filters & w1 & Hlf & H).
  apply io_bind_ok_inv in H as (l & w2 & Hfetch & H).
  apply io_lift_ok_inv in Hfetch as [Hfetch ->].
  apply io_bind_ok_inv in H as (parts & w3 & Hparts & H).
  apply io_lift_ok_inv in Hparts as [Hparts ->].
  apply io_bind_ok_inv in H as (ch0 & w4 & Hdet & H).
  apply io_bind_ok_inv in H as ([] & w5 & Hsave & H).
  unfold io_ret in H. injection H as <- <-.
  pose proof Hlf as Hlf0.
  unfold load_filters in Hlf.
  apply io_bind_ok_inv in Hlf as (m & w1' & Hload & Hlf).
  apply io_lift_ok_inv in Hlf as [Hfilters ->].
  pose proof (load_metadata_twice _ _ _ _ _ Hload) as Hload1.
  unfold detect_changes in Hdet.
  apply io_bind_ok_inv in Hdet as (m' & wd & Hload' & Hdet).
  rewrite Hload1 in Hload'. injection Hload' as <- <-.
  apply io_bind_ok_inv in Hdet as (stored_issues & w2 & Hget & Hdet).
  apply io_lift_ok_inv in Hget as [Hget ->].
  apply io_bind_ok_inv in Hdet as (keys & w3 & Hkeys & Hdet).
  apply io_lift_ok_inv in Hkeys as [Hkeys ->].
  apply io_lift_ok_inv in Hdet as [Hloop ->].
  destruct stored_issues as [| | | |issues]; try discriminate.
  injection Hkeys as <-.
  apply detect_loop_ok_inv in Hloop as ->.
  destruct (current_format_stored _ _ _ _ _ _ Hcur Hload Hget)
    as (filters0 & Hfilters0 & Hst & Hdir).
  rewrite Hfilters in Hfilters0. injection Hfilters0 as <-.
  destruct (fold_place_partition repo_name issues l) as (Hnew & Hupd & _).
  cbv zeta in Hnew, Hupd. rewrite Hnew, Hupd in Hsave.
  destruct (save_all_stored _ _ _ _ _ _ _ Hst Hsave) as [Hst' Hdir'].
  specialize (Hdir' (or_intror Hdir)).
  exists filters, l. split; [by rewrite Hlf0|]. split; [done|].
  split; [by apply (load_filters_stored _ _ _ _ _ Hdir' Hst')|].
  apply (update_repository_settled _ _ _ _ _ _ _ Hdir' Hst' Hfetch Hparts).
  intros i Hi. apply saved_then_unchanged; [|done]. by apply (Hnodup filters).
Qed.

Lemma run_repository_stored self filters repo_name w n w' :
  py_truthy filters = true \/ current_format self repo_name w ->
  run_repository yaml_dump fetch_issues self filters repo_name w = (Ok n, w') ->
  exists l,
    fetch_issues repo_name filters = Ok l /\ n = length l /\
    (py_truthy filters = true ->
     load_filters self repo_name w' = (Ok filters, w')) /\
    (py_truthy filters = false ->
     fst (load_filters self repo_name w') = fst (load_filters self repo_name w)) /\
    (l <> [] ->
     exists stored_filters issues,
       is_dir w' (repo_path self repo_name) = true /\
       stored_as self repo_name w' stored_filters issues /\
       (py_truthy filters = true -> stored_filters = filters) /\
       (List.NoDup (map number l) ->
        forall i, In i l -> classify issues i = Unchanged)).
Proof.
  intros Hor H. unfold run_repository in H.
  apply io_bind_ok_inv in H as (l & w0 & Hfetch & H).
  apply io_lift_ok_inv in Hfetch as [Hfetch ->].
  apply io_bind_ok_inv in H as ([] & w1 & Hfilters & H).
  apply io_bind_ok_inv in H as ([] & w2 & Hsave & H).
  unfold io_ret in H. injection H as <- <-.
  exists l. split; [done|]. split; [done|].
  assert (Hcur1 : current_format self repo_name w1).
  { destruct (py_truthy filters).
    - apply save_filters_ok_inv in Hfilters as (_ & md & Hfile & Hget).
      intros c Hc. rewrite Hfile in Hc. injection Hc as <-.
      exists md. split; [done|]. unfold dict_mem. by rewrite Hget.
    - injection Hfilters as <-. by destruct Hor. }
  assert (Hsaved : py_truthy filters = true ->
            is_dir w1 (repo_path self repo_name) = true /\
            exists md,
              files w1 !! metadata_path self repo_name = Some (FJson (VDict md)) /\
              dict_get "filters" md = Some filters).
  { intros Ht. rewrite Ht in Hfilters.
    apply (save_filters_ok_inv _ _ _ _ _ Hfilters). }
  destruct l as [|i l].
  - injection Hsave as <-. split; [|split; [|done]].
    + intros Ht. destruct (Hsaved Ht) as (Hdir & md & Hfile & Hget).
      unfold load_filters, io_bind.
      rewrite (load_metadata_current _ _ _ md Hdir Hfile)
        by (unfold dict_mem; by rewrite Hget).
      unfold io_lift. cbn [py_get]. by rewrite Hget.
    + intros Hf. rewrite Hf in Hfilters. by injection Hfilters as <-.
  - pose proof Hsave as Hfirst. simpl in Hfirst.
    apply io_bind_ok_inv in Hfirst as (p & wa & Hfirst & _).
    destruct (save_issue_ok_stored _ _ _ _ _ _ Hcur1 Hfirst)
      as (stored_filters & issues & p1 & w1a & Hdir1 & Hst).
    destruct (save_all_stored _ _ _ _ _ _ _ Hst Hsave) as [Hst' Hdir'].
    assert (Hd' : is_dir w2 (repo_path self repo_name) = true)
      by (apply Hdir'; by left).
    assert (Hsame : py_truthy filters = true -> stored_filters = filters).
    { intros Ht. destruct (Hsaved Ht) as (_ & md & Hfile & Hget).
      unfold stored_as in Hst. rewrite Hfile in Hst. destruct Hst as [Hst _].
      congruence. }
    split; [|split].
    + intros Ht. rewrite <- (Hsame Ht).
      by apply (load_filters_stored _ _ _ _ _ Hd' Hst').
    + intros Hf. rewrite Hf in Hfilters. injection Hfilters as <-.
      rewrite (load_filters_stored _ _ _ _ _ Hd' Hst').
      pose proof (get_repo_dir_world _ _ _ _ _ Hdir1) as (_ & Hd1 & _).
      pose proof (stored_as_get_repo_dir _ _ _ _ _ _ _ Hdir1 Hst) as Hst1.
      unfold load_filters at 1. rewrite io_bind_eq.
      rewrite <- (load_metadata_after_get_repo_dir _ _ _ _ _ Hdir1).
      destruct (load_metadata_stored _ _ _ _ _ Hd1 Hst1) as (md & -> & -> & _).
      done.
    + intros _. exists stored_filters, (record_all (i :: l) issues).
      split; [done|]. split; [done|]. split; [done|].
      intros Hnd j Hj. apply classify_recorded, record_all_last; [done|].
      intros k Hk Hn. by apply (NoDup_map_inj number (i :: l)).
Qed.

(** X3. What a run leaves behind. When the body of [run] for one
    repository returns, it has fetched with the given filters and counted
    the issues; provided the filters are not empty or the store is not in
    the legacy format, and at least one issue of distinct numbers was
    fetched, a change pass over the same issues then classifies all of
    them as unchanged. *)
Theorem run_repository_saves_every_issue self filters repo_name w n w' :
  py_truthy filters = true \/ current_format self repo_name w ->
  run_repository yaml_dump fetch_issues self filters repo_name w = (Ok n, w') ->
  exists l,
    fetch_issues repo_name filters = Ok l /\ n = length l /\
    (l <> [] -> List.NoDup (map number l) ->
     detect_changes {| storage := self |} repo_name l w' =
       (Ok (all_unchanged l), w')).
Proof.
  intros Hor H.
  destruct (run_repository_stored _ _ _ _ _ _ Hor H)
    as (l & Hfetch & Hn & _ & _ & Hst).
  exists l. split; [done|]. split; [done|]. intros Hne Hnd.
  destruct (Hst Hne) as (f & issues & Hdir & Hstored & _ & Hall).
  apply (detect_changes_settled {| storage := self |} _ _ _ f issues);
    auto.
Qed.


(** X5. A run without filters keeps the stored ones. When the filters
    given to [run] are empty, the body of [run] that returns on a store
    not in the legacy format leaves the stored filters as they were: the
    issues of the run were fetched without filters, and the next [update]
    fetches with the ones of an earlier run. *)
Theorem run_without_filters_keeps_stored_filters self filters repo_name
    w n w' :
  py_truthy filters = false ->
  current_format self repo_name w ->
  run_repository yaml_dump fetch_issues self filters repo_name w = (Ok n, w') ->
  fst (load_filters self repo_name w') = fst (load_filters self repo_name w).
Proof.
  intros Hf Hcur H.
  destruct (run_repository_stored _ _ _ _ _ _ (or_intror Hcur) H)
    as (l & _ & _ & _ & Hkeep & _).
  by apply Hkeep.
Qed.

End CommandProperties.

(** *** Round trips through the store *)

Lemma hashed_fields_fingerprint a b :
  hashed_fields a = hashed_fields b ->
  number a = number b /\ fingerprint a = fingerprint b.
Proof.
  unfold hashed_fields. intros [= Hn Ht Hb Hs Hl Ha Hu Hc].
  split; [done|]. unfold fingerprint. f_equal.
  rewrite !hash_message_closed. by rewrite Hn, Ht, Hb, Hs, Hl, Ha, Hu, Hc.
Qed.

Lemma dict_set_same k v (d : dict) :
  dict_get k d = Some v -> dict_set k v d = d.
Proof.
  induction d as [|[k' v'] d IH]; simpl; [done|].
  destruct (String.eqb_spec k k') as [->|Hne].
  - by intros [= ->].
  - intros H. by rewrite IH.
Qed.

Lemma update_metadata_ok_exact self repo_name i w w' :
  _update_metadata self repo_name i w = (Ok tt, w') ->
  exists p1 w1 metadata md',
    get_repo_dir self repo_name w = (Ok p1, w1) /\
    read_metadata (metadata_path self repo_name) w1 = (Ok metadata, w1) /\
    update_metadata_value metadata i = Ok md' /\
    files w' = <[ metadata_path self repo_name := FJson md' ]> (files w1) /\
    dirs w' = dirs w1.
Proof.
  rewrite update_metadata_steps. intros H.
  apply io_bind_ok_inv in H as (p & w1 & Hdir & H).
  apply io_bind_ok_inv in H as (metadata & w2 & Hread & H).
  pose proof (read_metadata_world _ _ _ _ Hread) as ->.
  apply io_bind_ok_inv in H as (md' & w3 & Hpure & H).
  apply io_lift_ok_inv in Hpure as [Hpure ->].
  apply write_file_ok_inv in H as [Hfiles Hdirs].
  by exists p, w1, metadata, md'.
Qed.

Section SaveRoundTrip.
Variable yaml_dump : value -> string.

Lemma save_issue_ok_exact self repo_name i w p w' :
  save_issue yaml_dump self repo_name i w = (Ok p, w') ->
  exists p1 w1 w2 metadata md',
    get_repo_dir self repo_name w = (Ok p1, w1) /\
    files w2 = <[ issue_path self repo_name (number i) :=
                    FText (_generate_markdown yaml_dump i) ]> (files w1) /\
    dirs w2 = dirs w1 /\
    read_metadata (metadata_path self repo_name) w2 = (Ok metadata, w2) /\
    update_metadata_value metadata i = Ok md' /\
    files w' = <[ metadata_path self repo_name := FJson md' ]> (files w2) /\
    dirs w' = dirs w1.
Proof.
  unfold save_issue. rewrite get_repo_dir_bind.
  fold (issue_path self repo_name (number i)). intros H.
  apply io_bind_ok_inv in H as (p0 & w1 & Hdir & H).
  pose proof (get_repo_dir_world _ _ _ _ _ Hdir) as (_ & Hd1 & _).
  apply io_bind_ok_inv in H as ([] & w2 & Hwrite & H).
  apply write_file_ok_inv in Hwrite as [Hfiles2 Hdirs2].
  apply io_bind_ok_inv in H as ([] & w3 & Hupd & H).
  unfold io_ret in H. injection H as _ <-.
  apply update_metadata_ok_exact in Hupd
    as (p2 & w2a & metadata & md' & Hdir2 & Hread & Hval & Hfiles3 & Hdirs3).
  rewrite get_repo_dir_existing in Hdir2
    by (by rewrite (is_dir_same_dirs _ _ _ Hdirs2)).
  injection Hdir2 as _ <-.
  exists p0, w1, w2, metadata, md'. repeat split; try done. congruence.
Qed.

(** X6. Saving an issue and looking for it. After [save_issue] has
    returned, [issue_exists] answers True for the number of the saved
    issue, and for every other number what it answered before the save:
    the save adds one document and hides none. *)
Theorem issue_exists_after_save self repo_name i w p w' :
  save_issue yaml_dump self repo_name i w = (Ok p, w') ->
  forall n, exists b,
    fst (issue_exists self repo_name n w) = Ok b /\
    issue_exists self repo_name n w' = (Ok (b || (n =? number i)), w').
Proof.
  intros H n.
  pose proof (save_issue_ok_inv yaml_dump _ _ _ _ _ _ H)
    as (md & issues & _ & Hfiles & Hdir' & _).
  apply save_issue_ok_exact in H
    as (p1 & w1 & w2 & metadata & md' & Hdir & _ & _ & _ & _ & _ & Hdirs).
  pose proof (get_repo_dir_world _ _ _ _ _ Hdir) as (-> & Hd1 & Hf1 & _ & _).
  unfold issue_exists.
  rewrite !(io_bind_eq (get_repo_dir self repo_name)), Hdir.
  rewrite (get_repo_dir_existing _ _ _ Hdir').
  fold (issue_path self repo_name n). unfold path_exists.
  eexists. split; [reflexivity|]. f_equal. f_equal.
  rewrite (is_dir_same_dirs _ _ _ Hdirs). unfold is_file.
  rewrite Hfiles, Hf1.
  rewrite lookup_insert_ne
    by (apply not_eq_sym, issue_path_ne_metadata_path).
  destruct (Z.eqb_spec n (number i)) as [->|Hne].
  - rewrite lookup_insert_eq. by rewrite !orb_true_r.
  - rewrite lookup_insert_ne
      by (intros Heq; apply issue_path_inj in Heq; congruence).
    by rewrite orb_false_r.
Qed.

(** X7. Saving the same issue again changes nothing. When [save_issue]
    has returned and the same issue is saved once more, the second save
    (if it returns) leaves every file and directory as the first one
    left them, and returns the same path: the document is overwritten
    with the same text and the metadata document with the same entries,
    whatever the format of the store was. *)
Theorem save_issue_twice self repo_name i w p w1 p' w2 :
  save_issue yaml_dump self repo_name i w = (Ok p, w1) ->
  save_issue yaml_dump self repo_name i w1 = (Ok p', w2) ->
  p' = p /\ files w2 = files w1 /\ dirs w2 = dirs w1.
Proof.
  intros H1 H2.
  pose proof (save_issue_ok_inv yaml_dump _ _ _ _ _ _ H1)
    as (md & issues & -> & Hfiles1 & Hdir1 & Hmem & Hissues & Hentry).
  pose proof (save_issue_ok_inv yaml_dump _ _ _ _ _ _ H2)
    as (_ & _ & -> & _).
  split; [done|].
  apply save_issue_ok_exact in H2
    as (p1 & wa & wb & metadata & md' & Hdir & Hfilesb & Hdirsb & Hread
        & Hval & Hfiles2 & Hdirs2).
  rewrite (get_repo_dir_existing _ _ _ Hdir1) in Hdir.
  injection Hdir as _ <-.
  assert (Hdoc : files w1 !! issue_path self repo_name (number i) =
                 Some (FText (_generate_markdown yaml_dump i))).
  { rewrite Hfiles1, lookup_insert_ne
      by (apply not_eq_sym, issue_path_ne_metadata_path).
    apply lookup_insert_eq. }
  assert (Hmeta : files w1 !! metadata_path self repo_name =
                  Some (FJson (VDict md)))
    by (rewrite Hfiles1; apply lookup_insert_eq).
  rewrite (insert_id _ _ _ Hdoc) in Hfilesb.
  assert (Hmetab : files wb !! metadata_path self repo_name =
                   Some (FJson (VDict md))) by (by rewrite Hfilesb).
  unfold read_metadata, io_bind in Hread.
  rewrite (path_exists_file _ _ _ Hmetab), (read_file_some _ _ _ Hmetab)
    in Hread.
  injection Hread as <-.
  unfold dict_mem in Hmem.
  destruct (dict_get "filters" md) as [filters|] eqn:Hfilters; [|done].
  destruct (update_metadata_value_current md filters issues i Hfilters Hissues)
    as (Hval' & _).
  rewrite Hval' in Hval. injection Hval as <-.
  rewrite (dict_set_same _ _ _ Hentry), (dict_set_same _ _ _ Hissues)
    in Hfiles2.
  rewrite (insert_id _ _ _ Hmetab), Hfilesb in Hfiles2.
  split; [done|]. congruence.
Qed.

(** X8. Saving, then detecting. After [save_issue] has returned for an
    issue, whatever the store held before, a change pass over an issue
    with the same hashed fields (the same number, title, body, state,
    update time, labels and assignees in any order, and authors, bodies
    and creation times of the comments) classifies it as unchanged: the
    author, the creation and closing times, the address, the milestone
    and the update times of the comments do not count. *)
Theorem detect_changes_after_save self repo_name a b w p w' :
  save_issue yaml_dump self repo_name a w = (Ok p, w') ->
  hashed_fields b = hashed_fields a ->
  detect_changes {| storage := self |} repo_name [b] w' =
    (Ok {| new := []; updated := []; unchanged := [number b] |}, w').
Proof.
  intros H Hab.
  apply save_issue_ok_inv in H
    as (md & issues & _ & Hfiles & Hdir & Hmem & Hissues & Hentry).
  apply hashed_fields_fingerprint in Hab as [Hn Hfp].
  unfold dict_mem in Hmem.
  destruct (dict_get "filters" md) as [filters|] eqn:Hfilters; [|done].
  apply (detect_changes_settled {| storage := self |} _ [b] _ filters issues).
  - done.
  - unfold stored_as. cbn [storage]. rewrite Hfiles, lookup_insert_eq.
    by rewrite Hfilters, Hissues.
  - intros i [<-|[]]. apply classify_unchanged. eexists.
    split; [rewrite Hn; exact Hentry|]. by rewrite Hfp.
Qed.

End SaveRoundTrip.

(** X9. Saving filters and reading them back. After [save_filters] has
    returned, [load_filters] returns the filters that were saved; the
    stored issues are those [load_metadata] showed before (a store in the
    legacy format has been rewritten in the current one), so that any
    change pass gives the result it would have given before. *)
Theorem load_filters_after_save_filters self repo_name filters w w' :
  save_filters self repo_name filters w = (Ok tt, w') ->
  load_filters self repo_name w' = (Ok filters, w') /\
  forall l,
    detect_changes {| storage := self |} repo_name l w' =
    (fst (detect_changes {| storage := self |} repo_name l w), w').
Proof.
  intros H.
  destruct (save_filters_frame _ _ _ _ _ H)
    as (md & w1 & Hload & Hload' & Hf & Hi).
  split.
  - unfold load_filters, io_bind. rewrite Hload'. unfold io_lift.
    cbn [py_get]. by rewrite Hf.
  - intros l. unfold detect_changes, io_bind. cbn [storage].
    rewrite Hload, Hload'. unfold io_lift. cbn [py_get]. rewrite Hi.
    destruct (dict_get "issues" md) as [v|]; cbn [fst].
    + by destruct (py_keys v) as [keys|e];
        [destruct (detect_loop _ _ _ _ _)|].
    + by destruct (py_keys (VDict [])) as [keys|e];
        [destruct (detect_loop _ _ _ _ _)|].
Qed.

Lemma load_metadata_unparsable self repo_name w c :
  is_dir w (repo_path self repo_name) = true ->
  files w !! metadata_path self repo_name = Some c ->
  json_load c = Raise JSONDecodeError ->
  load_metadata self repo_name w = (Raise JSONDecodeError, w).
Proof.
  intros Hdir Hfile Hbad.
  unfold load_metadata, io_bind. rewrite get_repo_dir_existing by done.
  fold (metadata_path self repo_name).
  rewrite (path_exists_file _ _ _ Hfile), (read_file_some _ _ _ Hfile).
  unfold io_lift. by rewrite Hbad.
Qed.

(** X10. A metadata document that cannot be parsed. When the metadata
    document of a repository is not a JSON text (it has been truncated,
    say), every operation that reads it raises the decoding error and
    leaves the disk as it is: none of them repairs or replaces the
    document. *)
Theorem unparsable_metadata_blocks self repo_name w c :
  is_dir w (repo_path self repo_name) = true ->
  files w !! metadata_path self repo_name = Some c ->
  json_load c = Raise JSONDecodeError ->
  load_metadata self repo_name w = (Raise JSONDecodeError, w) /\
  load_filters self repo_name w = (Raise JSONDecodeError, w) /\
  (forall filters,
     save_filters self repo_name filters w = (Raise JSONDecodeError, w)) /\
  (forall i,
     _update_metadata self repo_name i w = (Raise JSONDecodeError, w)) /\
  (forall l,
     detect_changes {| storage := self |} repo_name l w =
       (Raise JSONDecodeError, w)) /\
  (forall l,
     get_deleted_issues {| storage := self |} repo_name l w =
       (Raise JSONDecodeError, w)).
Proof.
  intros Hdir Hfile Hbad.
  pose proof (load_metadata_unparsable _ _ _ _ Hdir Hfile Hbad) as Hload.
  split; [done|].
  split; [unfold load_filters, io_bind; by rewrite Hload|].
  split.
  { intros filters. unfold save_filters, io_bind.
    rewrite get_repo_dir_existing by done. by rewrite Hload. }
  split.
  { intros i. rewrite update_metadata_steps. unfold io_bind.
    rewrite get_repo_dir_existing by done.
    unfold read_metadata, io_bind.
    rewrite (path_exists_file _ _ _ Hfile), (read_file_some _ _ _ Hfile).
    unfold io_lift. by rewrite Hbad. }
  split; intros l.
  - unfold detect_changes, io_bind. cbn [storage]. by rewrite Hload.
  - unfold get_deleted_issues, io_bind. cbn [storage]. by rewrite Hload.
Qed.

(** X11. An update over a repository whose metadata cannot be parsed.
    The turn of the loop of [update] for such a repository fetches
    nothing, saves nothing and records the empty classification, as if
    the repository had no issue at all; the disk is left as it is. *)
Theorem update_turn_unparsable (yaml_dump : value -> string)
    (fetch_issues : string -> value -> result (list issue))
    tracker repo_name w c :
  is_dir w (repo_path (storage tracker) repo_name) = true ->
  files w !! metadata_path (storage tracker) repo_name = Some c ->
  json_load c = Raise JSONDecodeError ->
  update_repository yaml_dump fetch_issues tracker repo_name w =
    (Raise JSONDecodeError, w) /\
  update_turn yaml_dump fetch_issues tracker repo_name w =
    (Ok {| new := []; updated := []; unchanged := [] |}, w).
Proof.
  intros Hdir Hfile Hbad.
  pose proof (load_metadata_unparsable _ _ _ _ Hdir Hfile Hbad) as Hload.
  assert (Hrun : update_repository yaml_dump fetch_issues tracker repo_name w
                 = (Raise JSONDecodeError, w)).
  { unfold update_repository, load_filters, io_bind. by rewrite Hload. }
  split; [done|]. unfold update_turn. by rewrite Hrun.
Qed.

(** *** Reading numbers back *)

Lemma all_chars_list p s :
  all_chars p s = forallb p (list_ascii_of_string s).
Proof. induction s as [|c s IH]; simpl; [done|]. by rewrite IH. Qed.

Lemma all_chars_rev p s : all_chars p (string_rev s) = all_chars p s.
Proof.
  rewrite !all_chars_list. unfold string_rev.
  rewrite list_ascii_of_string_of_list_ascii.
  apply eq_true_iff_eq. rewrite !forallb_forall.
  split; intros H x Hx; apply H; [by rewrite <- in_rev|by rewrite in_rev].
Qed.

Lemma string_rev_involutive s : string_rev (string_rev s) = s.
Proof.
  unfold string_rev.
  by rewrite list_ascii_of_string_of_list_ascii, rev_involutive,
    string_of_list_ascii_of_string.
Qed.

Lemma all_chars_impl (p q : ascii -> bool) s :
  (forall c, p c = true -> q c = true) ->
  all_chars p s = true -> all_chars q s = true.
Proof.
  intros Hpq. induction s as [|c s IH]; simpl; [done|].
  intros [Hc Hs]%andb_prop. by rewrite (Hpq c Hc), IH.
Qed.

Lemma lstrip_blanks_all_chars p s :
  all_chars p s = true -> all_chars p (lstrip_blanks s) = true.
Proof.
  induction s as [|c s IH]; simpl; [done|]. intros [Hc Hs]%andb_prop.
  destruct (int_blank c); [by apply IH|]. simpl. by rewrite Hc, Hs.
Qed.

Lemma strip_blanks_all_chars p s :
  all_chars p s = true -> all_chars p (strip_blanks s) = true.
Proof.
  intros H. unfold strip_blanks.
  rewrite all_chars_rev. apply lstrip_blanks_all_chars.
  rewrite all_chars_rev. by apply lstrip_blanks_all_chars.
Qed.

Lemma lstrip_blanks_no_blank s :
  all_chars (fun c => negb (int_blank c)) s = true -> lstrip_blanks s = s.
Proof.
  destruct s as [|c s]; simpl; [done|]. intros [Hc _]%andb_prop.
  by destruct (int_blank c).
Qed.

Lemma strip_blanks_no_blank s :
  all_chars (fun c => negb (int_blank c)) s = true -> strip_blanks s = s.
Proof.
  intros H. unfold strip_blanks. rewrite (lstrip_blanks_no_blank s H).
  rewrite lstrip_blanks_no_blank by (by rewrite all_chars_rev).
  apply string_rev_involutive.
Qed.

Lemma is_num_char_no_blank c :
  is_num_char c = true -> negb (int_blank c) = true.
Proof. by destruct c as [[] [] [] [] [] [] [] []]. Qed.

Lemma is_digit_not_sign c :
  is_digit c = true -> Ascii.eqb c "-" = false /\ Ascii.eqb c "+" = false.
Proof. by destruct c as [[] [] [] [] [] [] [] []]. Qed.

Lemma string_of_uint_digits d :
  all_chars is_digit (NilEmpty.string_of_uint d) = true.
Proof. induction d; simpl; auto. Qed.

Lemma literal_digits_all s : forall b,
  all_chars is_digit s = true -> (b = true \/ s <> "") ->
  literal_digits b s = Some s.
Proof.
  induction s as [|c s IH]; intros b; simpl.
  - intros _ [->|]; done.
  - intros [Hc Hs]%andb_prop _. rewrite Hc, IH; auto.
Qed.

Lemma string_of_uint_nonempty d :
  d <> Decimal.Nil -> NilEmpty.string_of_uint d <> "".
Proof. by destruct d. Qed.

Lemma int_of_text_digits d :
  d <> Decimal.Nil ->
  int_of_text (NilEmpty.string_of_uint d) = Ok (Z.of_uint d) /\
  int_of_text (String "-" (NilEmpty.string_of_uint d)) = Ok (- Z.of_uint d).
Proof.
  intros Hd.
  pose proof (string_of_uint_digits d) as Hdigits.
  pose proof (string_of_uint_nonempty d Hd) as Hne.
  assert (Hlit : literal_digits false (NilEmpty.string_of_uint d) =
                 Some (NilEmpty.string_of_uint d))
    by (apply literal_digits_all; auto).
  assert (Hnum : all_chars (fun c => negb (int_blank c))
                   (NilEmpty.string_of_uint d) = true).
  { apply (all_chars_impl is_num_char).
    - apply is_num_char_no_blank.
    - apply string_of_uint_num. }
  split; unfold int_of_text.
  - rewrite (strip_blanks_no_blank _ Hnum).
    destruct (NilEmpty.string_of_uint d) as [|c s] eqn:Hs; [done|].
    simpl in Hdigits. apply andb_prop in Hdigits as [Hc _].
    destruct (is_digit_not_sign c Hc) as [-> ->]. cbn [snd fst].
    rewrite Hlit, <- Hs. by rewrite NilEmpty.usu.
  - rewrite strip_blanks_no_blank by (simpl; by rewrite Hnum).
    cbn [Ascii.eqb Bool.eqb snd fst]. rewrite Hlit. by rewrite NilEmpty.usu.
Qed.

(** [int] reads back what [str] prints. *)
Lemma int_of_text_str_of_Z z : int_of_text (str_of_Z z) = Ok z.
Proof.
  unfold str_of_Z. destruct z as [|p|p]; simpl.
  - reflexivity.
  - pose proof (DecimalPos.Unsigned.to_uint_nonnil p) as Hd.
    unfold NilZero.string_of_uint.
    destruct (Pos.to_uint p) as [| | | | | | | | | |] eqn:Hp; try done;
      rewrite <- Hp in *;
      rewrite (proj1 (int_of_text_digits _ Hd)); unfold Z.of_uint;
      by rewrite DecimalPos.Unsigned.of_to.
  - pose proof (DecimalPos.Unsigned.to_uint_nonnil p) as Hd.
    unfold NilZero.string_of_uint.
    destruct (Pos.to_uint p) as [| | | | | | | | | |] eqn:Hp; try done;
      rewrite <- Hp in *;
      rewrite (proj2 (int_of_text_digits _ Hd)); unfold Z.of_uint;
      by rewrite DecimalPos.Unsigned.of_to.
Qed.

(** The separators 28 to 31 are no blanks for [int]; the blanks outside
    ASCII are. *)
Example int_of_text_blanks :
  int_of_text (String "028" "5") = Raise ValueError /\
  int_of_text (String "160" (String "009" "+5_0 ")) = Ok 50.
Proof. split; reflexivity. Qed.

Lemma int_of_text_raise s e : int_of_text s = Raise e -> e = ValueError.
Proof.
  unfold int_of_text. destruct (literal_digits _ _); [|by intros [= <-]].
  destruct (NilEmpty.uint_of_string _); [done|by intros [= <-]].
Qed.

(** A text without a minus sign is not read as a negative number. *)
Lemma int_of_text_nonneg s n :
  all_chars (fun c => negb (Ascii.eqb c "-")) s = true ->
  int_of_text s = Ok n -> 0 <= n.
Proof.
  intros Hs. apply strip_blanks_all_chars in Hs. unfold int_of_text.
  assert (Hsign :
    fst (match strip_blanks s with
         | String c r =>
             if Ascii.eqb c "-" then (true, r)
             else if Ascii.eqb c "+" then (false, r)
             else (false, strip_blanks s)
         | EmptyString => (false, strip_blanks s)
         end) = false).
  { destruct (strip_blanks s) as [|c r]; [done|]. simpl in Hs.
    apply andb_prop in Hs as [Hc _].
    destruct (Ascii.eqb c "-"); [done|]. by destruct (Ascii.eqb c "+"). }
  rewrite Hsign. destruct (literal_digits _ _); [|done].
  destruct (NilEmpty.uint_of_string _) as [d|]; [|done].
  intros [= <-]. unfold Z.of_uint. apply N2Z.is_nonneg.
Qed.

Lemma rmap_ok_In {A B} (f : A -> result B) l : forall l',
  rmap f l = Ok l' ->
  forall y, In y l' <-> exists x, In x l /\ f x = Ok y.
Proof.
  induction l as [|x l IH]; intros l'; simpl.
  - intros [= <-] y. split; [done|]. by intros (? & [] & _).
  - destruct (f x) as [y0|] eqn:Hx; [|done]. cbn [rbind].
    destruct (rmap f l) as [ys|] eqn:Hl; [|done]. intros [= <-] y.
    specialize (IH ys eq_refl y). simpl. rewrite IH. split.
    + intros [<-|(x' & Hx' & Hy)]; [exists x; auto|exists x'; auto].
    + intros (x' & [<-|Hx'] & Hy); [left; congruence|right; eauto].
Qed.

Lemma rmap_raise_In {A B} (f : A -> result B) l x e :
  In x l -> f x = Raise e -> exists e', rmap f l = Raise e'.
Proof.
  induction l as [|x' l IH]; simpl; [done|]. intros [->|Hin] Hx.
  - rewrite Hx. by eexists.
  - destruct (f x'); [|by eexists]. cbn [rbind].
    destruct (IH Hin Hx) as [e' ->]. by eexists.
Qed.

Lemma rmap_raise_inv {A B} (f : A -> result B) l e :
  rmap f l = Raise e -> exists x, In x l /\ f x = Raise e.
Proof.
  induction l as [|x l IH]; simpl; [done|].
  destruct (f x) eqn:Hx; cbn [rbind].
  - destruct (rmap f l); [done|]. intros [= <-].
    destruct (IH eq_refl) as (x' & Hin & Hx'). eauto.
  - intros [= <-]. eauto.
Qed.

Lemma strictly_sorted (l : list Z) :
  StronglySorted Z.le l -> List.NoDup l -> StronglySorted Z.lt l.
Proof.
  induction 1 as [|a l Hs IH Hall]; intros Hnd; constructor.
  - apply IH. by apply List.NoDup_cons_iff in Hnd as [_ ?].
  - apply List.NoDup_cons_iff in Hnd as [Hna _].
    rewrite List.Forall_forall in *. intros y Hy.
    specialize (Hall y Hy). assert (a <> y) by congruence. lia.
Qed.

(** X12. What [get_deleted_issues] returns. When it returns, the list
    is strictly ascending, and a number is on it exactly when it is the
    value of a key of the stored issues, read as an integer, and is not
    the number of a current issue. It returns only if every key reads as
    an integer: with a key that does not, it raises [ValueError]. *)
Theorem get_deleted_issues_spec self repo_name (current_issues : list issue)
    (w : world) :
  (forall deleted w',
     get_deleted_issues self repo_name current_issues w = (Ok deleted, w') ->
     exists metadata stored,
       load_metadata (storage self) repo_name w = (Ok metadata, w') /\
       py_get metadata "issues" (VDict []) = Ok (VDict stored) /\
       StronglySorted Z.lt deleted /\
       forall n,
         In n deleted <->
         (exists key, In key (map fst stored) /\ int_of_text key = Ok n) /\
         ~ In n (map number current_issues)) /\
  (forall metadata stored w' key e,
     load_metadata (storage self) repo_name w = (Ok metadata, w') ->
     py_get metadata "issues" (VDict []) = Ok (VDict stored) ->
     In key (map fst stored) -> int_of_text key = Raise e ->
     get_deleted_issues self repo_name current_issues w =
       (Raise ValueError, w')).
Proof.
  split.
  - intros deleted w' H. unfold get_deleted_issues in H.
    apply io_bind_ok_inv in H as (metadata & w1 & Hload & H).
    apply io_bind_ok_inv in H as (stored_issues & w2 & Hget & H).
    apply io_lift_ok_inv in Hget as [Hget ->].
    apply io_bind_ok_inv in H as (keys & w3 & Hkeys & H).
    apply io_lift_ok_inv in Hkeys as [Hkeys ->].
    apply io_bind_ok_inv in H as (numbers & w4 & Hnum & H).
    apply io_lift_ok_inv in Hnum as [Hnum ->].
    unfold io_ret in H. injection H as <- <-.
    destruct stored_issues as [| | | |stored]; try discriminate.
    injection Hkeys as <-.
    exists metadata, stored. split; [done|]. split; [done|]. split.
    + apply strictly_sorted.
      * apply StronglySorted_merge_sort; apply _.
      * apply NoDup_ListNoDup. rewrite merge_sort_Permutation.
        apply NoDup_elements.
    + intros n. rewrite <- list_elem_of_In, merge_sort_Permutation.
      rewrite elem_of_elements, elem_of_difference, !elem_of_list_to_set.
      rewrite !list_elem_of_In. by rewrite (rmap_ok_In _ _ _ Hnum n).
  - intros metadata stored w' key e Hload Hget Hkey Hbad.
    unfold get_deleted_issues, io_bind. rewrite Hload. unfold io_lift.
    rewrite Hget. cbn [py_keys].
    destruct (rmap_raise_In _ _ _ _ Hkey Hbad) as [e' He'].
    rewrite He'. apply rmap_raise_inv in He' as (x & _ & Hx).
    by rewrite (int_of_text_raise _ _ Hx).
Qed.

(** *** The numbers of the stored documents *)

Lemma suffixb_app p s : suffixb p (s +:+ p) = true.
Proof.
  induction s as [|c s IH]; simpl.
  - destruct p; simpl; by rewrite ?Ascii.eqb_refl, ?String.eqb_refl.
  - rewrite IH. apply orb_true_r.
Qed.

Lemma rpartition_md s : rpartition "." (s +:+ ".md") = Some (s, "md").
Proof. induction s as [|c s IH]; simpl; [done|]. by rewrite IH. Qed.

Lemma py_split_whole sep s :
  all_chars (fun c => negb (Ascii.eqb c sep)) s = true ->
  py_split sep s = [s].
Proof.
  induction s as [|c s IH]; simpl; [done|]. intros [Hc Hs]%andb_prop.
  apply negb_true_iff in Hc. by rewrite Hc, IH.
Qed.

Lemma py_split_pieces sep s :
  Forall (fun piece => all_chars (fun c => negb (Ascii.eqb c sep)) piece = true)
    (py_split sep s).
Proof.
  induction s as [|c s IH]; simpl; [by repeat constructor|].
  destruct (Ascii.eqb c sep) eqn:Hc; [by constructor|].
  destruct (py_split sep s) as [|piece pieces].
  - repeat constructor. simpl. by rewrite Hc.
  - apply Forall_cons in IH as [Hp Hps]. constructor; [|done].
    simpl. by rewrite Hc, Hp.
Qed.

Lemma is_digit_not_minus c :
  is_digit c = true -> negb (Ascii.eqb c "-") = true.
Proof. intros H. by destruct (is_digit_not_sign c H) as [-> _]. Qed.

Lemma str_of_Z_digits n : 0 <= n -> all_chars is_digit (str_of_Z n) = true.
Proof.
  unfold str_of_Z. destruct n as [|p|p]; [done| |lia]. intros _. simpl.
  unfold NilZero.string_of_uint.
  destruct (Pos.to_uint p) eqn:Hp; try done; rewrite <- Hp;
    apply string_of_uint_digits.
Qed.

Lemma issue_number_of_name_file n :
  0 <= n -> issue_number_of_name (issue_file_name n) = Some n.
Proof.
  intros Hn. unfold issue_number_of_name, issue_file_name, path_stem.
  rewrite <- append_assoc, rpartition_md. cbn [String.eqb String.append orb].
  assert (Hsplit : py_split "-" (str_of_Z n) = [str_of_Z n]).
  { apply py_split_whole, (all_chars_impl is_digit).
    - apply is_digit_not_minus.
    - by apply str_of_Z_digits. }
  cbn [py_split Ascii.eqb Bool.eqb]. rewrite Hsplit. cbn [nth_error].
  by rewrite int_of_text_str_of_Z.
Qed.

Lemma fnmatch_issue_file_name n :
  fnmatch_star "issue-" ".md" (issue_file_name n) = true.
Proof.
  unfold fnmatch_star, issue_file_name.
  cbn [drop_prefix String.append Ascii.eqb Bool.eqb]. apply suffixb_app.
Qed.

Lemma issue_number_of_name_nonneg name n :
  issue_number_of_name name = Some n -> 0 <= n.
Proof.
  unfold issue_number_of_name.
  destruct (nth_error _ 1) as [piece|] eqn:Hnth; [|done].
  destruct (int_of_text piece) as [m|] eqn:Hint; [|done]. intros [= <-].
  apply (int_of_text_nonneg piece); [|done].
  apply nth_error_In in Hnth.
  pose proof (py_split_pieces "-" (path_stem name)) as Hall.
  rewrite List.Forall_forall in Hall. by apply Hall.
Qed.

Lemma child_name_snoc (p : path) name : child_name p (p ++ [name]) = Some name.
Proof.
  unfold child_name. destruct (p ++ [name]) eqn:Hq.
  - by destruct p.
  - rewrite <- Hq, removelast_last, last_last.
    by rewrite bool_decide_eq_true_2.
Qed.

Lemma listdir_child p name w :
  is_dir w (p ++ [name]) || is_file w (p ++ [name]) = true ->
  In name (listdir p w).
Proof.
  intros H. unfold listdir. apply list_elem_of_In, list_elem_of_omap.
  exists (p ++ [name]). split; [|apply child_name_snoc].
  apply elem_of_elements, elem_of_union.
  apply orb_prop in H as [H|H].
  - left. unfold is_dir in H. apply orb_prop in H as [H|H].
    + apply bool_decide_eq_true in H. by destruct p.
    + by apply bool_decide_eq_true in H.
  - right. apply elem_of_dom. unfold is_file in H.
    by destruct (files w !! (p ++ [name])).
Qed.

(** X13. What [get_all_issue_numbers] returns. When it returns, the list
    is ascending and holds no negative number; it holds every number
    that is not negative and for which [issue_exists] answers True. (The
    document of a negative number, ['issue--5.md'], is never listed: the
    text after the first hyphen of its name is empty.) *)
Theorem get_all_issue_numbers_spec self repo_name w l w' :
  get_all_issue_numbers self repo_name w = (Ok l, w') ->
  Sorted Z.le l /\
  (forall n, In n l -> 0 <= n) /\
  (forall n,
     0 <= n -> fst (issue_exists self repo_name n w) = Ok true -> In n l).
Proof.
  intros H. unfold get_all_issue_numbers in H.
  apply io_bind_ok_inv in H as (p & w1 & Hdir & H).
  pose proof (get_repo_dir_world _ _ _ _ _ Hdir) as (-> & Hd1 & _).
  unfold io_bind, path_exists in H. rewrite Hd1 in H. cbn [orb negb] in H.
  unfold glob_star, io_ret in H. injection H as <- <-.
  split; [|split].
  - apply Sorted_merge_sort, _.
  - intros n Hn. apply list_elem_of_In in Hn.
    rewrite merge_sort_Permutation in Hn.
    apply list_elem_of_omap in Hn as (name & _ & Hname).
    by apply issue_number_of_name_nonneg in Hname.
  - intros n Hn Hex. unfold issue_exists in Hex.
    rewrite io_bind_eq, Hdir in Hex. unfold path_exists in Hex.
    injection Hex as Hex. fold (issue_path self repo_name n) in Hex.
    rewrite issue_path_snoc in Hex.
    apply list_elem_of_In. rewrite merge_sort_Permutation.
    apply list_elem_of_omap. exists (issue_file_name n).
    split; [|by apply issue_number_of_name_file].
    apply list_elem_of_In, List.filter_In.
    split; [by apply listdir_child|apply fnmatch_issue_file_name].
Qed.

(** *** The form of a fingerprint *)

Lemma hex_digit_lower n : is_lower_hex (hex_digit n) = true.
Proof.
  destruct n as [|p]; [done|].
  do 5 (try (destruct p as [p|p|]; try done)).
Qed.

Lemma string_length_append (a b : string) :
  String.length (a +:+ b) = (String.length a + String.length b)%nat.
Proof. induction a as [|c a IH]; simpl; [done|]. by rewrite IH. Qed.

Lemma all_chars_append p (a b : string) :
  all_chars p (a +:+ b) = all_chars p a && all_chars p b.
Proof.
  induction a as [|c a IH]; simpl; [done|]. by rewrite IH, andb_assoc.
Qed.

Lemma hexdigest_form bs :
  String.length (hexdigest bs) = (2 * length bs)%nat /\
  all_chars is_lower_hex (hexdigest bs) = true.
Proof.
  unfold hexdigest. induction bs as [|b bs [IHl IHc]]; [done|].
  assert (Hcons : String.concat "" (map hex_of_byte (b :: bs)) =
                  hex_of_byte b +:+ String.concat "" (map hex_of_byte bs)).
  { simpl. by destruct (map hex_of_byte bs). }
  rewrite Hcons, string_length_append, all_chars_append, IHl, IHc.
  split.
  - simpl. lia.
  - unfold hex_of_byte, hex2. simpl. by rewrite !hex_digit_lower.
Qed.

Lemma round_length s kw :
  length s = 8%nat -> length (SHA256.round s kw) = 8%nat.
Proof. do 9 (destruct s as [|? s]; try done). Qed.

Lemma fold_round_length l : forall s,
  length s = 8%nat -> length (fold_left SHA256.round l s) = 8%nat.
Proof.
  induction l as [|kw l IH]; intros s Hs; simpl; [done|].
  by apply IH, round_length.
Qed.

Lemma compress_length h block :
  length h = 8%nat -> length (SHA256.compress h block) = 8%nat.
Proof.
  intros Hh. unfold SHA256.compress.
  rewrite length_map, length_combine, fold_round_length by done.
  by rewrite Hh.
Qed.

Lemma fold_compress_length bl : forall h,
  length h = 8%nat -> length (fold_left SHA256.compress bl h) = 8%nat.
Proof.
  induction bl as [|b bl IH]; intros h Hh; simpl; [done|].
  by apply IH, compress_length.
Qed.

Lemma digest_length msg : length (SHA256.digest msg) = 32%nat.
Proof.
  unfold SHA256.digest.
  rewrite (flat_map_constant_length (c := 4)).
  - rewrite fold_compress_length; done.
  - intros x _. unfold SHA256.be_bytes.
    by rewrite length_map, length_rev, length_seq.
Qed.

(** X14. The form of a fingerprint. Whenever [_calculate_hash] returns,
    on any dictionary, the fingerprint is a text of 64 characters, each
    one a digit or a letter from [a] to [f]; on the records the client
    builds it always returns. *)
Theorem calculate_hash_form :
  (forall d h,
     _calculate_hash d = Ok h ->
     String.length h = 64%nat /\ all_chars is_lower_hex h = true) /\
  (forall i, exists h,
     _calculate_hash (issue_dict i) = Ok h /\
     String.length h = 64%nat /\ all_chars is_lower_hex h = true).
Proof.
  assert (Hform : forall s,
            String.length (sha256_hex s) = 64%nat /\
            all_chars is_lower_hex (sha256_hex s) = true).
  { intros s. unfold sha256_hex.
    destruct (hexdigest_form (SHA256.digest (utf8_encode s))) as [Hl Hc].
    by rewrite Hl, digest_length. }
  split.
  - intros d h. unfold _calculate_hash.
    destruct (hash_data d); [|done]. cbn [rbind]. intros [= <-]. apply Hform.
  - intros i. exists (fingerprint i). split; [apply calculate_hash_issue|].
    apply Hform.
Qed.

(** *** What the writers leave alone *)

Lemma confined_read_only {A} P (m : IO A) : read_only m -> confined_to P m.
Proof. intros H w. by rewrite (H w). Qed.

Lemma confined_bind {A B} P (m : IO A) (k : A -> IO B) :
  confined_to P m -> (forall a, confined_to P (k a)) ->
  confined_to P (io_bind m k).
Proof.
  intros Hm Hk w. unfold io_bind. destruct (Hm w) as (Hf & Hfile & Hdir).
  destruct (m w) as [[a|e] w1]; simpl in *; [|done].
  destruct (Hk a w1) as (Hf' & Hfile' & Hdir').
  split; [|split].
  - intros q Hq. by rewrite Hf', Hf.
  - intros q Hq. by apply Hfile', Hfile.
  - intros q Hq. by apply Hdir', Hdir.
Qed.

Lemma confined_weaken {A} (P Q : path -> Prop) (m : IO A) :
  (forall q, P q -> Q q) -> confined_to P m -> confined_to Q m.
Proof.
  intros HPQ Hm w. destruct (Hm w) as (Hf & Hfile & Hdir).
  split; [|done]. intros q Hq. apply Hf. intros HP. by apply Hq, HPQ.
Qed.

Lemma confined_mkdir P p : confined_to P (mkdir_exist_ok p).
Proof.
  intros w. unfold mkdir_exist_ok.
  destruct (is_dir w p); [done|]. destruct (is_file w p); [done|].
  destruct (is_dir w (parent p)); [|by destruct (is_file w (parent p))].
  simpl. split; [done|]. split; [done|].
  intros q Hq. rewrite is_dir_add_dir, Hq. apply orb_true_r.
Qed.

Lemma confined_get_repo_dir P self repo_name :
  confined_to P (get_repo_dir self repo_name).
Proof.
  unfold get_repo_dir. apply confined_bind; [apply confined_mkdir|].
  intros _. by apply confined_read_only.
Qed.

Lemma confined_write_file (P : path -> Prop) p c :
  P p -> confined_to P (write_file p c).
Proof.
  intros Hp w. unfold write_file.
  destruct (is_dir w p); [done|]. destruct (negb _); [done|].
  assert (Hne : forall q, ~ P q -> p <> q) by (intros q Hq ->; done).
  destruct (faults w) as [|[] fs]; simpl; (split; [|split]); try done;
    intros q Hq;
    first [ by rewrite lookup_insert_ne by (by apply Hne)
          | unfold is_file in *; simpl;
            destruct (decide (q = p)) as [->|Hqp];
            [by rewrite lookup_insert_eq|by rewrite lookup_insert_ne] ].
Qed.

Lemma confined_load_metadata P self repo_name :
  confined_to P (load_metadata self repo_name).
Proof.
  intros w.
  destruct (creates_at_most_load_metadata self repo_name w) as (Hf & _ & Hw).
  split; [by rewrite Hf|]. split.
  - intros q. unfold is_file. by rewrite Hf.
  - intros q Hq. destruct Hw as [->| ->]; [done|].
    rewrite is_dir_add_dir, Hq. apply orb_true_r.
Qed.

Lemma confined_update_metadata P self repo_name i :
  P (metadata_path self repo_name) ->
  confined_to P (_update_metadata self repo_name i).
Proof.
  intros HP.
  assert (H : confined_to P
            (_ <~ get_repo_dir self repo_name ;;
             metadata <~ read_metadata (metadata_path self repo_name) ;;
             metadata <~ io_lift (update_metadata_value metadata i) ;;
             write_file (metadata_path self repo_name) (FJson metadata))).
  { apply confined_bind; [apply confined_get_repo_dir|]. intros _.
    apply confined_bind.
    { apply confined_read_only. intros w.
      destruct (read_metadata _ w) as [r w1] eqn:Hr.
      by apply read_metadata_world in Hr as ->. }
    intros metadata. apply confined_bind; [by apply confined_read_only|].
    intros metadata'. by apply confined_write_file. }
  intros w. rewrite update_metadata_steps. apply H.
Qed.

Lemma confined_save_filters P self repo_name filters :
  P (metadata_path self repo_name) ->
  confined_to P (save_filters self repo_name filters).
Proof.
  intros HP.
  assert (H : confined_to P
            (_ <~ get_repo_dir self repo_name ;;
             metadata <~ load_metadata self repo_name ;;
             metadata <~ io_lift (py_setitem metadata "filters" filters) ;;
             write_file (metadata_path self repo_name) (FJson metadata))).
  { apply confined_bind; [apply confined_get_repo_dir|]. intros _.
    apply confined_bind; [apply confined_load_metadata|]. intros metadata.
    apply confined_bind; [by apply confined_read_only|].
    intros metadata'. by apply confined_write_file. }
  intros w. unfold save_filters. rewrite get_repo_dir_bind. apply H.
Qed.

Section Confined.
Variable yaml_dump : value -> string.
Variable fetch_issues : string -> value -> result (list issue).

Lemma confined_save_issue (P : path -> Prop) self repo_name i :
  P (metadata_path self repo_name) ->
  P (issue_path self repo_name (number i)) ->
  confined_to P (save_issue yaml_dump self repo_name i).
Proof.
  intros HPm HPi.
  assert (H : confined_to P
            (_ <~ get_repo_dir self repo_name ;;
             _ <~ write_file (issue_path self repo_name (number i))
                    (FText (_generate_markdown yaml_dump i)) ;;
             _ <~ _update_metadata self repo_name i ;;
             io_ret (path_str (issue_path self repo_name (number i))))).
  { apply confined_bind; [apply confined_get_repo_dir|]. intros _.
    apply confined_bind; [by apply confined_write_file|]. intros _.
    apply confined_bind; [by apply confined_update_metadata|]. intros _.
    by apply confined_read_only. }
  intros w. unfold save_issue. rewrite get_repo_dir_bind. apply H.
Qed.

Lemma confined_save_all self repo_name l :
  confined_to (store_file self repo_name)
    (save_all yaml_dump self repo_name l).
Proof.
  induction l as [|i l IH]; simpl; [by apply confined_read_only|].
  apply confined_bind; [|by intros _].
  apply confined_save_issue; [by left|right; by eexists].
Qed.

Lemma confined_detect_changes P self repo_name l :
  confined_to P (detect_changes self repo_name l).
Proof.
  unfold detect_changes.
  apply confined_bind; [apply confined_load_metadata|]. intros metadata.
  apply confined_read_only.
  apply read_only_bind; [apply read_only_lift|]. intros stored.
  apply read_only_bind; [apply read_only_lift|]. intros keys.
  apply read_only_lift.
Qed.

Lemma confined_run_repository self filters repo_name :
  confined_to (store_file self repo_name)
    (run_repository yaml_dump fetch_issues self filters repo_name).
Proof.
  unfold run_repository.
  apply confined_bind; [by apply confined_read_only|]. intros issues.
  apply confined_bind.
  { destruct (py_truthy filters); [|by apply confined_read_only].
    apply confined_save_filters. by left. }
  intros _. apply confined_bind; [apply confined_save_all|]. intros _.
  by apply confined_read_only.
Qed.

Lemma confined_update_repository tracker repo_name :
  confined_to (store_file (storage tracker) repo_name)
    (update_repository yaml_dump fetch_issues tracker repo_name).
Proof.
  unfold update_repository.
  apply confined_bind.
  { unfold load_filters.
    apply confined_bind; [apply confined_load_metadata|]. intros metadata.
    by apply confined_read_only. }
  intros filters. apply confined_bind; [by apply confined_read_only|].
  intros current_issues.
  apply confined_bind; [by apply confined_read_only|]. intros _.
  apply confined_bind; [apply confined_detect_changes|]. intros changes.
  apply confined_bind; [apply confined_save_all|]. intros _.
  by apply confined_read_only.
Qed.

(** X15. Writes stay in the store and nothing is removed. Whatever
    they return or raise, [save_issue] changes no file other than the
    document of its issue and the metadata document, [save_filters] none
    other than the metadata document, and the bodies of [run] and
    [update] for a repository none other than the documents and the
    metadata document of that repository; and none of them removes a
    file or a directory: the document of an issue that has disappeared
    from the service stays on disk. *)
Theorem writes_are_confined self repo_name :
  (forall i,
     confined_to
       (fun q => q = issue_path self repo_name (number i) \/
                 q = metadata_path self repo_name)
       (save_issue yaml_dump self repo_name i)) /\
  (forall filters,
     confined_to (fun q => q = metadata_path self repo_name)
       (save_filters self repo_name filters)) /\
  (forall filters,
     confined_to (store_file self repo_name)
       (run_repository yaml_dump fetch_issues self filters repo_name)) /\
  confined_to (store_file self repo_name)
    (update_repository yaml_dump fetch_issues {| storage := self |} repo_name).
Proof.
  split; [|split; [|split]].
  - intros i. apply confined_save_issue; auto.
  - intros filters. by apply confined_save_filters.
  - intros filters. apply confined_run_repository.
  - apply (confined_update_repository {| storage := self |}).
Qed.

End Confined.

(** *** The further theorems at concrete inputs *)

Lemma example_fetch_distinct filters l :
  example_fetch example_repo filters = Ok l ->
  l <> [] /\ List.NoDup (map number l).
Proof.
  intros [= <-]. split; [discriminate|].
  constructor; [intros []|constructor].
Defined.

Lemma filtered_store_current :
  current_format example_storage example_repo filtered_store.
Proof.
  intros c Hc. vm_compute in Hc. injection Hc as <-.
  eexists. split; reflexivity.
Defined.

(** X2 on a store with filters and no issue: the first pass saves the
    issue, the second finds it unchanged. *)
Lemma update_repository_idempotent_witness :
  exists ch w' filters l,
    update_repository example_yaml_dump example_fetch example_tracker
      example_repo filtered_store = (Ok ch, w') /\
    example_fetch example_repo filters = Ok l /\
    load_filters example_storage example_repo w' = (Ok filters, w') /\
    update_repository example_yaml_dump example_fetch example_tracker
      example_repo w' = (Ok (all_unchanged l), w').
Proof.
  assert (Hok : is_ok (fst (update_repository example_yaml_dump example_fetch
                              example_tracker example_repo filtered_store))
                = true) by (vm_compute; reflexivity).
  revert Hok.
  destruct (update_repository example_yaml_dump example_fetch example_tracker
              example_repo filtered_store) as [[ch|e] w'] eqn:Hrun;
    [intros _|discriminate].
  destruct (update_repository_idempotent example_yaml_dump example_fetch
              example_tracker example_repo filtered_store ch w')
    as (filters & l & _ & Hfetch & Hlf & Hupd).
  - exact filtered_store_current.
  - intros filters l Hl. exact (proj2 (example_fetch_distinct filters l Hl)).
  - exact Hrun.
  - exists ch, w', filters, l. auto.
Defined.

(** X3 on an empty repository. *)
Lemma run_repository_saves_every_issue_witness :
  exists n w' l,
    run_repository example_yaml_dump example_fetch example_storage
      example_filters example_repo fresh_store = (Ok n, w') /\
    example_fetch example_repo example_filters = Ok l /\ n = length l /\
    detect_changes {| storage := example_storage |} example_repo l w' =
      (Ok (all_unchanged l), w').
Proof.
  assert (Hok : is_ok (fst (run_repository example_yaml_dump example_fetch
                              example_storage example_filters example_repo
                              fresh_store)) = true)
    by (vm_compute; reflexivity).
  revert Hok.
  destruct (run_repository example_yaml_dump example_fetch example_storage
              example_filters example_repo fresh_store)
    as [[n|e] w'] eqn:Hrun; [intros _|discriminate].
  destruct (run_repository_saves_every_issue example_yaml_dump example_fetch
              example_storage example_filters example_repo fresh_store n w')
    as (l & Hfetch & Hn & Hdetect).
  - left. reflexivity.
  - exact Hrun.
  - exists n, w', l.
    destruct (example_fetch_distinct example_filters l Hfetch) as [Hne Hnd].
    auto.
Defined.


(** X5: a run without filters on the store that holds filters. *)
Lemma run_without_filters_keeps_stored_filters_witness :
  exists n w',
    run_repository example_yaml_dump example_fetch example_storage (VDict [])
      example_repo filtered_store = (Ok n, w') /\
    fst (load_filters example_storage example_repo w') =
    fst (load_filters example_storage example_repo filtered_store).
Proof.
  assert (Hok : is_ok (fst (run_repository example_yaml_dump example_fetch
                              example_storage (VDict []) example_repo
                              filtered_store)) = true)
    by (vm_compute; reflexivity).
  revert Hok.
  destruct (run_repository example_yaml_dump example_fetch example_storage
              (VDict []) example_repo filtered_store)
    as [[n|e] w'] eqn:Hrun; [intros _|discriminate].
  exists n, w'. split; [reflexivity|].
  apply (run_without_filters_keeps_stored_filters example_yaml_dump
           example_fetch example_storage (VDict []) example_repo
           filtered_store n w').
  - reflexivity.
  - exact filtered_store_current.
  - exact Hrun.
Defined.

(** X6 on an empty repository. *)
Lemma issue_exists_after_save_witness :
  exists p w',
    save_issue example_yaml_dump example_storage example_repo small_issue
      fresh_store = (Ok p, w') /\
    forall n, exists b,
      fst (issue_exists example_storage example_repo n fresh_store) = Ok b /\
      issue_exists example_storage example_repo n w' =
        (Ok (b || (n =? 7)), w').
Proof.
  assert (Hok : is_ok (fst (save_issue example_yaml_dump example_storage
                              example_repo small_issue fresh_store)) = true)
    by (vm_compute; reflexivity).
  revert Hok.
  destruct (save_issue example_yaml_dump example_storage example_repo
              small_issue fresh_store) as [[p|e] w'] eqn:Hsave;
    [intros _|discriminate].
  exists p, w'. split; [reflexivity|].
  exact (issue_exists_after_save example_yaml_dump example_storage
           example_repo small_issue fresh_store p w' Hsave).
Defined.

(** X7 on an empty repository. *)
Lemma save_issue_twice_witness :
  exists p w1 p' w2,
    save_issue example_yaml_dump example_storage example_repo small_issue
      fresh_store = (Ok p, w1) /\
    save_issue example_yaml_dump example_storage example_repo small_issue w1
      = (Ok p', w2) /\
    p' = p /\ files w2 = files w1 /\ dirs w2 = dirs w1.
Proof.
  assert (Hok : is_ok (fst (save_issue example_yaml_dump example_storage
                              example_repo small_issue
                              (snd (save_issue example_yaml_dump
                                      example_storage example_repo
                                      small_issue fresh_store)))) = true)
    by (vm_compute; reflexivity).
  assert (Hok1 : is_ok (fst (save_issue example_yaml_dump example_storage
                               example_repo small_issue fresh_store)) = true)
    by (vm_compute; reflexivity).
  revert Hok Hok1.
  destruct (save_issue example_yaml_dump example_storage example_repo
              small_issue fresh_store) as [[p|e] w1] eqn:H1;
    [intros Hok _|discriminate].
  cbn [snd] in Hok. revert Hok.
  destruct (save_issue example_yaml_dump example_storage example_repo
              small_issue w1) as [[p'|e] w2] eqn:H2;
    [intros _|discriminate].
  exists p, w1, p', w2. split; [reflexivity|]. split; [exact H2|].
  exact (save_issue_twice example_yaml_dump example_storage example_repo
           small_issue fresh_store p w1 p' w2 H1 H2).
Defined.

(** X8 on an empty repository: the issue seen later with another author,
    address and milestone is unchanged. *)
Lemma detect_changes_after_save_witness :
  exists p w',
    save_issue example_yaml_dump example_storage example_repo small_issue
      fresh_store = (Ok p, w') /\
    detect_changes {| storage := example_storage |} example_repo
      [small_issue_moved] w' =
      (Ok {| new := []; updated := []; unchanged := [7] |}, w').
Proof.
  assert (Hok : is_ok (fst (save_issue example_yaml_dump example_storage
                              example_repo small_issue fresh_store)) = true)
    by (vm_compute; reflexivity).
  revert Hok.
  destruct (save_issue example_yaml_dump example_storage example_repo
              small_issue fresh_store) as [[p|e] w'] eqn:Hsave;
    [intros _|discriminate].
  exists p, w'. split; [reflexivity|].
  apply (detect_changes_after_save example_yaml_dump example_storage
           example_repo small_issue small_issue_moved fresh_store p w').
  - exact Hsave.
  - reflexivity.
Defined.

(** X9 on the store with three entries. *)
Lemma load_filters_after_save_filters_witness :
  exists w',
    save_filters example_storage example_repo example_filters listing_store
      = (Ok tt, w') /\
    load_filters example_storage example_repo w' = (Ok example_filters, w') /\
    forall l,
      detect_changes {| storage := example_storage |} example_repo l w' =
      (fst (detect_changes {| storage := example_storage |} example_repo l
              listing_store), w').
Proof.
  assert (Hok : is_ok (fst (save_filters example_storage example_repo
                              example_filters listing_store)) = true)
    by (vm_compute; reflexivity).
  revert Hok.
  destruct (save_filters example_storage example_repo example_filters
              listing_store) as [[[]|e] w'] eqn:Hsave;
    [intros _|discriminate].
  exists w'. split; [reflexivity|].
  exact (load_filters_after_save_filters example_storage example_repo
           example_filters listing_store w' Hsave).
Defined.

(** X10 on the store with the truncated document. *)
Lemma unparsable_metadata_blocks_witness :
  load_metadata example_storage example_repo truncated_store =
    (Raise JSONDecodeError, truncated_store) /\
  load_filters example_storage example_repo truncated_store =
    (Raise JSONDecodeError, truncated_store) /\
  (forall filters,
     save_filters example_storage example_repo filters truncated_store =
       (Raise JSONDecodeError, truncated_store)) /\
  (forall i,
     _update_metadata example_storage example_repo i truncated_store =
       (Raise JSONDecodeError, truncated_store)) /\
  (forall l,
     detect_changes {| storage := example_storage |} example_repo l
       truncated_store = (Raise JSONDecodeError, truncated_store)) /\
  (forall l,
     get_deleted_issues {| storage := example_storage |} example_repo l
       truncated_store = (Raise JSONDecodeError, truncated_store)).
Proof.
  apply (unparsable_metadata_blocks example_storage example_repo
           truncated_store FPartial); vm_compute; reflexivity.
Defined.

(** X11 on the store with the truncated document. *)
Lemma update_turn_unparsable_witness :
  update_repository example_yaml_dump example_fetch example_tracker
    example_repo truncated_store = (Raise JSONDecodeError, truncated_store) /\
  update_turn example_yaml_dump example_fetch example_tracker example_repo
    truncated_store =
    (Ok {| new := []; updated := []; unchanged := [] |}, truncated_store).
Proof.
  apply (update_turn_unparsable example_yaml_dump example_fetch
           example_tracker example_repo truncated_store FPartial);
    vm_compute; reflexivity.
Defined.

(** X12 on the store with three entries, issue 3 being current, and on
    a legacy store with a key that is no number. *)
Lemma get_deleted_issues_spec_witness :
  (exists w',
     get_deleted_issues example_tracker example_repo [issue_3] listing_store =
       (Ok [1; 10], w') /\
     StronglySorted Z.lt [1; 10]) /\
  (exists w',
     get_deleted_issues example_tracker example_repo [issue_3] noted_store =
       (Raise ValueError, w')).
Proof.
  split.
  - assert (Hfst : fst (get_deleted_issues example_tracker example_repo
                          [issue_3] listing_store) = Ok [1; 10])
      by (vm_compute; reflexivity).
    revert Hfst.
    destruct (get_deleted_issues example_tracker example_repo [issue_3]
                listing_store) as [r w'] eqn:Hrun.
    cbn [fst]. intros ->. exists w'. split; [reflexivity|].
    destruct (proj1 (get_deleted_issues_spec example_tracker example_repo
                       [issue_3] listing_store) [1; 10] w' Hrun)
      as (metadata & stored & _ & _ & Hsorted & _).
    exact Hsorted.
  - assert (Hfst : fst (load_metadata example_storage example_repo noted_store)
                   = Ok (VDict [("filters", VDict []);
                                ("issues",
                                 VDict [("note", VStr "kept by hand")])]))
      by (vm_compute; reflexivity).
    revert Hfst.
    destruct (load_metadata example_storage example_repo noted_store)
      as [r w'] eqn:Hload.
    cbn [fst]. intros ->. exists w'.
    apply (proj2 (get_deleted_issues_spec example_tracker example_repo
                    [issue_3] noted_store)
             (VDict [("filters", VDict []);
                     ("issues", VDict [("note", VStr "kept by hand")])])
             [("note", VStr "kept by hand")] w' "note" ValueError).
    + exact Hload.
    + reflexivity.
    + left. reflexivity.
    + reflexivity.
Defined.

(** X13 on the store with the documents of the issues 1 and 3. *)
Lemma get_all_issue_numbers_spec_witness :
  exists w',
    get_all_issue_numbers example_storage example_repo listing_store =
      (Ok [1; 3], w') /\
    Sorted Z.le [1; 3] /\
    (forall n, In n [1; 3] -> 0 <= n) /\
    (forall n,
       0 <= n ->
       fst (issue_exists example_storage example_repo n listing_store)
         = Ok true ->
       In n [1; 3]).
Proof.
  assert (Hfst : fst (get_all_issue_numbers example_storage example_repo
                        listing_store) = Ok [1; 3])
    by (vm_compute; reflexivity).
  revert Hfst.
  destruct (get_all_issue_numbers example_storage example_repo listing_store)
    as [r w'] eqn:Hrun.
  cbn [fst]. intros ->. exists w'. split; [reflexivity|].
  exact (get_all_issue_numbers_spec example_storage example_repo
           listing_store [1; 3] w' Hrun).
Defined.
